(** * go-readability: the output assembler of [parser-parse.go]

    A shallow embedding of [Parser.Parse], [Parser.ParseDocument],
    [Parser.getDate] and [getParsedDate], together with the parts of the Go
    standard library ([unicode/utf8], [unicode], [strings]) and of
    [github.com/go-shiori/dom] that these functions call.

    Go strings are byte sequences: they are modelled as [string], whose
    characters are the bytes.  Go [int] values are modelled as [Z]; the code
    only compares them, so no wrap-around arises. *)

From Stdlib Require Import ZArith NArith Ascii String List Lia Bool.
From stdpp Require Import base option gmap strings pretty.

Set Warnings "-register-all".

Local Open Scope string_scope.

(** ** Byte strings *)

Module bytes.

(** [s[n:]] *)
Fixpoint drop (n : nat) (s : string) : string :=
  match n, s with
  | O, _ => s
  | S n', String _ s' => drop n' s'
  | S _, EmptyString => EmptyString
  end.

(** [s[:n]] *)
Fixpoint take (n : nat) (s : string) : string :=
  match n, s with
  | O, _ => EmptyString
  | S n', String c s' => String c (take n' s')
  | S _, EmptyString => EmptyString
  end.

(** [s[i]], as a number; 0 out of range (Go panics there, and every use
    below is guarded by a length test). *)
Definition at_ (s : string) (i : nat) : N :=
  match String.get i s with
  | Some c => N_of_ascii c
  | None => 0%N
  end.

Definition of_list (l : list N) : string :=
  fold_right (fun b acc => String (ascii_of_N b) acc) EmptyString l.

(** The newline and the double quote. *)
Definition nl : string := String (ascii_of_nat 10) EmptyString.
Definition dquote : string := String (ascii_of_nat 34) EmptyString.

(** Every byte of [s] passes the test [P]. *)
Fixpoint all (P : ascii -> bool) (s : string) : bool :=
  match s with
  | EmptyString => true
  | String c s' => P c && all P s'
  end.

End bytes.

(** ** [unicode/utf8] *)

Module utf8.
Local Open Scope N_scope.

Definition RuneError : N := 0xFFFD.
Definition RuneSelf : N := 0x80.
Definition UTFMax : nat := 4.

Definition maskx : N := 0x3F.
Definition mask2 : N := 0x1F.
Definition mask3 : N := 0x0F.
Definition mask4 : N := 0x07.
Definition locb : N := 0x80.
Definition hicb : N := 0xBF.

(** The codes of the [first] table. *)
Definition xx : N := 0xF1.
Definition as_ : N := 0xF0.
Definition s1 : N := 0x02.
Definition s2 : N := 0x13.
Definition s3 : N := 0x03.
Definition s4 : N := 0x23.
Definition s5 : N := 0x34.
Definition s6 : N := 0x04.
Definition s7 : N := 0x44.

(** [first[b]]: information about the first byte of an encoding. *)
Definition first (b : N) : N :=
  if b <? 0x80 then as_
  else if b <? 0xC2 then xx
  else if b <? 0xE0 then s1
  else if b =? 0xE0 then s2
  else if b <? 0xED then s3
  else if b =? 0xED then s4
  else if b <? 0xF0 then s3
  else if b =? 0xF0 then s5
  else if b <? 0xF4 then s6
  else if b =? 0xF4 then s7
  else xx.

(** [acceptRanges[i]]: the range of a valid second byte. *)
Definition acceptRanges (i : N) : N * N :=
  match i with
  | 0 => (locb, hicb)
  | 1 => (0xA0, hicb)
  | 2 => (locb, 0x9F)
  | 3 => (0x90, hicb)
  | 4 => (locb, 0x8F)
  | _ => (0, 0)
  end.

(** [utf8.DecodeRuneInString]: the first rune of [s] and its width in
    bytes; [(RuneError, 0)] on the empty string and [(RuneError, 1)] on an
    invalid encoding. *)
Definition DecodeRuneInString (s : string) : N * nat :=
  match s with
  | EmptyString => (RuneError, O)
  | String c0 t0 =>
    let b0 := N_of_ascii c0 in
    let x := first b0 in
    if as_ <=? x then ((if N.odd x then RuneError else b0), 1%nat)
    else
      let sz := N.to_nat (N.land x 7) in
      let accept := acceptRanges (N.shiftr x 4) in
      if (String.length s <? sz)%nat then (RuneError, 1%nat)
      else
        match t0 with
        | EmptyString => (RuneError, 1%nat)
        | String c1 t1 =>
          let b1 := N_of_ascii c1 in
          if (b1 <? fst accept) || (snd accept <? b1) then (RuneError, 1%nat)
          else if (sz <=? 2)%nat then
            (N.lor (N.shiftl (N.land b0 mask2) 6) (N.land b1 maskx), 2%nat)
          else
            match t1 with
            | EmptyString => (RuneError, 1%nat)
            | String c2 t2 =>
              let b2 := N_of_ascii c2 in
              if (b2 <? locb) || (hicb <? b2) then (RuneError, 1%nat)
              else if (sz <=? 3)%nat then
                (N.lor (N.lor (N.shiftl (N.land b0 mask3) 12)
                              (N.shiftl (N.land b1 maskx) 6))
                       (N.land b2 maskx), 3%nat)
              else
                match t2 with
                | EmptyString => (RuneError, 1%nat)
                | String c3 _ =>
                  let b3 := N_of_ascii c3 in
                  if (b3 <? locb) || (hicb <? b3) then (RuneError, 1%nat)
                  else
                    (N.lor (N.lor (N.lor (N.shiftl (N.land b0 mask4) 18)
                                         (N.shiftl (N.land b1 maskx) 12))
                                  (N.shiftl (N.land b2 maskx) 6))
                           (N.land b3 maskx), 4%nat)
                end
            end
        end
  end.

(** The multi-byte part of [DecodeRuneInString], with the size [sz] and
    the range [lo..hi] of the second byte that [first] and [acceptRanges]
    give.  [decode_cons] relates the two. *)
Definition decodeBody (sz : nat) (lo hi : N) (c0 : ascii) (t0 : string)
  : N * nat :=
  let b0 := N_of_ascii c0 in
  if (String.length (String c0 t0) <? sz)%nat then (RuneError, 1%nat)
  else
    match t0 with
    | EmptyString => (RuneError, 1%nat)
    | String c1 t1 =>
      let b1 := N_of_ascii c1 in
      if (b1 <? lo) || (hi <? b1) then (RuneError, 1%nat)
      else if (sz <=? 2)%nat then
        (N.lor (N.shiftl (N.land b0 mask2) 6) (N.land b1 maskx), 2%nat)
      else
        match t1 with
        | EmptyString => (RuneError, 1%nat)
        | String c2 t2 =>
          let b2 := N_of_ascii c2 in
          if (b2 <? locb) || (hicb <? b2) then (RuneError, 1%nat)
          else if (sz <=? 3)%nat then
            (N.lor (N.lor (N.shiftl (N.land b0 mask3) 12)
                          (N.shiftl (N.land b1 maskx) 6))
                   (N.land b2 maskx), 3%nat)
          else
            match t2 with
            | EmptyString => (RuneError, 1%nat)
            | String c3 _ =>
              let b3 := N_of_ascii c3 in
              if (b3 <? locb) || (hicb <? b3) then (RuneError, 1%nat)
              else
                (N.lor (N.lor (N.lor (N.shiftl (N.land b0 mask4) 18)
                                     (N.shiftl (N.land b1 maskx) 12))
                              (N.shiftl (N.land b2 maskx) 6))
                       (N.land b3 maskx), 4%nat)
            end
        end
    end.

(** A decoding result that reports an invalid encoding: [RuneError] with
    width 1. *)
Definition isError (d : N * nat) : bool :=
  (snd d =? 1)%nat && (fst d =? RuneError).

(** [utf8.RuneStart]: [b] is not a continuation byte. *)
Definition RuneStart (b : N) : bool :=
  negb (N.land b 0xC0 =? 0x80).

(** The backward search of [DecodeLastRuneInString]:
    [for start--; start >= lim; start-- { if RuneStart(s[start]) break }],
    run [k] times at most. *)
Fixpoint findStart (s : string) (start : Z) (lim : Z) (k : nat) : Z :=
  match k with
  | O => start
  | S k' =>
    if (start <? lim)%Z then start
    else if RuneStart (bytes.at_ s (Z.to_nat start)) then start
    else findStart s (start - 1)%Z lim k'
  end.

(** [utf8.DecodeLastRuneInString]: the last rune of [s] and its width. *)
Definition DecodeLastRuneInString (s : string) : N * nat :=
  let end_ := String.length s in
  if (end_ =? 0)%nat then (RuneError, O)
  else
    let start := (end_ - 1)%nat in
    let r := bytes.at_ s start in
    if r <? RuneSelf then (r, 1%nat)
    else
      let lim := Z.max 0 (Z.of_nat end_ - Z.of_nat UTFMax) in
      let start := findStart s (Z.of_nat start - 1) lim UTFMax in
      let start := Z.to_nat (Z.max 0 start) in
      let '(r, size) := DecodeRuneInString (bytes.drop start s) in
      if (start + size =? end_)%nat then (r, size) else (RuneError, 1%nat).

(** [utf8.RuneCountInString]: invalid bytes count as one rune each.  As in
    every loop over the runes of a string below, the rune at the current
    offset is decoded and the offset advanced by its width, which is at
    least 1 on a non-empty string: [String.length s] steps suffice. *)
Fixpoint runeCount (fuel : nat) (s : string) : Z :=
  match fuel with
  | O => 0%Z
  | S f =>
    match s with
    | EmptyString => 0%Z
    | _ => (1 + runeCount f (bytes.drop (snd (DecodeRuneInString s)) s))%Z
    end
  end.

Definition RuneCountInString (s : string) : Z :=
  runeCount (String.length s) s.

(** [utf8.ValidString]: no position decodes to an invalid encoding. *)
Fixpoint validFrom (fuel : nat) (s : string) : bool :=
  match fuel with
  | O => true
  | S f =>
    match s with
    | EmptyString => true
    | _ =>
      let '(r, wid) := DecodeRuneInString s in
      if (wid =? 1)%nat && (r =? RuneError) then false
      else validFrom f (bytes.drop wid s)
    end
  end.

Definition ValidString (s : string) : bool :=
  validFrom (String.length s) s.

(** The bytes that start no encoding, whatever follows them: the
    continuation bytes, [0xC0], [0xC1], and [0xF5] and above. *)
Definition startsNothing (c : ascii) : bool :=
  first (N_of_ascii c) =? xx.

(** The strings that are sequences of well-encoded runes. *)
Inductive Valid : string -> Prop :=
| Valid_nil : Valid EmptyString
| Valid_rune s :
    s <> EmptyString ->
    isError (DecodeRuneInString s) = false ->
    Valid (bytes.drop (snd (DecodeRuneInString s)) s) ->
    Valid s.

End utf8.

(** ** [unicode] *)

Module unicode.
Local Open Scope N_scope.

Definition MaxLatin1 : N := 0xFF.

(** [unicode.IsSpace]: the Latin-1 cases, then the [White_Space] table. *)
Definition IsSpace (r : N) : bool :=
  if r <=? MaxLatin1 then
    (r =? 0x09) || (r =? 0x0A) || (r =? 0x0B) || (r =? 0x0C) || (r =? 0x0D)
    || (r =? 0x20) || (r =? 0x85) || (r =? 0xA0)
  else
    (r =? 0x1680) || ((0x2000 <=? r) && (r <=? 0x200A))
    || (r =? 0x2028) || (r =? 0x2029) || (r =? 0x202F) || (r =? 0x205F)
    || (r =? 0x3000).

End unicode.

(** ** [strings] *)

Module strings.

(** [indexFunc(s, f, truth)]: the offset of the first rune [r] with
    [f r = truth]; [None] is Go's [-1]. *)
Fixpoint indexFunc (fuel : nat) (s : string) (f : N -> bool) (truth : bool)
         (i : nat) : option nat :=
  match fuel with
  | O => None
  | S fuel' =>
    match s with
    | EmptyString => None
    | _ =>
      let '(r, wid) := utf8.DecodeRuneInString s in
      if Bool.eqb (f r) truth then Some i
      else indexFunc fuel' (bytes.drop wid s) f truth (i + wid)
    end
  end.

(** [lastIndexFunc(s, f, truth)], scanning backwards. *)
Fixpoint lastIndexFunc (fuel : nat) (s : string) (f : N -> bool)
         (truth : bool) : option nat :=
  match fuel with
  | O => None
  | S fuel' =>
    match s with
    | EmptyString => None
    | _ =>
      let '(r, size) := utf8.DecodeLastRuneInString s in
      let i := (String.length s - size)%nat in
      if Bool.eqb (f r) truth then Some i
      else lastIndexFunc fuel' (bytes.take i s) f truth
    end
  end.

Definition TrimLeftFunc (s : string) (f : N -> bool) : string :=
  match indexFunc (String.length s) s f false 0 with
  | None => EmptyString
  | Some i => bytes.drop i s
  end.

Definition TrimRightFunc (s : string) (f : N -> bool) : string :=
  match lastIndexFunc (String.length s) s f false with
  | Some i =>
    if (utf8.RuneSelf <=? bytes.at_ s i)%N then
      bytes.take (i + snd (utf8.DecodeRuneInString (bytes.drop i s))) s
    else bytes.take (i + 1) s
  | None => EmptyString
  end.

Definition TrimFunc (s : string) (f : N -> bool) : string :=
  TrimRightFunc (TrimLeftFunc s f) f.

(** [strings.TrimSpace]: all leading and trailing Unicode white space
    removed.  Go runs a byte-wise fast path over ASCII and falls back to
    [TrimFunc(s, unicode.IsSpace)] at the first non-ASCII byte; on ASCII
    bytes both agree, so the model is the fallback. *)
Definition TrimSpace (s : string) : string :=
  TrimFunc s unicode.IsSpace.

(** The loop of [FieldsFunc]: [cur] is the field being read ([None] when
    between fields, Go's [start < 0]). *)
Fixpoint fieldsLoop (fuel : nat) (s : string) (f : N -> bool)
         (cur : option string) : list string :=
  match fuel with
  | O => match cur with Some w => [w] | None => [] end
  | S fuel' =>
    match s with
    | EmptyString => match cur with Some w => [w] | None => [] end
    | _ =>
      let '(r, wid) := utf8.DecodeRuneInString s in
      let rest := bytes.drop wid s in
      if f r then
        match cur with
        | Some w => w :: fieldsLoop fuel' rest f None
        | None => fieldsLoop fuel' rest f None
        end
      else
        fieldsLoop fuel' rest f
          (Some (match cur with
                 | Some w => w +:+ bytes.take wid s
                 | None => bytes.take wid s
                 end))
    end
  end.

Definition FieldsFunc (s : string) (f : N -> bool) : list string :=
  fieldsLoop (String.length s) s f None.

(** [strings.Fields]: the maximal runs of non-space runes.  Go's ASCII
    fast path computes what [FieldsFunc(s, unicode.IsSpace)] computes. *)
Definition Fields (s : string) : list string :=
  FieldsFunc s unicode.IsSpace.

(** [strings.Join] *)
Fixpoint Join (elems : list string) (sep : string) : string :=
  match elems with
  | [] => EmptyString
  | [e] => e
  | e :: rest => e +:+ sep +:+ Join rest sep
  end.

(** The first loop of [ToValidUTF8]: the offset of the first invalid
    byte. *)
Fixpoint firstInvalid (fuel : nat) (s : string) (i : nat) : option nat :=
  match fuel with
  | O => None
  | S fuel' =>
    match s with
    | EmptyString => None
    | _ =>
      let '(c, wid) := utf8.DecodeRuneInString s in
      if (c =? utf8.RuneError)%N && (wid =? 1)%nat then Some i
      else firstInvalid fuel' (bytes.drop wid s) (i + wid)
    end
  end.

(** The second loop of [ToValidUTF8]; [invalid] records that the previous
    byte was from an invalid sequence. *)
Fixpoint validLoop (fuel : nat) (s replacement : string) (invalid : bool)
  : string :=
  match fuel with
  | O => EmptyString
  | S fuel' =>
    match s with
    | EmptyString => EmptyString
    | String c rest =>
      if (N_of_ascii c <? utf8.RuneSelf)%N then
        String c (validLoop fuel' rest replacement false)
      else
        let wid := snd (utf8.DecodeRuneInString s) in
        if (wid =? 1)%nat then
          (if invalid then EmptyString else replacement)
            +:+ validLoop fuel' rest replacement true
        else
          bytes.take wid s
            +:+ validLoop fuel' (bytes.drop wid s) replacement false
    end
  end.

(** [strings.ToValidUTF8]: each run of invalid bytes replaced by
    [replacement]. *)
Definition ToValidUTF8 (s replacement : string) : string :=
  match firstInvalid (String.length s) s 0 with
  | None => s
  | Some i =>
    bytes.take i s
      +:+ validLoop (String.length s) (bytes.drop i s) replacement false
  end.

(** The strings that are sequences of well-encoded white space. *)
Inductive AllSpace : string -> Prop :=
| AllSpace_nil : AllSpace EmptyString
| AllSpace_rune s :
    s <> EmptyString ->
    unicode.IsSpace (fst (utf8.DecodeRuneInString s)) = true ->
    AllSpace (bytes.drop (snd (utf8.DecodeRuneInString s)) s) ->
    AllSpace s.

(** The bytes white space is made of: the ASCII white space, and the bytes
    of multi-byte encodings. *)
Definition spaceByte (c : ascii) : bool :=
  let b := N_of_ascii c in
  (0x80 <=? b)%N
  || (b =? 0x09)%N || (b =? 0x0A)%N || (b =? 0x0B)%N || (b =? 0x0C)%N
  || (b =? 0x0D)%N || (b =? 0x20)%N.

Fixpoint spaceBytes (s : string) : bool :=
  match s with
  | EmptyString => true
  | String c s' => spaceByte c && spaceBytes s'
  end.

(** The bytes that break a line or tabulate: tab, line feed, vertical tab,
    form feed and carriage return, the ASCII white space other than the
    space. *)
Definition breakByte (c : ascii) : bool :=
  let b := N_of_ascii c in (0x09 <=? b)%N && (b <=? 0x0D)%N.

(** A string without such bytes. *)
Definition unbroken (s : string) : bool :=
  bytes.all (fun c => negb (breakByte c)) s.

(** The texts made of well-encoded runes none of which is white space. *)
Inductive Solid : string -> Prop :=
| Solid_nil : Solid EmptyString
| Solid_rune s :
    s <> EmptyString ->
    utf8.isError (utf8.DecodeRuneInString s) = false ->
    unicode.IsSpace (fst (utf8.DecodeRuneInString s)) = false ->
    Solid (bytes.drop (snd (utf8.DecodeRuneInString s)) s) ->
    Solid s.

(** The test for such a text, rune by rune. *)
Fixpoint solidFrom (fuel : nat) (s : string) : bool :=
  match fuel with
  | O => match s with EmptyString => true | String _ _ => false end
  | S f =>
    match s with
    | EmptyString => true
    | _ =>
      let d := utf8.DecodeRuneInString s in
      negb (utf8.isError d) && negb (unicode.IsSpace (fst d))
      && solidFrom f (bytes.drop (snd d) s)
    end
  end.

(** A word: such a text, not empty. *)
Definition word (s : string) : bool :=
  negb (String.eqb s EmptyString) && solidFrom (String.length s) s.

(** The field at hand in the loop of [FieldsFunc] once the bytes [f] have
    been read into it. *)
Definition pushed (cur : option string) (f : string) : option string :=
  match f with
  | EmptyString => cur
  | String _ _ => Some (default EmptyString cur +:+ f)
  end.

(** A text is [trimmed] when it is empty, or neither its first nor its
    last rune is white space. *)
Definition trimmed (s : string) : Prop :=
  s = EmptyString
  \/ (unicode.IsSpace (fst (utf8.DecodeRuneInString s)) = false
      /\ unicode.IsSpace (fst (utf8.DecodeLastRuneInString s)) = false).

End strings.

(** ** [golang.org/x/net/html]: the node tree *)

Module html.

Inductive NodeType :=
| ErrorNode | TextNode | DocumentNode | ElementNode
| CommentNode | DoctypeNode | RawNode.

Definition NodeType_eqb (a b : NodeType) : bool :=
  match a, b with
  | ErrorNode, ErrorNode | TextNode, TextNode | DocumentNode, DocumentNode
  | ElementNode, ElementNode | CommentNode, CommentNode
  | DoctypeNode, DoctypeNode | RawNode, RawNode => true
  | _, _ => false
  end.

Record Attribute := mkAttr { AttrNamespace : string; Key : string; Val : string }.

(** [html.Node], as the tree below it: the [FirstChild]/[NextSibling]
    chain is the list of children. *)
Inductive Node :=
  mkNode (Type_ : NodeType) (DataAtom : N) (Data : string)
         (Namespace : string) (Attr : list Attribute) (Children : list Node).

Definition Type_ (n : Node) := let 'mkNode t _ _ _ _ _ := n in t.
Definition DataAtom (n : Node) := let 'mkNode _ a _ _ _ _ := n in a.
Definition Data (n : Node) := let 'mkNode _ _ d _ _ _ := n in d.
Definition Namespace (n : Node) := let 'mkNode _ _ _ ns _ _ := n in ns.
Definition Attr (n : Node) := let 'mkNode _ _ _ _ a _ := n in a.
Definition Children (n : Node) := let 'mkNode _ _ _ _ _ c := n in c.

Definition text (d : string) : Node := mkNode TextNode 0 d "" [] [].
Definition elem (tag : string) (attr : list Attribute) (c : list Node) : Node :=
  mkNode ElementNode 0 tag "" attr c.

(** The nodes found below the root of a tree that the HTML parser and the
    DOM operations build: elements, comments, doctypes, and text nodes, which
    have no children. *)
Definition childBuilt (c : Node) : bool :=
  match Type_ c with
  | TextNode => match Children c with [] => true | _ :: _ => false end
  | ElementNode | CommentNode | DoctypeNode => true
  | _ => false
  end.

(** A root of such a tree: not a text node, with such children. *)
Definition built (n : Node) : bool :=
  negb (NodeType_eqb (Type_ n) TextNode) && forallb childBuilt (Children n).

(** *** A model of [html.Render]

    The serializer is outside the repository; [ParseDocument] below takes
    it as a parameter.  This model follows [render1] of
    [golang.org/x/net/html] and is what the concrete scenarios run. *)

Inductive status := Ok | Abort | Err.

Definition escapeChar (c : ascii) : string :=
  match N_of_ascii c with
  | 38%N => "&amp;"
  | 39%N => "&#39;"
  | 60%N => "&lt;"
  | 62%N => "&gt;"
  | 34%N => "&#34;"
  | 13%N => "&#13;"
  | _ => String c EmptyString
  end.

Fixpoint escape (s : string) : string :=
  match s with
  | EmptyString => EmptyString
  | String c s' => escapeChar c +:+ escape s'
  end.

Definition voidElements : list string :=
  ["area"; "base"; "br"; "col"; "embed"; "hr"; "img"; "input"; "keygen";
   "link"; "meta"; "param"; "source"; "track"; "wbr"].

Definition rawTextElements : list string :=
  ["iframe"; "noembed"; "noframes"; "noscript"; "plaintext"; "script";
   "style"; "xmp"].

Definition mem (x : string) (l : list string) : bool :=
  existsb (String.eqb x) l.

Definition renderAttr (a : Attribute) : string :=
  " " +:+ (if String.eqb (AttrNamespace a) "" then "" else AttrNamespace a +:+ ":")
      +:+ Key a +:+ "=" +:+ bytes.dquote +:+ escape (Val a) +:+ bytes.dquote.

Definition hasNewlinePrefix (l : list Node) : bool :=
  match l with
  | mkNode TextNode _ (String c _) _ _ _ :: _ => (N_of_ascii c =? 10)%N
  | _ => false
  end.

Fixpoint render1 (n : Node) : string * status :=
  let 'mkNode ty _ data ns attr ch := n in
  let renderChildren :=
    fix go (literal : bool) (l : list Node) : string * status :=
      match l with
      | [] => (EmptyString, Ok)
      | c :: l' =>
        let '(o, st) :=
          if literal && NodeType_eqb (Type_ c) TextNode then (Data c, Ok)
          else render1 c in
        match st with
        | Ok => let '(o', st') := go literal l' in (o +:+ o', st')
        | _ => (o, st)
        end
      end in
  match ty with
  | ErrorNode => (EmptyString, Err)
  | TextNode => (escape data, Ok)
  | DocumentNode => renderChildren false ch
  | CommentNode => ("<!--" +:+ data +:+ "-->", Ok)
  | DoctypeNode => ("<!DOCTYPE " +:+ data +:+ ">", Ok)
  | RawNode => (data, Ok)
  | ElementNode =>
    let open := "<" +:+ data +:+ String.concat "" (map renderAttr attr) in
    if mem data voidElements then
      match ch with
      | [] => (open +:+ "/>", Ok)
      | _ :: _ => (open, Err)
      end
    else
      let open :=
        open +:+ ">" +:+
        (if hasNewlinePrefix ch && mem data ["pre"; "listing"; "textarea"]
         then bytes.nl else EmptyString) in
      let literal := String.eqb ns "" && mem data rawTextElements in
      let '(body, st) := renderChildren literal ch in
      match st with
      | Ok =>
        if literal && String.eqb data "plaintext" then (open +:+ body, Abort)
        else (open +:+ body +:+ "</" +:+ data +:+ ">", Ok)
      | _ => (open +:+ body, st)
      end
  end.

(** [html.Render]: [None] is a rendering error; the [plaintext] abort is
    not an error. *)
Definition Render (n : Node) : option string :=
  match render1 n with
  | (o, Err) => None
  | (o, _) => Some o
  end.

End html.

(** ** [github.com/go-shiori/dom] *)

Module dom.
Import html.

(** The recursive [finder] of [GetElementsByTagName]. *)
Fixpoint finder (tagName : string) (node : Node) : list Node :=
  let 'mkNode ty _ data _ _ ch := node in
  (if NodeType_eqb ty ElementNode
      && (String.eqb tagName "*" || String.eqb data tagName)
   then [node] else [])
    ++ flat_map (finder tagName) ch.

(** [dom.GetElementsByTagName]: the descendants of [doc] (not [doc]
    itself) that are elements named [tagName], in document order; ["*"]
    matches every element. *)
Definition GetElementsByTagName (doc : Node) (tagName : string) : list Node :=
  flat_map (finder tagName) (Children doc).

(** [dom.TextContent]: the data of the text nodes of the subtree, in
    document order. *)
Fixpoint TextContent (n : Node) : string :=
  let 'mkNode ty _ data _ _ ch := n in
  (if NodeType_eqb ty TextNode then data else EmptyString)
    +:+ String.concat "" (map TextContent ch).

(** [dom.FirstElementChild], as the index of the child; [None] is nil. *)
Fixpoint firstElement (l : list Node) (i : nat) : option nat :=
  match l with
  | [] => None
  | c :: l' =>
    if NodeType_eqb (Type_ c) ElementNode then Some i
    else firstElement l' (S i)
  end.

Definition FirstElementChild (n : Node) : option nat :=
  firstElement (Children n) 0.

(** The loop of [dom.InnerHTML]: the children rendered into one buffer;
    [None] when a child fails to render. *)
Fixpoint renderAll (Render : Node -> option string) (l : list Node)
  : option string :=
  match l with
  | [] => Some EmptyString
  | c :: l' =>
    match Render c with
    | None => None
    | Some o =>
      match renderAll Render l' with
      | None => None
      | Some o' => Some (o +:+ o')
      end
    end
  end.

(** [dom.InnerHTML]: the trimmed markup of the children; the empty string
    when rendering fails. *)
Definition InnerHTML (Render : Node -> option string) (n : Node) : string :=
  match renderAll Render (Children n) with
  | None => EmptyString
  | Some buffer => strings.TrimSpace buffer
  end.

(** What is assumed of a serializer: a text node is rendered as its escaped
    data; what an element, a comment or a doctype is rendered as starts with
    the character [<]. *)
Definition rendersMarkup (Render : Node -> option string) : Prop :=
  forall n o,
    Render n = Some o ->
    match Type_ n with
    | TextNode => o = escape (Data n)
    | ElementNode | CommentNode | DoctypeNode =>
      exists o', o = String "<"%char o'
    | _ => True
    end.

(** The tree [dom.Clone(src, true)] builds: type, atom, data and
    attributes are copied, the children cloned; [Namespace] is left at its
    zero value. *)
Fixpoint cloneTree (src : Node) : Node :=
  let 'mkNode ty atom data _ attr ch := src in
  mkNode ty atom data EmptyString attr (map cloneTree ch).

End dom.

(** ** [time]: the predefined layouts *)

Module time.
Definition RFC822 : string := "02 Jan 06 15:04 MST".
Definition RFC822Z : string := "02 Jan 06 15:04 -0700".
Definition RFC3339 : string := "2006-01-02T15:04:05Z07:00".
Definition UnixDate : string := "Mon Jan _2 15:04:05 MST 2006".
Definition RubyDate : string := "Mon Jan 02 15:04:05 -0700 2006".
Definition RFC850 : string := "Monday, 02-Jan-06 15:04:05 MST".
Definition RFC1123Z : string := "Mon, 02 Jan 2006 15:04:05 -0700".
Definition RFC1123 : string := "Mon, 02 Jan 2006 15:04:05 MST".
Definition ANSIC : string := "Mon Jan _2 15:04:05 2006".
End time.

(** ** Errors *)

(** A Go [error] built by [fmt.Errorf] or by a library: its message. *)
Inductive error := errorString (msg : string).

Definition Error (e : error) : string := let 'errorString m := e in m.

(** [fmt.Errorf("failed to parse input: %v", err)] *)
Definition Errorf_parse (err : error) : error :=
  errorString ("failed to parse input: " +:+ Error err).

(** [fmt.Errorf("documents too large: %d elements", numTags)] *)
Definition Errorf_tooLarge (numTags : Z) : error :=
  errorString ("documents too large: " +:+ pretty numTags +:+ " elements").

(** ** The parser *)

(** The address of a tree in the heap: a [*html.Node] that is the root of a
    document or of a detached container. *)
Abbreviation loc := nat (only parsing).

Record flags := mkFlags {
  stripUnlikelys : bool;
  useWeightClasses : bool;
  cleanConditionally : bool
}.

(** [m[k]] on a [map[string]string]: the zero value when [k] is absent. *)
Definition index (m : gmap string string) (k : string) : string :=
  default EmptyString (m !! k).

Section Readability.

(** Types declared outside this file: [time.Time], [net/url.URL],
    [io.Reader] and the parser's [parseAttempt]. *)
Context {Time URL Reader parseAttempt : Type}.

(** The fields of [Parser] this file reads or writes.  [doc] is nil
    ([None]) until the first call. *)
Record Parser := mkParser {
  MaxElemsToParse : Z;
  DisableJSONLD : bool;
  doc : option loc;
  documentURI : option URL;
  articleTitle : string;
  articleByline : string;
  articleDir : string;
  articleSiteName : string;
  attempts : list parseAttempt;
  flags_ : flags
}.

(** [Article.Node] points to a child of the container: the container's
    address and the child's index. *)
Record Article := mkArticle {
  Title : string;
  Byline : string;
  Node : option (loc * nat);
  Content : string;
  TextContent : string;
  Length : Z;
  Excerpt : string;
  SiteName : string;
  Image : string;
  Favicon : string;
  PublishedTime : option Time;
  ModifiedTime : option Time
}.

(** [Article{}] *)
Definition zeroArticle : Article :=
  mkArticle EmptyString EmptyString None EmptyString EmptyString 0
            EmptyString EmptyString EmptyString EmptyString None None.

(** What a call can read and write: the receiver [ps], the trees in
    memory, and standard output. *)
Record World := mkWorld {
  parser : Parser;
  heap : gmap nat html.Node;
  stdout : list string
}.

(** [ps.doc] *)
Definition ps_doc (w : World) : option loc := doc (parser w).

Definition with_parser (w : World) (p : Parser) : World :=
  mkWorld p (heap w) (stdout w).

Definition with_heap (w : World) (h : gmap nat html.Node) : World :=
  mkWorld (parser w) h (stdout w).

Definition print (w : World) (out : list string) : World :=
  mkWorld (parser w) (heap w) (stdout w ++ out).

(** The libraries the file calls and that are taken as given:
    [time.Parse(layout, value)] ([None] for a non-nil error),
    [URL.String], [dom.Parse] (which builds the tree in memory and
    returns its root, or an error) and [html.Render]. *)
Class Libraries := {
  time_Parse : string -> string -> option Time;
  URL_String : URL -> string;
  dom_Parse : Reader -> World -> (loc + error) * World;
  html_Render : html.Node -> option string
}.

(** The methods and functions of the package that are defined in other
    files.  Each method may read and write the receiver and the heap. *)
Class Internals := {
  unwrapNoscriptImages : option loc -> World -> World;
  getJSONLD : World -> (gmap string string * option error) * World;
  removeScripts : option loc -> World -> World;
  prepDocument : World -> World;
  getArticleMetadata : gmap string string -> World -> gmap string string * World;
  grabArticle : World -> option loc * World;
  postProcessContent : loc -> World -> World;
  charCount : string -> Z
}.

Context {L : Libraries} {I : Internals}.

(** *** [getParsedDate] *)

Definition formats : list string :=
  [
    time.RFC822;
    time.RFC822Z;
    time.RFC3339;
    time.UnixDate;
    time.RubyDate;
    time.RFC850;
    time.RFC1123Z;
    time.RFC1123;
    time.ANSIC;
    "Mon, January 2 2006 15:04:05 -0700";
    "Mon, January 02, 2006, 15:04:05 MST";
    "Mon, January 02, 2006 15:04:05 MST";
    "Mon, Jan 2, 2006 15:04 MST";
    "Mon, Jan 2 2006 15:04 MST";
    "Mon, Jan 2, 2006 15:04:05 MST";
    "Mon, Jan 2 2006 15:04:05 -700";
    "Mon, Jan 2 2006 15:04:05 -0700";
    "Mon Jan 2 15:04 2006";
    "Mon Jan 2 15:04:05 2006 MST";
    "Mon Jan 02, 2006 3:04 pm";
    "Mon, Jan 02,2006 15:04:05 MST";
    "Mon Jan 02 2006 15:04:05 -0700";
    "Monday, January 2, 2006 15:04:05 MST";
    "Monday, January 2, 2006 03:04 PM";
    "Monday, January 2, 2006";
    "Monday, January 02, 2006";
    "Monday, 2 January 2006 15:04:05 MST";
    "Monday, 2 January 2006 15:04:05 -0700";
    "Monday, 2 Jan 2006 15:04:05 MST";
    "Monday, 2 Jan 2006 15:04:05 -0700";
    "Monday, 02 January 2006 15:04:05 MST";
    "Monday, 02 January 2006 15:04:05 -0700";
    "Monday, 02 January 2006 15:04:05";
    "Mon, 2 January 2006 15:04 MST";
    "Mon, 2 January 2006, 15:04 -0700";
    "Mon, 2 January 2006, 15:04:05 MST";
    "Mon, 2 January 2006 15:04:05 MST";
    "Mon, 2 January 2006 15:04:05 -0700";
    "Mon, 2 January 2006";
    "Mon, 2 Jan 2006 3:04:05 PM -0700";
    "Mon, 2 Jan 2006 15:4:5 MST";
    "Mon, 2 Jan 2006 15:4:5 -0700 GMT";
    "Mon, 2, Jan 2006 15:4";
    "Mon, 2 Jan 2006 15:04 MST";
    "Mon, 2 Jan 2006, 15:04 -0700";
    "Mon, 2 Jan 2006 15:04 -0700";
    "Mon, 2 Jan 2006 15:04:05 UT";
    "Mon, 2 Jan 2006 15:04:05MST";
    "Mon, 2 Jan 2006 15:04:05 MST";
    "Mon 2 Jan 2006 15:04:05 MST";
    "mon,2 Jan 2006 15:04:05 MST";
    "Mon, 2 Jan 2006 15:04:05 -0700 MST";
    "Mon, 2 Jan 2006 15:04:05-0700";
    "Mon, 2 Jan 2006 15:04:05 -0700";
    "Mon, 2 Jan 2006 15:04:05";
    "Mon, 2 Jan 2006 15:04";
    "Mon,2 Jan 2006";
    "Mon, 2 Jan 2006";
    "Mon, 2 Jan 15:04:05 MST";
    "Mon, 2 Jan 06 15:04:05 MST";
    "Mon, 2 Jan 06 15:04:05 -0700";
    "Mon, 2006-01-02 15:04";
    "Mon,02 January 2006 14:04:05 MST";
    "Mon, 02 January 2006";
    "Mon, 02 Jan 2006 3:04:05 PM MST";
    "Mon, 02 Jan 2006 15 -0700";
    "Mon,02 Jan 2006 15:04 MST";
    "Mon, 02 Jan 2006 15:04 MST";
    "Mon, 02 Jan 2006 15:04 -0700";
    "Mon, 02 Jan 2006 15:04:05 Z";
    "Mon, 02 Jan 2006 15:04:05 UT";
    "Mon, 02 Jan 2006 15:04:05 MST-07:00";
    "Mon, 02 Jan 2006 15:04:05 MST -0700";
    "Mon, 02 Jan 2006, 15:04:05 MST";
    "Mon, 02 Jan 2006 15:04:05MST";
    "Mon, 02 Jan 2006 15:04:05 MST";
    "Mon , 02 Jan 2006 15:04:05 MST";
    "Mon, 02 Jan 2006 15:04:05 GMT-0700";
    "Mon,02 Jan 2006 15:04:05 -0700";
    "Mon, 02 Jan 2006 15:04:05 -0700";
    "Mon, 02 Jan 2006 15:04:05 -07:00";
    "Mon, 02 Jan 2006 15:04:05 --0700";
    "Mon 02 Jan 2006 15:04:05 -0700";
    "Mon, 02 Jan 2006 15:04:05 -07";
    "Mon, 02 Jan 2006 15:04:05 00";
    "Mon, 02 Jan 2006 15:04:05";
    "Mon, 02 Jan 2006";
    "Mon, 02 Jan 06 15:04:05 MST";
    "January 2, 2006 3:04 PM";
    "January 2, 2006, 3:04 p.m.";
    "January 2, 2006 15:04:05 MST";
    "January 2, 2006 15:04:05";
    "January 2, 2006 03:04 PM";
    "January 2, 2006";
    "January 02, 2006 15:04:05 MST";
    "January 02, 2006 15:04";
    "January 02, 2006 03:04 PM";
    "January 02, 2006";
    "Jan 2, 2006 3:04:05 PM MST";
    "Jan 2, 2006 3:04:05 PM";
    "Jan 2, 2006 15:04:05 MST";
    "Jan 2, 2006";
    "Jan 02 2006 03:04:05PM";
    "Jan 02, 2006";
    "6/1/2 15:04";
    "6-1-2 15:04";
    "2 January 2006 15:04:05 MST";
    "2 January 2006 15:04:05 -0700";
    "2 January 2006";
    "2 Jan 2006 15:04:05 Z";
    "2 Jan 2006 15:04:05 MST";
    "2 Jan 2006 15:04:05 -0700";
    "2 Jan 2006";
    "2.1.2006 15:04:05";
    "2/1/2006";
    "2-1-2006";
    "2006 January 02";
    "2006-1-2T15:04:05Z";
    "2006-1-2 15:04:05";
    "2006-1-2";
    "2006-1-02T15:04:05Z";
    "2006-01-02T15:04Z";
    "2006-01-02T15:04-07:00";
    "2006-01-02T15:04:05Z";
    "2006-01-02T15:04:05-07:00:00";
    "2006-01-02T15:04:05:-0700";
    "2006-01-02T15:04:05-0700";
    "2006-01-02T15:04:05-07:00";
    "2006-01-02T15:04:05 -0700";
    "2006-01-02T15:04:05:00";
    "2006-01-02T15:04:05";
    "2006-01-02 at 15:04:05";
    "2006-01-02 15:04:05Z";
    "2006-01-02 15:04:05 MST";
    "2006-01-02 15:04:05-0700";
    "2006-01-02 15:04:05-07:00";
    "2006-01-02 15:04:05 -0700";
    "2006-01-02 15:04";
    "2006-01-02 00:00:00.0 15:04:05.0 -0700";
    "2006/01/02";
    "2006-01-02";
    "15:04 02.01.2006 -0700";
    "1/2/2006 3:04:05 PM MST";
    "1/2/2006 3:04:05 PM";
    "1/2/2006 15:04:05 MST";
    "1/2/2006";
    "06/1/2 15:04";
    "06-1-2 15:04";
    "02 Monday, Jan 2006 15:04";
    "02 Jan 2006 15:04 MST";
    "02 Jan 2006 15:04:05 UT";
    "02 Jan 2006 15:04:05 MST";
    "02 Jan 2006 15:04:05 -0700";
    "02 Jan 2006 15:04:05";
    "02 Jan 2006";
    "02/01/2006 15:04 MST";
    "02-01-2006 15:04:05 MST";
    "02.01.2006 15:04:05";
    "02/01/2006 15:04:05";
    "02.01.2006 15:04";
    "02/01/2006 - 15:04";
    "02.01.2006 -0700";
    "02/01/2006";
    "02-01-2006";
    "01/02/2006 3:04 PM";
    "01/02/2006 15:04:05 MST";
    "01/02/2006 - 15:04";
    "01/02/2006";
    "01-02-2006"
  ].

(** The line [fmt.Printf] writes when no layout matched: the message, the
    date between double quotes, and a newline. *)
Definition failedToParse (dateStr : string) : string :=
  "Failed to parse date " +:+ bytes.dquote +:+ dateStr +:+ bytes.dquote
    +:+ bytes.nl.

(** The loop [for i, format := range formats] over the remaining layouts:
    the result and what was printed. *)
Fixpoint tryFormats (fs : list string) (dateStr : string)
  : option Time * list string :=
  match fs with
  | [] => (None, [])
  | format :: rest =>
    match time_Parse format dateStr with
    | Some parsedDate => (Some parsedDate, [])
    | None =>
      match rest with
      | [] => (None, [failedToParse dateStr])
      | _ :: _ => tryFormats rest dateStr
      end
    end
  end.

Definition getParsedDate (dateStr : string) : option Time * list string :=
  tryFormats formats dateStr.

(** *** [getDate] *)

Definition getDate (metadata : gmap string string) (fieldName : string)
  : option Time * list string :=
  match metadata !! fieldName with
  | Some dateStr =>
    if (0 <? String.length dateStr)%nat then getParsedDate dateStr
    else (None, [])
  | None => (None, [])
  end.

(** *** [ParseDocument] *)

(** [dom.Clone(doc, true)]: a copy of the tree at a fresh address.  [None]
    is the panic on a nil or dangling [doc]. *)
Definition dom_Clone (doc : loc) (w : World) : option (loc * World) :=
  src ← heap w !! doc;
  let c := fresh (dom (heap w)) in
  Some (c, with_heap w (<[c := dom.cloneTree src]> (heap w))).

(** The assignments under [// Reset parser data], with [ps.doc] set to the
    clone. *)
Definition resetParser (p : Parser) (c : loc) (pageURL : option URL) : Parser :=
  {| MaxElemsToParse := MaxElemsToParse p;
     DisableJSONLD := DisableJSONLD p;
     doc := Some c;
     articleTitle := EmptyString;
     articleByline := EmptyString;
     articleDir := EmptyString;
     articleSiteName := EmptyString;
     documentURI := pageURL;
     attempts := [];
     flags_ := {| stripUnlikelys := true;
                  useWeightClasses := true;
                  cleanConditionally := true |} |}.

Definition set_articleTitle (p : Parser) (t : string) : Parser :=
  {| MaxElemsToParse := MaxElemsToParse p;
     DisableJSONLD := DisableJSONLD p;
     doc := doc p;
     articleTitle := t;
     articleByline := articleByline p;
     articleDir := articleDir p;
     articleSiteName := articleSiteName p;
     documentURI := documentURI p;
     attempts := attempts p;
     flags_ := flags_ p |}.

(** [len(dom.GetElementsByTagName(ps.doc, "*"))] *)
Definition numTags (w : World) : option Z :=
  d ← ps_doc w;
  root ← heap w !! d;
  Some (Z.of_nat (length (dom.GetElementsByTagName root "*"))).

(** The result is the pair Go returns, and the world after the call;
    [None] is a panic (a nil or dangling pointer dereferenced). *)
Definition ParseDocument (doc : loc) (pageURL : option URL) (w : World)
  : option ((Article * option error) * World) :=
  (* Clone document to make sure the original kept untouched *)
  '(c, w) ← dom_Clone doc w;
  (* Reset parser data *)
  let w := with_parser w (resetParser (parser w) c pageURL) in
  (* Avoid parsing too large documents, as per configuration option *)
  n ← (if (0 <? MaxElemsToParse (parser w))%Z then numTags w else Some 0%Z);
  if (0 <? MaxElemsToParse (parser w))%Z && (MaxElemsToParse (parser w) <? n)%Z
  then Some ((zeroArticle, Some (Errorf_tooLarge n)), w)
  else
    (* Unwrap image from noscript *)
    let w := unwrapNoscriptImages (ps_doc w) w in
    (* Extract JSON-LD metadata before removing scripts *)
    let '(jsonLd, w) :=
      if DisableJSONLD (parser w) then (∅, w)
      else let '((m, _), w') := getJSONLD w in (m, w') in
    (* Remove script tags from the document. *)
    let w := removeScripts (ps_doc w) w in
    (* Prepares the HTML document *)
    let w := prepDocument w in
    (* Fetch metadata *)
    let '(metadata, w) := getArticleMetadata jsonLd w in
    let w := with_parser w (set_articleTitle (parser w) (index metadata "title")) in
    (* Try to grab article content *)
    let '(articleContent, w) := grabArticle w in
    '(metadata, readableNode, finalHTMLContent, finalTextContent, w) ←
      match articleContent with
      | Some ac =>
        let w := postProcessContent ac w in
        content ← heap w !! ac;
        (* If we haven't found an excerpt in the article's metadata,
           use the article's first paragraph as the excerpt. *)
        let metadata :=
          if String.eqb (index metadata "excerpt") "" then
            match dom.GetElementsByTagName content "p" with
            | p0 :: _ =>
              <["excerpt" := strings.TrimSpace (dom.TextContent p0)]> metadata
            | [] => metadata
            end
          else metadata in
        Some (metadata,
              (fun i => (ac, i)) <$> dom.FirstElementChild content,
              dom.InnerHTML html_Render content,
              strings.TrimSpace (dom.TextContent content),
              w)
      | None => Some (metadata, None, EmptyString, EmptyString, w)
      end;
    let finalByline :=
      if String.eqb (index metadata "byline") "" then articleByline (parser w)
      else index metadata "byline" in
    (* Excerpt is an supposed to be short and concise,
       so it shouldn't have any new line *)
    let excerpt := strings.TrimSpace (index metadata "excerpt") in
    let excerpt := strings.Join (strings.Fields excerpt) " " in
    (* go-readability special: metadata isn't always valid UTF-8 *)
    let replacementTitle :=
      match pageURL with
      | Some u => URL_String u
      | None => EmptyString
      end in
    let validTitle := strings.ToValidUTF8 (articleTitle (parser w)) replacementTitle in
    let validByline := strings.ToValidUTF8 finalByline "" in
    let validExcerpt := strings.ToValidUTF8 excerpt "" in
    let '(datePublished, out1) := getDate metadata "datePublished" in
    let '(dateModified, out2) := getDate metadata "dataModified" in
    Some (({| Title := validTitle;
              Byline := validByline;
              Node := readableNode;
              Content := finalHTMLContent;
              TextContent := finalTextContent;
              Length := charCount finalTextContent;
              Excerpt := validExcerpt;
              SiteName := index metadata "siteName";
              Image := index metadata "image";
              Favicon := index metadata "favicon";
              PublishedTime := datePublished;
              ModifiedTime := dateModified |}, None),
          print w (out1 ++ out2)).

(** *** [Parse] *)

Definition Parse (input : Reader) (pageURL : option URL) (w : World)
  : option ((Article * option error) * World) :=
  (* Parse input *)
  let '(r, w) := dom_Parse input w in
  match r with
  | inr err => Some ((zeroArticle, Some (Errorf_parse err)), w)
  | inl doc => ParseDocument doc pageURL w
  end.

(** *** The steps of [ParseDocument], named

    The statements below speak of values that are local to
    [ParseDocument]: the world after the reset, the metadata record, the
    container.  Each step is named here, and [ParseDocument_steps] shows
    that [ParseDocument] is their composition. *)

(** The clone and the reset. *)
Definition started (doc : loc) (pageURL : option URL) (w : World)
  : option World :=
  '(c, w1) ← dom_Clone doc w;
  Some (with_parser w1 (resetParser (parser w1) c pageURL)).

(** The size test: [Some n] when the document has [n] elements and that
    is over a positive [MaxElemsToParse]. *)
Definition overLimit (w0 : World) : option (option Z) :=
  n ← (if (0 <? MaxElemsToParse (parser w0))%Z then numTags w0 else Some 0%Z);
  Some (if (0 <? MaxElemsToParse (parser w0))%Z
           && (MaxElemsToParse (parser w0) <? n)%Z
        then Some n else None).

(** From [unwrapNoscriptImages] to [grabArticle]: the metadata record, the
    container found (or nil), and the world then. *)
Definition fetched (w : World) : gmap string string * option loc * World :=
  let w := unwrapNoscriptImages (ps_doc w) w in
  let '(jsonLd, w) :=
    if DisableJSONLD (parser w) then (∅, w)
    else let '((m, _), w') := getJSONLD w in (m, w') in
  let w := removeScripts (ps_doc w) w in
  let w := prepDocument w in
  let '(metadata, w) := getArticleMetadata jsonLd w in
  let w := with_parser w (set_articleTitle (parser w) (index metadata "title")) in
  let '(articleContent, w) := grabArticle w in
  (metadata, articleContent, w).

(** The container after [postProcessContent], read from memory. *)
Definition container (ac : loc) (w : World) : option (html.Node * World) :=
  let w := postProcessContent ac w in
  content ← heap w !! ac;
  Some (content, w).

(** The excerpt fallback. *)
Definition withExcerpt (metadata : gmap string string) (content : html.Node)
  : gmap string string :=
  if String.eqb (index metadata "excerpt") "" then
    match dom.GetElementsByTagName content "p" with
    | p0 :: _ => <["excerpt" := strings.TrimSpace (dom.TextContent p0)]> metadata
    | [] => metadata
    end
  else metadata.

(** [pageURL.String()], or the empty string for a nil [pageURL]. *)
Definition replacementTitle (pageURL : option URL) : string :=
  match pageURL with
  | Some u => URL_String u
  | None => EmptyString
  end.

Definition finalByline (metadata : gmap string string) (w : World) : string :=
  if String.eqb (index metadata "byline") "" then articleByline (parser w)
  else index metadata "byline".

Definition oneLine (excerpt : string) : string :=
  strings.Join (strings.Fields (strings.TrimSpace excerpt)) " ".

(** From [finalByline := ...] to the [return]. *)
Definition assembled (pageURL : option URL) (metadata : gmap string string)
           (readableNode : option (loc * nat))
           (finalHTMLContent finalTextContent : string) (w : World)
  : (Article * option error) * World :=
  (({| Title := strings.ToValidUTF8 (articleTitle (parser w)) (replacementTitle pageURL);
       Byline := strings.ToValidUTF8 (finalByline metadata w) "";
       Node := readableNode;
       Content := finalHTMLContent;
       TextContent := finalTextContent;
       Length := charCount finalTextContent;
       Excerpt := strings.ToValidUTF8 (oneLine (index metadata "excerpt")) "";
       SiteName := index metadata "siteName";
       Image := index metadata "image";
       Favicon := index metadata "favicon";
       PublishedTime := fst (getDate metadata "datePublished");
       ModifiedTime := fst (getDate metadata "dataModified") |}, None),
   print w (snd (getDate metadata "datePublished")
              ++ snd (getDate metadata "dataModified"))).

(** *** The helpers and memory *)

(** A step from [w] to [w'] is [confined] when it leaves [ps.doc] pointing
    where it did, frees nothing, and writes only to the tree of [ps.doc], to
    the tree [arg] it was handed, and to trees it creates. *)
Definition confined (arg : option loc) (w w' : World) : Prop :=
  ps_doc w' = ps_doc w
  ∧ dom (heap w) ⊆ dom (heap w')
  ∧ ∀ l, l ∈ dom (heap w) → Some l ≠ ps_doc w → Some l ≠ arg →
         heap w' !! l = heap w !! l.

(** The world [x] still holds the trees of [h] as they were, and works on
    the document at [c]. *)
Definition keeps (h : gmap nat html.Node) (c : loc) (x : World) : Prop :=
  ps_doc x = Some c ∧ ∀ l, l ∈ dom h → heap x !! l = h !! l.

(** Modelled from the spec: the effect on memory of the helpers, which are
    defined in other files.  The design has them work on the private copy of
    the tree, in place, and never touch the caller's document: each of them
    is confined. *)
Class WellBehaved : Prop := {
  unwrapNoscriptImages_confined d w :
    confined d w (unwrapNoscriptImages d w);
  getJSONLD_confined w :
    confined None w (snd (getJSONLD w));
  removeScripts_confined d w :
    confined d w (removeScripts d w);
  prepDocument_confined w :
    confined None w (prepDocument w);
  getArticleMetadata_confined j w :
    confined None w (snd (getArticleMetadata j w));
  grabArticle_confined w :
    confined None w (snd (grabArticle w));
  postProcessContent_confined ac w :
    confined (Some ac) w (postProcessContent ac w);
  (** the container [grabArticle] returns is live, and is either a tree it
      created or the working document *)
  grabArticle_container w ac :
    fst (grabArticle w) = Some ac →
    ac ∈ dom (heap (snd (grabArticle w)))
    ∧ (ac ∈ dom (heap w) → ps_doc w = Some ac)
}.

(** The same helpers, except that the first one called,
    [unwrapNoscriptImages], ignores the world it is given and runs in
    [w0]. *)
Definition firstStepIn (w0 : World) : Internals :=
  {| unwrapNoscriptImages := fun d _ => unwrapNoscriptImages d w0;
     getJSONLD := getJSONLD;
     removeScripts := removeScripts;
     prepDocument := prepDocument;
     getArticleMetadata := getArticleMetadata;
     grabArticle := grabArticle;
     postProcessContent := postProcessContent;
     charCount := charCount |}.

(** The same helpers, with [g] in the place of [getJSONLD]. *)
Definition withJSONLD
           (g : World -> (gmap string string * option error) * World)
  : Internals :=
  {| unwrapNoscriptImages := unwrapNoscriptImages;
     getJSONLD := g;
     removeScripts := removeScripts;
     prepDocument := prepDocument;
     getArticleMetadata := getArticleMetadata;
     grabArticle := grabArticle;
     postProcessContent := postProcessContent;
     charCount := charCount |}.

End Readability.

Arguments Libraries : clear implicits.
Arguments Internals : clear implicits.

(** ** A concrete setting

    Stand-ins for the libraries and helpers, small enough to run: they are
    what the examples at the end of the file evaluate [ParseDocument] in. *)

Module Scenario.

(** A calendar date stands for [time.Time]. *)
Record Date := mkDate { year : Z; month : Z; day : Z }.

Definition digit (c : ascii) : option Z :=
  let n := Z.of_N (N_of_ascii c) in
  if (48 <=? n)%Z && (n <=? 57)%Z then Some (n - 48)%Z else None.

Fixpoint number (acc : Z) (s : string) : option Z :=
  match s with
  | EmptyString => Some acc
  | String c s' => d ← digit c; number (10 * acc + d)%Z s'
  end.

(** The stand-in for [time.Parse]: it knows the layout [2006-01-02] only,
    and accepts four digits, a dash, two digits, a dash, two digits. *)
Definition parseDate (layout value : string) : option Date :=
  if String.eqb layout "2006-01-02"
     && (String.length value =? 10)%nat
     && String.eqb (bytes.take 1 (bytes.drop 4 value)) "-"
     && String.eqb (bytes.take 1 (bytes.drop 7 value)) "-"
  then
    y ← number 0 (bytes.take 4 value);
    m ← number 0 (bytes.take 2 (bytes.drop 5 value));
    d ← number 0 (bytes.take 2 (bytes.drop 8 value));
    if (1 <=? m)%Z && (m <=? 12)%Z && (1 <=? d)%Z && (d <=? 31)%Z
    then Some (mkDate y m d) else None
  else None.

(** A reader is given by what its content parses to, or by the error
    reading it raises; a URL by its text. *)
Definition Reader : Type := html.Node + error.
Definition URL : Type := string.

Abbreviation World := (@World URL unit).

Definition parseInput (r : Reader) (w : World) : (loc + error) * World :=
  match r with
  | inl tree =>
    let l := fresh (dom (heap w)) in
    (inl l, with_heap w (<[l := tree]> (heap w)))
  | inr e => (inr e, w)
  end.

#[export] Instance libraries : Libraries Date URL Reader unit :=
  {| time_Parse := parseDate;
     URL_String := fun u => u;
     dom_Parse := parseInput;
     html_Render := html.Render |}.

Definition isScript (c : html.Node) : bool :=
  html.NodeType_eqb (html.Type_ c) html.ElementNode
  && String.eqb (html.Data c) "script".

(** [script] elements removed, at every depth. *)
Fixpoint dropScripts (n : html.Node) : html.Node :=
  let 'html.mkNode ty atom data ns attr ch := n in
  html.mkNode ty atom data ns attr
    ((fix go (l : list html.Node) : list html.Node :=
        match l with
        | [] => []
        | c :: l' => if isScript c then go l' else dropScripts c :: go l'
        end) ch).

Definition scriptsRemoved (d : option loc) (w : World) : World :=
  match d with
  | Some l => with_heap w (alter dropScripts l (heap w))
  | None => w
  end.

(** The stand-in for [grabArticle]: the children of the working document
    are moved into a new [div]; nil when there are none. *)
Definition childrenMoved (w : World) : option loc * World :=
  match ps_doc w with
  | Some d =>
    match heap w !! d with
    | Some (html.mkNode ty atom data ns attr (c :: ch)) =>
      let l := fresh (dom (heap w)) in
      (Some l,
       with_heap w (<[l := html.elem "div" [] (c :: ch)]>
                      (<[d := html.mkNode ty atom data ns attr []]> (heap w))))
    | _ => (None, w)
    end
  | None => (None, w)
  end.

(** The helpers: the metadata record is [md] whatever the page. *)
Definition internals (md : gmap string string) : Internals URL unit :=
  {| unwrapNoscriptImages := fun _ w => w;
     getJSONLD := fun w => ((∅, None), w);
     removeScripts := scriptsRemoved;
     prepDocument := fun w => w;
     getArticleMetadata := fun _ w => (md, w);
     grabArticle := childrenMoved;
     postProcessContent := fun _ w => w;
     charCount := utf8.RuneCountInString |}.

(** A parser with the given limit, whose flags an earlier call has relaxed,
    in a world that holds the caller's document at address 0. *)
Definition newParser (maxElems : Z) : @Parser URL unit :=
  mkParser maxElems false None None "" "" "" "" []
           (mkFlags false false false).

Definition world (maxElems : Z) (page : html.Node) : World :=
  mkWorld (newParser maxElems) {[ 0%nat := page ]} [].

Definition p (t : string) : html.Node := html.elem "p" [] [html.text t].

(** A text with runs of white space and a line break. *)
Definition hello : string :=
  "  Hello,   brave" +:+ bytes.nl +:+ " new world. ".

(** A page with a script, a paragraph and an image. *)
Definition page1 : html.Node :=
  html.mkNode html.DocumentNode 0 "" "" []
    [html.elem "script" [] [html.text "var x;"];
     p hello;
     html.elem "img" [html.mkAttr "" "src" "a.png"] []].

(** A page whose only content is an image. *)
Definition page2 : html.Node :=
  html.mkNode html.DocumentNode 0 "" "" []
    [html.elem "img" [html.mkAttr "" "src" "a.png"] []].

(** A page without content. *)
Definition page3 : html.Node :=
  html.mkNode html.DocumentNode 0 "" "" [] [].

(** A page that holds white space only. *)
Definition page4 : html.Node :=
  html.mkNode html.DocumentNode 0 "" "" []
    [html.text ("  " +:+ bytes.nl +:+ " ")].

Definition noMetadata : gmap string string := ∅.

(** A metadata record under the canonical field names. *)
Definition dated : gmap string string :=
  {[ "title" := "A title";
     "datePublished" := "2021-03-04";
     "dateModified" := "2021-03-05" ]}.

(** A metadata record whose texts are not valid UTF-8. *)
Definition garbled : gmap string string :=
  {[ "title" := bytes.of_list [0x41; 0xFF; 0xFE; 0x42]%N;
     "byline" := bytes.of_list [0xC3; 0x28]%N;
     "excerpt" := bytes.of_list [0x61; 0xE2; 0x82; 0x20; 0x62]%N ]}.

(** A reader that fails. *)
Definition broken : Reader := inr (errorString "unexpected EOF").

(** A call on the document at address 0, and what it returns. *)
Definition Result : Type := option ((@Article Date * option error) * World).

Definition run (md : gmap string string) (pageURL : option URL)
           (maxElems : Z) (page : html.Node) : Result :=
  ParseDocument (I := internals md) 0%nat pageURL (world maxElems page).

Definition article (r : Result) : Article :=
  match r with
  | Some ((a, _), _) => a
  | None => zeroArticle
  end.

Definition after (r : Result) : World :=
  match r with
  | Some (_, w') => w'
  | None => world 0 page3
  end.

(** A parser that an earlier call has used: it points to that call's
    document and holds what was found there. *)
Definition usedParser (maxElems : Z) : @Parser URL unit :=
  mkParser maxElems false (Some 7%nat) (Some "http://old/") "Old title"
           "Old byline" "rtl" "Old site" [tt] (mkFlags false true false).

(** A parser that is set not to read JSON-LD. *)
Definition plainParser : @Parser URL unit :=
  mkParser 0 true None None "" "" "" "" [] (mkFlags false false false).

(** A metadata record that describes the page. *)
Definition described : gmap string string :=
  {[ "byline" := "A. Writer";
     "siteName" := "The Site";
     "image" := "http://x/i.png";
     "excerpt" := "A  short" +:+ bytes.nl +:+ "summary ";
     "datePublished" := "2021-03-04" ]}.

(** A metadata record whose excerpt is white space. *)
Definition blank : gmap string string :=
  {[ "excerpt" := "  " +:+ bytes.nl ]}.

(** A metadata record whose date no layout accepts. *)
Definition undatable : gmap string string :=
  {[ "datePublished" := "yesterday" ]}.

(** A word with a letter of two bytes, and a metadata record whose excerpt
    is three words separated by single spaces. *)
Definition cafe : string := "Caf" +:+ bytes.of_list [0xC3; 0xA9]%N.

Definition tidy : gmap string string :=
  {[ "excerpt" := cafe +:+ " au lait" ]}.

(** A page whose paragraph comes after a text and a comment. *)
Definition page5 : html.Node :=
  html.mkNode html.DocumentNode 0 "" "" []
    [html.text "intro ";
     html.mkNode html.CommentNode 0 "note" "" [] [];
     p "body"].

End Scenario.

(** * Facts *)

(** ** Byte strings *)

Section bytes_facts.
Import bytes.

Lemma app_cons c s t : String c s +:+ t = String c (s +:+ t).
Proof. reflexivity. Qed.

Lemma app_nil_l t : "" +:+ t = t.
Proof. reflexivity. Qed.

Lemma app_nil_r s : s +:+ "" = s.
Proof. induction s as [|c s IH]; [done|]. by rewrite app_cons, IH. Qed.

Lemma app_assoc' s t u : (s +:+ t) +:+ u = s +:+ (t +:+ u).
Proof. induction s as [|c s IH]; [done|]. by rewrite !app_cons, IH. Qed.

Lemma take_drop n s : take n s +:+ drop n s = s.
Proof.
  revert s. induction n as [|n IH]; intros [|c s]; cbn; try done.
  by rewrite app_cons, IH.
Qed.

Lemma drop_length n s : String.length (drop n s) = (String.length s - n)%nat.
Proof. revert s. induction n as [|n IH]; intros [|c s]; cbn; auto with lia. Qed.

Lemma take_length n s : (n ≤ String.length s)%nat → String.length (take n s) = n.
Proof.
  revert s. induction n as [|n IH]; intros [|c s]; cbn; intros; rewrite ?IH; lia.
Qed.

Lemma drop_app n s t :
  (n ≤ String.length s)%nat → drop n (s +:+ t) = drop n s +:+ t.
Proof.
  revert s. induction n as [|n IH]; intros [|c s]; cbn; try done; try lia.
  intros. rewrite app_cons. cbn. apply IH. lia.
Qed.

Lemma take_add n m s : take (n + m) s = take n s +:+ take m (drop n s).
Proof.
  revert s. induction n as [|n IH]; intros [|c s]; cbn; try done.
  - by destruct m.
  - by rewrite app_cons, IH.
Qed.

Lemma take_all s : take (String.length s) s = s.
Proof. induction s as [|c s IH]; cbn; by rewrite ?IH. Qed.

Lemma drop_all s : drop (String.length s) s = "".
Proof. induction s as [|c s IH]; cbn; by rewrite ?IH. Qed.

Lemma drop_take n s : drop n (take n s) = "".
Proof. revert s. induction n as [|n IH]; intros [|c s]; cbn; auto. Qed.

Lemma take_nonempty n s : (0 < n)%nat → s ≠ "" → take n s ≠ "".
Proof. destruct n, s; cbn; (done || lia). Qed.

Lemma length_zero s : String.length s = 0%nat ↔ s = "".
Proof. destruct s; cbn; split; (done || lia). Qed.

End bytes_facts.

(** ** The decoder *)

(** One step of the case analysis of [decodeBody]. *)
Ltac decode_step :=
  first
    [ done
    | progress (cbn -[N.ltb])
    | progress (rewrite ?app_cons, ?app_nil_l)
    | match goal with
      | H : ?b = false |- context [?b] => rewrite H
      | |- context [if ?b || ?c then _ else _] => destruct (b || c) eqn:?
      | |- context [match ?t with EmptyString => _ | String _ _ => _ end] =>
        is_var t; destruct t
      | |- context [if ?b then _ else _] => destruct b eqn:?
      end ].

Section utf8_facts.
Import utf8.
Local Open Scope N_scope.

Lemma first_cases b :
  first b ∈ [as_; xx; s1; s2; s3; s4; s5; s6; s7].
Proof. unfold first. repeat case_match; set_solver. Qed.

Lemma first_as b : first b = as_ ↔ b < 0x80.
Proof.
  unfold first. split.
  - destruct (N.ltb_spec b 0x80); [done|]. repeat case_match; discriminate.
  - intros H. apply N.ltb_lt in H. by rewrite H.
Qed.

Lemma decode_cons c0 t0 :
  DecodeRuneInString (String c0 t0) =
  let x := first (N_of_ascii c0) in
  if as_ <=? x then ((if N.odd x then RuneError else N_of_ascii c0), 1%nat)
  else decodeBody (N.to_nat (N.land x 7)) (fst (acceptRanges (N.shiftr x 4)))
                  (snd (acceptRanges (N.shiftr x 4))) c0 t0.
Proof. reflexivity. Qed.

(** The three classes of first bytes: ASCII, never valid, and the start of
    a sequence of [sz] bytes. *)
Lemma decode_classes c0 :
  let b0 := N_of_ascii c0 in
  (b0 < 0x80 ∧ ∀ t0, DecodeRuneInString (String c0 t0) = (b0, 1%nat))
  ∨ (0x80 ≤ b0 ∧ ∀ t0, DecodeRuneInString (String c0 t0) = (RuneError, 1%nat))
  ∨ (0x80 ≤ b0 ∧ ∃ sz lo hi, (sz = 2 ∨ sz = 3 ∨ sz = 4)%nat ∧ 0x80 ≤ lo ∧
       ∀ t0, DecodeRuneInString (String c0 t0) = decodeBody sz lo hi c0 t0).
Proof.
  intros b0.
  assert (Hge : first b0 ≠ as_ → 0x80 ≤ b0).
  { intros Hne. destruct (N.lt_ge_cases b0 0x80) as [Hlt|]; [|done].
    by apply first_as in Hlt. }
  assert (Hmulti : ∀ x, first b0 = x → x ≠ as_ → (as_ <=? x) = false →
            (N.to_nat (N.land x 7) = 2 ∨ N.to_nat (N.land x 7) = 3
             ∨ N.to_nat (N.land x 7) = 4)%nat →
            0x80 ≤ fst (acceptRanges (N.shiftr x 4)) →
            0x80 ≤ b0 ∧ ∃ sz lo hi, (sz = 2 ∨ sz = 3 ∨ sz = 4)%nat ∧ 0x80 ≤ lo ∧
              ∀ t0, DecodeRuneInString (String c0 t0) = decodeBody sz lo hi c0 t0).
  { intros x Hx Hne Hle Hsz Hlo. split; [apply Hge; by rewrite Hx|].
    eexists _, _, _. split; [exact Hsz|]. split; [exact Hlo|].
    intros t0. rewrite decode_cons. fold b0. rewrite Hx. cbv zeta.
    rewrite Hle. reflexivity. }
  pose proof (first_cases b0) as Hf.
  repeat (apply elem_of_cons in Hf as [Hf|Hf]); [..|by apply elem_of_nil in Hf].
  - left. split; [by apply first_as|]. intros t0. rewrite decode_cons.
    fold b0. by rewrite Hf.
  - right; left. split; [apply Hge; by rewrite Hf|].
    intros t0. rewrite decode_cons. fold b0. by rewrite Hf.
  - right; right. apply (Hmulti _ Hf); [done|done| |done]. vm_compute. tauto.
  - right; right. apply (Hmulti _ Hf); [done|done| |done]. vm_compute. tauto.
  - right; right. apply (Hmulti _ Hf); [done|done| |done]. vm_compute. tauto.
  - right; right. apply (Hmulti _ Hf); [done|done| |done]. vm_compute. tauto.
  - right; right. apply (Hmulti _ Hf); [done|done| |done]. vm_compute. tauto.
  - right; right. apply (Hmulti _ Hf); [done|done| |done]. vm_compute. tauto.
  - right; right. apply (Hmulti _ Hf); [done|done| |done]. vm_compute. tauto.
Qed.

Lemma decodeBody_prefix sz lo hi c0 t0 t :
  (sz = 2 ∨ sz = 3 ∨ sz = 4)%nat →
  isError (decodeBody sz lo hi c0 t0) = false →
  decodeBody sz lo hi c0
    (bytes.drop 1 (bytes.take (snd (decodeBody sz lo hi c0 t0)) (String c0 t0) +:+ t))
  = decodeBody sz lo hi c0 t0.
Proof.
  unfold isError, decodeBody.
  intros [-> | [-> | ->]]; repeat decode_step.
Qed.

Lemma decodeBody_width sz lo hi c0 t0 :
  (sz = 2 ∨ sz = 3 ∨ sz = 4)%nat →
  (1 ≤ snd (decodeBody sz lo hi c0 t0) ≤ String.length (String c0 t0))%nat
  ∧ (isError (decodeBody sz lo hi c0 t0) = false →
     (2 ≤ snd (decodeBody sz lo hi c0 t0))%nat)
  ∧ (isError (decodeBody sz lo hi c0 t0) = true →
     decodeBody sz lo hi c0 t0 = (RuneError, 1%nat)).
Proof.
  unfold isError, decodeBody.
  intros [-> | [-> | ->]]; repeat (decode_step || (cbn; split_and?; (lia || done))).
Qed.

(** The width is at least 1 and at most the length. *)
Lemma decode_width s :
  s ≠ "" → (1 ≤ snd (DecodeRuneInString s) ≤ String.length s)%nat.
Proof.
  destruct s as [|c0 t0]; [done|intros _].
  destruct (decode_classes c0) as [[_ H]|[[_ H]|[_ (sz & lo & hi & Hsz & _ & H)]]];
    rewrite H; [cbn; lia..|].
  by apply decodeBody_width.
Qed.

(** An encoding error is [(RuneError, 1)]. *)
Lemma decode_error s :
  isError (DecodeRuneInString s) = true → DecodeRuneInString s = (RuneError, 1%nat).
Proof.
  destruct s as [|c0 t0]; [done|].
  destruct (decode_classes c0) as [[Hlt H]|[[_ H]|[_ (sz & lo & hi & Hsz & _ & H)]]];
    rewrite H; [|done|by apply decodeBody_width].
  unfold isError. cbn. intros Heq%N.eqb_eq. unfold RuneError in Heq. lia.
Qed.

(** A well-encoded rune is decoded from its own bytes: what follows them
    does not matter. *)
Lemma decode_prefix s t :
  s ≠ "" →
  isError (DecodeRuneInString s) = false →
  DecodeRuneInString (bytes.take (snd (DecodeRuneInString s)) s +:+ t)
  = DecodeRuneInString s.
Proof.
  destruct s as [|c0 t0]; [done|intros _].
  destruct (decode_classes c0) as [[_ H]|[[_ H]|[_ (sz & lo & hi & Hsz & _ & H)]]].
  - rewrite (H t0). cbn. by rewrite app_cons, H.
  - by rewrite (H t0).
  - rewrite (H t0). intros Herr.
    pose proof (decodeBody_width sz lo hi c0 t0 Hsz) as [[Hw _] _].
    destruct (snd (decodeBody sz lo hi c0 t0)) as [|w] eqn:Ew; [lia|].
    cbn [bytes.take]. rewrite app_cons, H.
    pose proof (decodeBody_prefix sz lo hi c0 t0 t Hsz Herr) as Hp.
    rewrite Ew in Hp. cbn [bytes.take] in Hp. rewrite app_cons in Hp.
    exact Hp.
Qed.

(** On a non-ASCII first byte, width 1 means an encoding error. *)
Lemma decode_width_1 c0 t0 :
  0x80 ≤ N_of_ascii c0 →
  isError (DecodeRuneInString (String c0 t0))
  = (snd (DecodeRuneInString (String c0 t0)) =? 1)%nat.
Proof.
  intros Hge.
  destruct (decode_classes c0) as [[Hlt H]|[[_ H]|[_ (sz & lo & hi & Hsz & _ & H)]]];
    rewrite H; [lia|done|].
  pose proof (decodeBody_width sz lo hi c0 t0 Hsz) as (_ & H2 & H1).
  destruct (isError _) eqn:E.
  - by rewrite (H1 eq_refl).
  - symmetry. apply Nat.eqb_neq. specialize (H2 eq_refl). lia.
Qed.

Lemma decode_ascii c0 t0 :
  N_of_ascii c0 < 0x80 →
  DecodeRuneInString (String c0 t0) = (N_of_ascii c0, 1%nat).
Proof.
  intros Hlt.
  destruct (decode_classes c0) as [[_ H]|[[? _]|[? _]]]; [done|lia..].
Qed.

End utf8_facts.

(** ** Valid strings *)

Section valid_facts.
Import utf8.

Lemma Valid_app a b : Valid a → Valid b → Valid (a +:+ b).
Proof.
  induction 1 as [|a Hne Herr _ IH]; intros Hb; [done|].
  pose proof (decode_width a Hne) as Hw.
  assert (Hd : DecodeRuneInString (a +:+ b) = DecodeRuneInString a).
  { rewrite <- (take_drop (snd (DecodeRuneInString a)) a) at 1.
    rewrite app_assoc'. by apply decode_prefix. }
  apply Valid_rune.
  - destruct a; [done|]. by rewrite app_cons.
  - by rewrite Hd.
  - rewrite Hd, drop_app by lia. by apply IH.
Qed.

(** The bytes of one well-encoded rune. *)
Lemma Valid_take_rune s :
  s ≠ "" → isError (DecodeRuneInString s) = false →
  Valid (bytes.take (snd (DecodeRuneInString s)) s).
Proof.
  intros Hne Herr.
  pose proof (decode_width s Hne) as Hw.
  pose proof (decode_prefix s "" Hne Herr) as Hd. rewrite app_nil_r in Hd.
  apply Valid_rune.
  - apply take_nonempty; [lia|done].
  - by rewrite Hd.
  - rewrite Hd, drop_take. constructor.
Qed.

Lemma Valid_ascii c s :
  (N_of_ascii c < 0x80)%N → Valid s → Valid (String c s).
Proof.
  intros Hlt Hs. apply Valid_rune; [done|..]; rewrite decode_ascii by done.
  - unfold isError. cbn. apply N.eqb_neq. unfold RuneError. lia.
  - done.
Qed.

(** [ValidString] decides [Valid]. *)
Lemma validFrom_Valid n s :
  (String.length s ≤ n)%nat → validFrom n s = true ↔ Valid s.
Proof.
  revert s. induction n as [|n IH]; intros s Hn.
  { destruct s; [|cbn in Hn; lia]. cbn. split; [constructor|done]. }
  destruct s as [|c t]; [cbn; split; [constructor|done]|].
  set (s := String c t) in *.
  assert (Hne : s ≠ "") by done.
  pose proof (decode_width s Hne) as Hw.
  change (validFrom (S n) s) with
    (let '(r, wid) := DecodeRuneInString s in
     if (wid =? 1)%nat && (r =? RuneError)%N then false
     else validFrom n (bytes.drop wid s)).
  destruct (DecodeRuneInString s) as [r wid] eqn:Ed. cbn [snd] in Hw.
  change ((wid =? 1)%nat && (r =? RuneError)%N) with (isError (r, wid)).
  assert (Hlen : (String.length (bytes.drop wid s) ≤ n)%nat).
  { rewrite drop_length. cbn in Hn |- *. lia. }
  split.
  - intros Hv. destruct (isError (r, wid)) eqn:Eerr; [done|].
    apply Valid_rune; [done|by rewrite Ed|]. rewrite Ed. by apply IH.
  - inversion 1 as [|? _ Herr Hrest]; subst.
    rewrite Ed in Herr, Hrest. rewrite Herr. by apply IH.
Qed.

Lemma ValidString_Valid s : ValidString s = true ↔ Valid s.
Proof. by apply validFrom_Valid. Qed.

End valid_facts.

(** ** [strings.ToValidUTF8] *)

Section ToValidUTF8_facts.
Import utf8 strings.

Lemma firstInvalid_test s :
  ((fst (DecodeRuneInString s) =? RuneError)%N
   && (snd (DecodeRuneInString s) =? 1)%nat)
  = isError (DecodeRuneInString s).
Proof. apply andb_comm. Qed.

(** What precedes the first invalid byte is valid. *)
Lemma firstInvalid_Some n s i j :
  firstInvalid n s i = Some j →
  ∃ k, j = (i + k)%nat ∧ (k ≤ String.length s)%nat ∧ Valid (bytes.take k s).
Proof.
  revert s i. induction n as [|n IH]; intros s i; [done|].
  destruct s as [|c t]; [done|]. set (s := String c t).
  assert (Hne : s ≠ "") by done.
  pose proof (decode_width s Hne) as Hw.
  pose proof (firstInvalid_test s) as Ht.
  change (firstInvalid (S n) s i) with
    (let '(r, wid) := DecodeRuneInString s in
     if (r =? RuneError)%N && (wid =? 1)%nat then Some i
     else firstInvalid n (bytes.drop wid s) (i + wid)).
  destruct (DecodeRuneInString s) as [r wid] eqn:Ed. cbn [fst snd] in *.
  rewrite Ht. destruct (isError (r, wid)) eqn:Eerr.
  - intros [= <-]. exists 0%nat. split_and!; [lia|lia|constructor].
  - intros (k & -> & Hk & Hv)%IH. rewrite drop_length in Hk.
    exists (wid + k)%nat. split_and!; [lia|lia|].
    rewrite take_add. apply Valid_app; [|done].
    rewrite <- Ed in Eerr. pose proof (Valid_take_rune s Hne Eerr) as Hr.
    by rewrite Ed in Hr.
Qed.

Lemma firstInvalid_None n s i :
  (String.length s ≤ n)%nat → firstInvalid n s i = None ↔ Valid s.
Proof.
  revert s i. induction n as [|n IH]; intros s i Hn.
  { destruct s; [|cbn in Hn; lia]. cbn. split; [constructor|done]. }
  destruct s as [|c t]; [cbn; split; [constructor|done]|].
  set (s := String c t) in *.
  assert (Hne : s ≠ "") by done.
  pose proof (decode_width s Hne) as Hw.
  pose proof (firstInvalid_test s) as Ht.
  change (firstInvalid (S n) s i) with
    (let '(r, wid) := DecodeRuneInString s in
     if (r =? RuneError)%N && (wid =? 1)%nat then Some i
     else firstInvalid n (bytes.drop wid s) (i + wid)).
  destruct (DecodeRuneInString s) as [r wid] eqn:Ed. cbn [fst snd] in *.
  rewrite Ht.
  assert (Hlen : (String.length (bytes.drop wid s) ≤ n)%nat).
  { rewrite drop_length. cbn in Hn |- *. lia. }
  split.
  - destruct (isError (r, wid)) eqn:Eerr; [done|]. intros Hv.
    apply Valid_rune; [done|by rewrite Ed|]. rewrite Ed. by eapply IH.
  - inversion 1 as [|? _ Herr Hrest]; subst.
    rewrite Ed in Herr, Hrest. rewrite Herr. by apply IH.
Qed.

Lemma validLoop_Valid n s replacement invalid :
  Valid replacement → Valid (validLoop n s replacement invalid).
Proof.
  intros Hr. revert s invalid. induction n as [|n IH]; intros s invalid;
    [constructor|].
  destruct s as [|c t]; [constructor|]. set (s := String c t).
  assert (Hne : s ≠ "") by done.
  change (validLoop (S n) s replacement invalid) with
    (if (N_of_ascii c <? RuneSelf)%N then
       String c (validLoop n t replacement false)
     else
       let wid := snd (DecodeRuneInString s) in
       if (wid =? 1)%nat then
         (if invalid then EmptyString else replacement)
           +:+ validLoop n t replacement true
       else
         bytes.take wid s +:+ validLoop n (bytes.drop wid s) replacement false).
  destruct (N.ltb_spec (N_of_ascii c) RuneSelf) as [Hlt|Hge].
  - apply Valid_ascii; [done|apply IH].
  - cbv zeta. pose proof (decode_width_1 c t Hge) as Hw1. fold s in Hw1.
    destruct (snd (DecodeRuneInString s) =? 1)%nat eqn:Ew.
    + apply Valid_app; [|apply IH]. destruct invalid; [constructor|done].
    + apply Valid_app; [|apply IH]. by apply Valid_take_rune.
Qed.

(** The result of [ToValidUTF8] is valid UTF-8 whenever the replacement
    is. *)
Lemma ToValidUTF8_Valid s replacement :
  Valid replacement → Valid (ToValidUTF8 s replacement).
Proof.
  intros Hr. unfold ToValidUTF8.
  destruct (firstInvalid _ s 0) as [i|] eqn:Ef.
  - apply firstInvalid_Some in Ef as (k & -> & _ & Hk).
    apply Valid_app; [done|]. by apply validLoop_Valid.
  - by apply firstInvalid_None in Ef.
Qed.

(** Valid text is returned as it is. *)
Lemma ToValidUTF8_id s replacement :
  Valid s → ToValidUTF8 s replacement = s.
Proof.
  intros Hv. unfold ToValidUTF8.
  by rewrite (proj2 (firstInvalid_None (String.length s) s 0 (Nat.le_refl _)) Hv).
Qed.

End ToValidUTF8_facts.

(** ** White space *)

Section space_facts.
Import utf8 strings.

Lemma IsSpace_not_error : unicode.IsSpace RuneError = false.
Proof. reflexivity. Qed.

Lemma IsSpace_valid s :
  unicode.IsSpace (fst (DecodeRuneInString s)) = true →
  s ≠ "" ∧ isError (DecodeRuneInString s) = false.
Proof.
  intros Hsp. split.
  - intros ->. done.
  - destruct (isError (DecodeRuneInString s)) eqn:E; [|done].
    apply decode_error in E. by rewrite E in Hsp.
Qed.

(** The last byte of a string. *)
Lemma last_byte s :
  s ≠ "" →
  ∃ c, bytes.drop (String.length s - 1) s = String c ""
       ∧ bytes.at_ s (String.length s - 1) = N_of_ascii c.
Proof.
  induction s as [|c s IH]; [done|intros _].
  destruct s as [|c' s'].
  - exists c. by cbn.
  - destruct IH as (d & Hd & Ha); [done|]. exists d.
    cbn [String.length] in *. replace (S (S (String.length s')) - 1)%nat
      with (S (S (String.length s') - 1)) by lia.
    split; [exact Hd|]. exact Ha.
Qed.

(** A white space that [DecodeLastRuneInString] finds is decoded from the
    bytes at the end of the string. *)
Lemma decodeLast_space s r size :
  DecodeLastRuneInString s = (r, size) →
  unicode.IsSpace r = true →
  (1 ≤ size ≤ String.length s)%nat
  ∧ DecodeRuneInString (bytes.drop (String.length s - size) s) = (r, size).
Proof.
  unfold DecodeLastRuneInString.
  destruct (String.length s =? 0)%nat eqn:El.
  { intros [= <- <-]. done. }
  apply Nat.eqb_neq in El.
  assert (Hne : s ≠ "") by (intros ->; done).
  destruct (last_byte s Hne) as (c & Hd & Ha). rewrite Ha.
  destruct (N.ltb_spec (N_of_ascii c) RuneSelf) as [Hlt|Hge].
  { intros [= <- <-] _. split; [lia|]. rewrite Hd. by apply decode_ascii. }
  set (start := Z.to_nat _).
  destruct (DecodeRuneInString (bytes.drop start s)) as [r' size'] eqn:Ed.
  destruct (start + size' =? String.length s)%nat eqn:Ee.
  - apply Nat.eqb_eq in Ee. intros [= <- <-] Hsp.
    replace (String.length s - size')%nat with start by lia.
    split; [|done].
    assert (Hsp' : unicode.IsSpace (fst (DecodeRuneInString (bytes.drop start s))) = true)
      by (by rewrite Ed).
    apply IsSpace_valid in Hsp' as [Hne' _].
    pose proof (decode_width _ Hne') as Hw. rewrite Ed in Hw. cbn in Hw. lia.
  - intros [= <- <-]. done.
Qed.

Lemma take_app_drop n m s :
  (n ≤ m)%nat → bytes.take m s = bytes.take n s +:+ bytes.take (m - n) (bytes.drop n s).
Proof.
  intros Hle. replace m with (n + (m - n))%nat at 1 by lia. apply take_add.
Qed.

(** The first rune of a string whose first rune is a white space is read
    from any longer string. *)
Lemma decode_space_app s t :
  unicode.IsSpace (fst (DecodeRuneInString s)) = true →
  DecodeRuneInString (s +:+ t) = DecodeRuneInString s.
Proof.
  intros Hsp. destruct (IsSpace_valid s Hsp) as [Hne Herr].
  rewrite <- (take_drop (snd (DecodeRuneInString s)) s) at 1.
  rewrite app_assoc'. by apply decode_prefix.
Qed.

(** When the backward scan finds white space only, the string starts with a
    white space. *)
Lemma lastIndexFunc_None n s :
  (String.length s ≤ n)%nat →
  s ≠ "" →
  lastIndexFunc n s unicode.IsSpace false = None →
  unicode.IsSpace (fst (DecodeRuneInString s)) = true.
Proof.
  revert s. induction n as [|n IH]; intros s Hn Hne.
  { destruct s; [done|cbn in Hn; lia]. }
  destruct s as [|c t]; [done|]. set (s := String c t) in *.
  change (lastIndexFunc (S n) s unicode.IsSpace false) with
    (let '(r, size) := DecodeLastRuneInString s in
     let i := (String.length s - size)%nat in
     if Bool.eqb (unicode.IsSpace r) false then Some i
     else lastIndexFunc n (bytes.take i s) unicode.IsSpace false).
  destruct (DecodeLastRuneInString s) as [r size] eqn:Ed. cbv zeta.
  destruct (unicode.IsSpace r) eqn:Hsp; [|done]. cbn [Bool.eqb].
  destruct (decodeLast_space s r size Ed Hsp) as [Hsize Hdec].
  remember (String.length s - size)%nat as k eqn:Hk.
  assert (Hks : (k < String.length s)%nat) by lia.
  intros Hrest.
  destruct (bytes.take k s) as [|c' t'] eqn:Et.
  - assert (k = 0%nat) as ->.
    { destruct k; [done|]. by cbn in Et. }
    cbn [bytes.drop] in Hdec. by rewrite Hdec.
  - rewrite <- Et in Hrest.
    assert (Hlen : (String.length (bytes.take k s) ≤ n)%nat).
    { rewrite take_length by lia. lia. }
    assert (Hne' : bytes.take k s ≠ "") by (by rewrite Et).
    specialize (IH _ Hlen Hne' Hrest).
    rewrite <- (take_drop k s). by rewrite decode_space_app.
Qed.

Lemma indexFunc_None n s i :
  (String.length s ≤ n)%nat →
  indexFunc n s unicode.IsSpace false i = None → strings.AllSpace s.
Proof.
  revert s i. induction n as [|n IH]; intros s i Hn.
  { destruct s; [constructor|cbn in Hn; lia]. }
  destruct s as [|c t]; [constructor|]. set (s := String c t) in *.
  assert (Hne : s ≠ "") by done.
  pose proof (decode_width s Hne) as Hw.
  change (indexFunc (S n) s unicode.IsSpace false i) with
    (let '(r, wid) := DecodeRuneInString s in
     if Bool.eqb (unicode.IsSpace r) false then Some i
     else indexFunc n (bytes.drop wid s) unicode.IsSpace false (i + wid)).
  destruct (DecodeRuneInString s) as [r wid] eqn:Ed. cbn [snd] in Hw.
  destruct (unicode.IsSpace r) eqn:Hsp; [|done]. cbn [Bool.eqb].
  intros Hrest. apply strings.AllSpace_rune; [done|by rewrite Ed|]. rewrite Ed.
  apply (IH _ (i + wid)%nat); [|done]. rewrite drop_length. cbn in Hn |- *. lia.
Qed.

Lemma indexFunc_Some n s i j :
  indexFunc n s unicode.IsSpace false i = Some j →
  ∃ k, j = (i + k)%nat
       ∧ bytes.drop k s ≠ ""
       ∧ unicode.IsSpace (fst (DecodeRuneInString (bytes.drop k s))) = false.
Proof.
  revert s i. induction n as [|n IH]; intros s i; [done|].
  destruct s as [|c t]; [done|]. set (s := String c t) in *.
  change (indexFunc (S n) s unicode.IsSpace false i) with
    (let '(r, wid) := DecodeRuneInString s in
     if Bool.eqb (unicode.IsSpace r) false then Some i
     else indexFunc n (bytes.drop wid s) unicode.IsSpace false (i + wid)).
  destruct (DecodeRuneInString s) as [r wid] eqn:Ed.
  destruct (unicode.IsSpace r) eqn:Hsp; cbn [Bool.eqb].
  - intros (k & -> & Hne & Hk)%IH. exists (wid + k)%nat. split; [lia|].
    assert (Hdd : bytes.drop (wid + k) s = bytes.drop k (bytes.drop wid s)).
    { clear. generalize s. induction wid as [|wid IHw]; intros [|c0 s0]; cbn; try done.
      by destruct k. }
    by rewrite Hdd.
  - intros [= <-]. exists 0%nat. split_and!; [lia|done|].
    change (bytes.drop 0 s) with s. by rewrite Ed.
Qed.

Lemma take_nonempty' n s : (1 ≤ n)%nat → s ≠ "" → bytes.take n s ≠ "".
Proof. intros. apply take_nonempty; [lia|done]. Qed.

(** [TrimSpace] gives the empty string on white space only. *)
Lemma TrimSpace_empty s : TrimSpace s = "" → strings.AllSpace s.
Proof.
  unfold TrimSpace, TrimFunc, TrimLeftFunc.
  destruct (indexFunc (String.length s) s unicode.IsSpace false 0) as [i|] eqn:Ei.
  - apply indexFunc_Some in Ei as (k & -> & Hne & Hns). cbn [Nat.add].
    set (rest := bytes.drop k s) in *. unfold TrimRightFunc.
    destruct (lastIndexFunc (String.length rest) rest unicode.IsSpace false)
      as [i|] eqn:El.
    + destruct (RuneSelf <=? bytes.at_ rest i)%N eqn:Ege.
      * intros Ht. exfalso.
        assert (Hlt : bytes.drop i rest ≠ "").
        { intros Hd. unfold bytes.at_ in Ege.
          destruct (get i rest) as [c|] eqn:Eg; [|done].
          clear -Hd Eg. revert i Hd Eg.
          induction rest as [|c' r IH]; intros [|i]; cbn; try done. apply IH. }
        pose proof (decode_width _ Hlt) as Hw.
        revert Ht. apply take_nonempty'; [lia|done].
      * intros Ht. exfalso. revert Ht. apply take_nonempty'; [lia|done].
    + intros _. exfalso.
      apply lastIndexFunc_None in El; [|done..]. congruence.
  - intros _. by apply indexFunc_None in Ei.
Qed.

Lemma spaceByte_ge c : (0x80 ≤ N_of_ascii c)%N → strings.spaceByte c = true.
Proof. intros H. unfold strings.spaceByte. apply N.leb_le in H. by rewrite H. Qed.

Lemma spaceBytes_app a b : strings.spaceBytes (a +:+ b) = strings.spaceBytes a && strings.spaceBytes b.
Proof.
  induction a as [|c a IH]; [done|]. rewrite app_cons. cbn [strings.spaceBytes].
  by rewrite IH, andb_assoc.
Qed.

(** The bytes of a multi-byte encoding are space bytes. *)
Lemma decodeBody_bytes sz lo hi c0 t0 :
  (sz = 2 ∨ sz = 3 ∨ sz = 4)%nat →
  (0x80 ≤ N_of_ascii c0)%N → (0x80 ≤ lo)%N →
  isError (decodeBody sz lo hi c0 t0) = false →
  strings.spaceBytes (bytes.take (snd (decodeBody sz lo hi c0 t0)) (String c0 t0)) = true.
Proof.
  unfold isError, decodeBody.
  intros [-> | [-> | ->]] Hc0 Hlo; repeat decode_step.
  all: repeat match goal with
              | H : (_ || _) = false |- _ =>
                apply orb_false_elim in H as [?%N.ltb_ge ?%N.ltb_ge]
              end.
  all: intros _; cbn [bytes.take strings.spaceBytes];
    rewrite !spaceByte_ge by (unfold locb, hicb in *; lia); done.
Qed.

Lemma IsSpace_ascii c :
  (N_of_ascii c < 0x80)%N → unicode.IsSpace (N_of_ascii c) = true →
  strings.spaceByte c = true.
Proof.
  intros Hlt. unfold unicode.IsSpace, strings.spaceByte, unicode.MaxLatin1.
  destruct (N.leb_spec (N_of_ascii c) 0xFF) as [_|?]; [|lia].
  destruct (N.leb_spec 0x80 (N_of_ascii c)) as [?|_]; [lia|]. cbn [orb].
  intros Hsp.
  repeat (apply orb_prop in Hsp as [Hsp|Hsp]); rewrite ?Hsp, ?orb_true_r; try done.
  all: apply N.eqb_eq in Hsp; lia.
Qed.

(** White space is made of space bytes. *)
Lemma AllSpace_spaceBytes s : strings.AllSpace s → strings.spaceBytes s = true.
Proof.
  induction 1 as [|s Hne Hsp _ IH]; [done|].
  rewrite <- (take_drop (snd (DecodeRuneInString s)) s), spaceBytes_app, IH, andb_true_r.
  destruct s as [|c0 t0]; [done|].
  destruct (decode_classes c0)
    as [[Hlt H]|[[_ H]|[Hge (sz & lo & hi & Hsz & Hlo & H)]]].
  - rewrite H in Hsp |- *. cbn in Hsp |- *. by rewrite IsSpace_ascii.
  - by rewrite H in Hsp.
  - destruct (IsSpace_valid _ Hsp) as [_ Herr].
    rewrite H in Herr |- *. by apply decodeBody_bytes.
Qed.

Lemma escapeChar_cases c :
  html.escapeChar c = String c ""
  ∨ ∃ rest, html.escapeChar c = String "&"%char rest.
Proof. unfold html.escapeChar. repeat case_match; eauto. Qed.

(** Escaping changes nothing in a string made of space bytes. *)
Lemma escape_spaceBytes d :
  strings.spaceBytes (html.escape d) = true → html.escape d = d.
Proof.
  induction d as [|c d IH]; [done|]. cbn [html.escape].
  destruct (escapeChar_cases c) as [->|[rest ->]]; rewrite app_cons.
  - rewrite app_nil_l. cbn [strings.spaceBytes]. intros [_ Hd]%andb_prop. by rewrite IH.
  - by cbn.
Qed.

Lemma concat_cons (x : string) (xs : list string) :
  String.concat "" (x :: xs) = x +:+ String.concat "" xs.
Proof. destruct xs; cbn [String.concat]; [by rewrite app_nil_r|done]. Qed.

Lemma TextContent_text n :
  html.Type_ n = html.TextNode → html.Children n = [] →
  dom.TextContent n = html.Data n.
Proof.
  destruct n as [ty atom data ns attr ch]. cbn. intros -> ->. cbn.
  by rewrite app_nil_r.
Qed.

(** When what the children are rendered as is made of space bytes, they are
    text nodes, and it is their text. *)
Lemma renderAll_spaceBytes Render l buffer :
  dom.rendersMarkup Render →
  forallb html.childBuilt l = true →
  dom.renderAll Render l = Some buffer →
  strings.spaceBytes buffer = true →
  buffer = String.concat "" (map dom.TextContent l).
Proof.
  intros HR. revert buffer. induction l as [|c l IH]; intros buffer.
  { by intros _ [= <-]. }
  cbn [forallb dom.renderAll]. intros [Hc Hl]%andb_prop.
  destruct (Render c) as [o|] eqn:Eo; [|done].
  destruct (dom.renderAll Render l) as [o'|]; [|done].
  intros [= <-]. rewrite spaceBytes_app. intros [Ho Ho']%andb_prop.
  cbn [map]. rewrite concat_cons, <- (IH o') by done. f_equal.
  specialize (HR c o Eo). unfold html.childBuilt in Hc.
  destruct (html.Type_ c) eqn:Ety; try done.
  - destruct (html.Children c) eqn:Ech; [|done].
    rewrite TextContent_text by done. subst o. by apply escape_spaceBytes.
  - destruct HR as [o'' ->]. done.
  - destruct HR as [o'' ->]. done.
  - destruct HR as [o'' ->]. done.
Qed.

(** A container without markup has no text. *)
Lemma InnerHTML_empty Render content :
  dom.rendersMarkup Render →
  html.built content = true →
  is_Some (dom.renderAll Render (html.Children content)) →
  dom.InnerHTML Render content = "" →
  strings.TrimSpace (dom.TextContent content) = "".
Proof.
  intros HR [Hty Hch]%andb_prop [buffer Hb]. unfold dom.InnerHTML. rewrite Hb.
  intros Hempty. pose proof Hempty as Hsp%TrimSpace_empty%AllSpace_spaceBytes.
  rewrite (renderAll_spaceBytes _ _ _ HR Hch Hb Hsp) in Hempty.
  destruct content as [ty atom data ns attr ch]. cbn [dom.TextContent] in *.
  cbn in Hty. destruct (html.NodeType_eqb ty html.TextNode); [done|].
  by rewrite app_nil_l.
Qed.

Lemma render1_markup n :
  match html.Type_ n with
  | html.TextNode => html.render1 n = (html.escape (html.Data n), html.Ok)
  | html.ElementNode | html.CommentNode | html.DoctypeNode =>
    ∃ o', fst (html.render1 n) = String "<"%char o'
  | _ => True
  end.
Proof.
  destruct n as [ty atom data ns attr ch].
  destruct ty; cbn [html.Type_ html.Data]; try done.
  - cbn [html.render1]. destruct (html.mem data html.voidElements).
    + destruct ch; by eexists.
    + cbv zeta.
      match goal with
      | |- context [let '(body, st) := ?r in _] => destruct r as [body st]
      end.
      destruct st; [destruct (_ && _)|..]; by eexists.
  - by eexists.
  - by eexists.
Qed.

(** The model of [html.Render] is such a serializer. *)
Lemma Render_rendersMarkup : dom.rendersMarkup html.Render.
Proof.
  intros n o. unfold html.Render. pose proof (render1_markup n) as Hn.
  destruct (html.render1 n) as [o1 st] eqn:E.
  assert (Ho : st ≠ html.Err → Some o1 = Some o → o1 = o) by (by intros _ [= ->]).
  destruct (html.Type_ n); try done.
  - injection Hn as -> ->. by intros [= ->].
  - destruct Hn as [o' Hn]. cbn in Hn. subst o1.
    destruct st; [| |done]; intros [= <-]; by eexists.
  - destruct Hn as [o' Hn]. cbn in Hn. subst o1.
    destruct st; [| |done]; intros [= <-]; by eexists.
  - destruct Hn as [o' Hn]. cbn in Hn. subst o1.
    destruct st; [| |done]; intros [= <-]; by eexists.
Qed.

End space_facts.

(** ** Lines *)

Section line_facts.
Import utf8 strings.

Lemma all_app P a b :
  bytes.all P (a +:+ b) = bytes.all P a && bytes.all P b.
Proof.
  induction a as [|c a IH]; [done|]. rewrite app_cons. cbn [bytes.all].
  by rewrite IH, andb_assoc.
Qed.

Lemma all_take P n s :
  bytes.all P s = true → bytes.all P (bytes.take n s) = true.
Proof.
  revert s. induction n as [|n IH]; intros [|c s]; cbn; try done.
  intros [-> Hs]%andb_prop. by apply IH.
Qed.

Lemma all_drop P n s :
  bytes.all P s = true → bytes.all P (bytes.drop n s) = true.
Proof.
  revert s. induction n as [|n IH]; intros [|c s]; cbn; try done.
  intros [_ Hs]%andb_prop. by apply IH.
Qed.

Lemma all_impl (P Q : ascii → bool) s :
  (∀ c, P c = true → Q c = true) →
  bytes.all P s = true → bytes.all Q s = true.
Proof.
  intros HPQ. induction s as [|c s IH]; [done|]. cbn.
  intros [Hc Hs]%andb_prop. by rewrite (HPQ c Hc), IH.
Qed.

(** The bytes of a multi-byte encoding are not ASCII. *)
Lemma decodeBody_high sz lo hi c0 t0 :
  (sz = 2 ∨ sz = 3 ∨ sz = 4)%nat →
  (0x80 ≤ N_of_ascii c0)%N → (0x80 ≤ lo)%N →
  isError (decodeBody sz lo hi c0 t0) = false →
  bytes.all (fun c => (0x80 <=? N_of_ascii c)%N)
            (bytes.take (snd (decodeBody sz lo hi c0 t0)) (String c0 t0)) = true.
Proof.
  unfold isError, decodeBody.
  intros [-> | [-> | ->]] Hc0 Hlo; repeat decode_step.
  all: repeat match goal with
              | H : (_ || _) = false |- _ =>
                apply orb_false_elim in H as [?%N.ltb_ge ?%N.ltb_ge]
              end.
  all: intros _; cbn [bytes.take bytes.all];
    repeat (rewrite (proj2 (N.leb_le _ _)) by (unfold locb, hicb in *; lia));
    done.
Qed.

Lemma breakByte_space c :
  (N_of_ascii c < 0x80)%N →
  unicode.IsSpace (N_of_ascii c) = false → breakByte c = false.
Proof.
  intros Hlt. unfold unicode.IsSpace, breakByte, unicode.MaxLatin1.
  destruct (N.leb_spec (N_of_ascii c) 0xFF) as [_|?]; [|lia].
  intros Hsp. repeat (apply orb_false_elim in Hsp as [Hsp ?]).
  repeat match goal with H : (_ =? _)%N = false |- _ => apply N.eqb_neq in H end.
  apply andb_false_iff.
  destruct (N.leb_spec 0x09 (N_of_ascii c)); [right|by left].
  apply N.leb_gt. lia.
Qed.

Lemma breakByte_high c : (0x80 ≤ N_of_ascii c)%N → breakByte c = false.
Proof.
  intros H. unfold breakByte. apply andb_false_iff. right. apply N.leb_gt. lia.
Qed.

(** The bytes of a rune that is not white space hold no break. *)
Lemma rune_unbroken s :
  s ≠ "" →
  unicode.IsSpace (fst (DecodeRuneInString s)) = false →
  unbroken (bytes.take (snd (DecodeRuneInString s)) s) = true.
Proof.
  destruct s as [|c0 t0]; [done|intros _].
  unfold unbroken.
  destruct (decode_classes c0)
    as [[Hlt H]|[[Hge H]|[Hge (sz & lo & hi & Hsz & Hlo & H)]]]; rewrite H.
  - cbn. intros Hsp. by rewrite breakByte_space.
  - cbn. intros _. by rewrite breakByte_high.
  - intros _. destruct (isError (decodeBody sz lo hi c0 t0)) eqn:Eerr.
    + pose proof (decodeBody_width sz lo hi c0 t0 Hsz) as (_ & _ & H1).
      rewrite (H1 Eerr). cbn. by rewrite breakByte_high.
    + eapply all_impl; [|by apply decodeBody_high].
      intros c Hc%N.leb_le. cbn. by rewrite breakByte_high.
Qed.

Lemma fieldsLoop_unbroken n s cur :
  (∀ w, cur = Some w → unbroken w = true) →
  Forall (fun f => unbroken f = true) (fieldsLoop n s unicode.IsSpace cur).
Proof.
  revert s cur. induction n as [|n IH]; intros s cur Hcur.
  { destruct cur as [w|]; cbn; repeat constructor. by apply Hcur. }
  destruct s as [|c t].
  { destruct cur as [w|]; cbn; repeat constructor. by apply Hcur. }
  set (s := String c t) in *.
  assert (Hne : s ≠ "") by done.
  change (fieldsLoop (S n) s unicode.IsSpace cur) with
    (let '(r, wid) := DecodeRuneInString s in
     let rest := bytes.drop wid s in
     if unicode.IsSpace r then
       match cur with
       | Some w => w :: fieldsLoop n rest unicode.IsSpace None
       | None => fieldsLoop n rest unicode.IsSpace None
       end
     else
       fieldsLoop n rest unicode.IsSpace
         (Some (match cur with
                | Some w => w +:+ bytes.take wid s
                | None => bytes.take wid s
                end))).
  pose proof (rune_unbroken s Hne) as Hr.
  destruct (DecodeRuneInString s) as [r wid]. cbn [fst snd] in Hr. cbv zeta.
  destruct (unicode.IsSpace r).
  - destruct cur as [w|].
    + constructor; [by apply Hcur|]. by apply IH.
    + by apply IH.
  - apply IH. intros w [= <-]. destruct cur as [w|].
    + unfold unbroken in *. rewrite all_app, (Hcur w eq_refl). by apply Hr.
    + by apply Hr.
Qed.

Lemma Join_unbroken l :
  Forall (fun f => unbroken f = true) l → unbroken (Join l " ") = true.
Proof.
  induction 1 as [|f l Hf _ IH]; [done|].
  destruct l as [|f' l']; [done|].
  change (Join (f :: f' :: l') " ") with (f +:+ " " +:+ Join (f' :: l') " ").
  unfold unbroken in *. by rewrite !all_app, Hf, IH.
Qed.

(** With the empty string as replacement, [ToValidUTF8] only removes
    bytes. *)
Lemma validLoop_all P n s invalid :
  bytes.all P s = true → bytes.all P (validLoop n s "" invalid) = true.
Proof.
  revert s invalid. induction n as [|n IH]; intros s invalid; [done|].
  destruct s as [|c t]; [done|]. set (s := String c t).
  change (validLoop (S n) s "" invalid) with
    (if (N_of_ascii c <? RuneSelf)%N then
       String c (validLoop n t "" false)
     else
       let wid := snd (DecodeRuneInString s) in
       if (wid =? 1)%nat then
         (if invalid then EmptyString else "") +:+ validLoop n t "" true
       else
         bytes.take wid s +:+ validLoop n (bytes.drop wid s) "" false).
  intros Hs. pose proof Hs as [Hc Ht]%andb_prop.
  destruct (N_of_ascii c <? RuneSelf)%N.
  - cbn. by rewrite Hc, IH.
  - cbv zeta. destruct (snd (DecodeRuneInString s) =? 1)%nat.
    + rewrite all_app. destruct invalid; cbn; by apply IH.
    + rewrite all_app, all_take by done. apply IH. by apply all_drop.
Qed.

Lemma ToValidUTF8_all P s :
  bytes.all P s = true → bytes.all P (ToValidUTF8 s "") = true.
Proof.
  intros Hs. unfold ToValidUTF8.
  destruct (firstInvalid _ s 0) as [i|]; [|done].
  rewrite all_app, all_take by done. apply validLoop_all. by apply all_drop.
Qed.

(** What [Fields], [Join] and [ToValidUTF8] make of a text holds no
    break. *)
Lemma oneLine_unbroken s : unbroken (ToValidUTF8 (oneLine s) "") = true.
Proof.
  apply ToValidUTF8_all, Join_unbroken. by apply fieldsLoop_unbroken.
Qed.

(** White space only is trimmed to nothing. *)
Lemma indexFunc_AllSpace n s i :
  AllSpace s → indexFunc n s unicode.IsSpace false i = None.
Proof.
  intros Hs. revert s i Hs. induction n as [|n IH]; intros s i Hs; [done|].
  destruct Hs as [|s Hne Hsp Hrest]; [done|].
  destruct s as [|c t]; [done|]. set (s := String c t) in *.
  change (indexFunc (S n) s unicode.IsSpace false i) with
    (let '(r, wid) := DecodeRuneInString s in
     if Bool.eqb (unicode.IsSpace r) false then Some i
     else indexFunc n (bytes.drop wid s) unicode.IsSpace false (i + wid)).
  destruct (DecodeRuneInString s) as [r wid]. cbn [fst snd] in *.
  rewrite Hsp. cbn [Bool.eqb]. by apply IH.
Qed.

Lemma TrimSpace_AllSpace s : AllSpace s → TrimSpace s = "".
Proof.
  intros Hs. unfold TrimSpace, TrimFunc, TrimLeftFunc.
  by rewrite indexFunc_AllSpace.
Qed.

End line_facts.

(** ** Trimmed text *)

Section trim_facts.
Import utf8 strings.

Lemma take_take e k s :
  (e ≤ k)%nat → bytes.take e (bytes.take k s) = bytes.take e s.
Proof.
  revert k s. induction e as [|e IH]; intros [|k] [|c s] Hle; cbn; try done; try lia.
  f_equal. apply IH. lia.
Qed.

Lemma drop_split e k s :
  (e ≤ k ≤ String.length s)%nat →
  bytes.drop e s = bytes.drop e (bytes.take k s) +:+ bytes.drop k s.
Proof.
  intros Hle. rewrite <- (take_drop k s) at 1.
  apply drop_app. rewrite take_length; lia.
Qed.

Lemma at_drop i s c t :
  bytes.drop i s = String c t → bytes.at_ s i = N_of_ascii c.
Proof.
  revert s. induction i as [|i IH]; intros [|c' s]; cbn; try done.
  - by intros [= -> _].
  - apply IH.
Qed.

Lemma drop_nonempty i s : (i < String.length s)%nat → bytes.drop i s ≠ "".
Proof.
  intros Hlt Hd. pose proof (drop_length i s) as Hl. rewrite Hd in Hl.
  cbn in Hl. lia.
Qed.

Lemma first_lead b :
  first b ≠ as_ → first b ≠ xx → (0xC2 ≤ b ≤ 0xF4)%N.
Proof.
  unfold first.
  repeat match goal with
         | |- context [(?x <? ?y)%N] => destruct (N.ltb_spec x y)
         | |- context [(?x =? ?y)%N] => destruct (N.eqb_spec x y)
         end; try done; lia.
Qed.

(** The byte that starts a multi-byte encoding and the range of the byte
    that follows it. *)
Lemma decode_lead c0 :
  let b0 := N_of_ascii c0 in
  first b0 ≠ as_ → first b0 ≠ xx →
  (0xC2 ≤ b0)%N
  ∧ ∃ sz lo hi, (sz = 2 ∨ sz = 3 ∨ sz = 4)%nat ∧ (0x80 ≤ lo)%N ∧ (hi ≤ 0xBF)%N
      ∧ ∀ t0, DecodeRuneInString (String c0 t0) = decodeBody sz lo hi c0 t0.
Proof.
  intros b0 Has Hxx. split; [by apply first_lead|].
  pose proof (first_cases b0) as Hf.
  assert (Hmulti : ∀ x, first b0 = x → (as_ <=? x)%N = false →
            (N.to_nat (N.land x 7) = 2 ∨ N.to_nat (N.land x 7) = 3
             ∨ N.to_nat (N.land x 7) = 4)%nat →
            (0x80 ≤ fst (acceptRanges (N.shiftr x 4)))%N →
            (snd (acceptRanges (N.shiftr x 4)) ≤ 0xBF)%N →
            ∃ sz lo hi, (sz = 2 ∨ sz = 3 ∨ sz = 4)%nat ∧ (0x80 ≤ lo)%N
              ∧ (hi ≤ 0xBF)%N
              ∧ ∀ t0, DecodeRuneInString (String c0 t0) = decodeBody sz lo hi c0 t0).
  { intros x Hx Hle Hsz Hlo Hhi.
    eexists _, _, _. split; [exact Hsz|]. split; [exact Hlo|]. split; [exact Hhi|].
    intros t0. rewrite decode_cons. fold b0. rewrite Hx. cbv zeta.
    rewrite Hle. reflexivity. }
  repeat (apply elem_of_cons in Hf as [Hf|Hf]); [done|done|..|by apply elem_of_nil in Hf].
  all: apply (Hmulti _ Hf); [done| |done|done]; vm_compute; tauto.
Qed.

(** A byte that is not ASCII, at the end of the string or before a
    well-encoded rune, is decoded alone. *)
Lemma decode_before_rune c t :
  (0x80 ≤ N_of_ascii c)%N →
  t = "" ∨ isError (DecodeRuneInString t) = false →
  snd (DecodeRuneInString (String c t)) = 1%nat.
Proof.
  intros Hge Ht.
  destruct (N.eq_dec (first (N_of_ascii c)) as_) as [Has|Has].
  { apply first_as in Has. lia. }
  destruct (N.eq_dec (first (N_of_ascii c)) xx) as [Hxx|Hxx].
  { rewrite decode_cons. cbv zeta. by rewrite Hxx. }
  destruct (decode_lead c Has Hxx) as (_ & sz & lo & hi & Hsz & Hlo & Hhi & H).
  rewrite H. destruct t as [|c1 t1].
  { unfold decodeBody. destruct Hsz as [-> | [-> | ->]]; reflexivity. }
  destruct Ht as [|Ht]; [done|].
  assert (Hout : ((N_of_ascii c1 <? lo) || (hi <? N_of_ascii c1))%N = true).
  { apply orb_true_iff.
    destruct (N.eq_dec (first (N_of_ascii c1)) as_) as [Has1|Has1].
    { apply first_as in Has1. left. apply N.ltb_lt. lia. }
    destruct (N.eq_dec (first (N_of_ascii c1)) xx) as [Hxx1|Hxx1].
    { rewrite decode_cons in Ht. cbv zeta in Ht. by rewrite Hxx1 in Ht. }
    apply first_lead in Has1; [|done]. right. apply N.ltb_lt. lia. }
  unfold decodeBody. destruct (_ <? sz)%nat; [done|].
  cbv beta iota zeta. by rewrite Hout.
Qed.

Lemma AllSpace_app a b : AllSpace a → AllSpace b → AllSpace (a +:+ b).
Proof.
  induction 1 as [|a Hne Hsp _ IH]; intros Hb; [done|].
  pose proof (decode_width a Hne) as Hw.
  pose proof (decode_space_app a b Hsp) as Hd.
  apply AllSpace_rune.
  - destruct a; [done|]. by rewrite app_cons.
  - by rewrite Hd.
  - rewrite Hd, drop_app by lia. by apply IH.
Qed.

(** White space starts with a well-encoded rune. *)
Lemma AllSpace_start t :
  AllSpace t → t = "" ∨ isError (DecodeRuneInString t) = false.
Proof.
  destruct 1 as [|t Hne Hsp _]; [by left|]. right. by apply IsSpace_valid.
Qed.

Lemma findStart_le s start lim k : (findStart s start lim k ≤ start)%Z.
Proof.
  revert start. induction k as [|k IH]; intros start; cbn [findStart]; [lia|].
  destruct (start <? lim)%Z; [lia|].
  destruct (RuneStart _); [lia|]. specialize (IH (start - 1)%Z). lia.
Qed.

(** What [DecodeLastRuneInString] returns: one byte, as itself when it is
    ASCII and as an error when it is not, or a well-encoded rune of
    several bytes. *)
Lemma decodeLast_cases s :
  s ≠ "" →
  let r := fst (DecodeLastRuneInString s) in
  let size := snd (DecodeLastRuneInString s) in
  let k := (String.length s - size)%nat in
  (1 ≤ size ≤ String.length s)%nat
  ∧ ((∃ c, bytes.drop k s = String c "" ∧ size = 1%nat
           ∧ ((N_of_ascii c < 0x80)%N ∨ r = RuneError))
     ∨ ((2 ≤ size)%nat ∧ DecodeRuneInString (bytes.drop k s) = (r, size)
        ∧ isError (r, size) = false)).
Proof.
  intros Hne. unfold DecodeLastRuneInString.
  destruct (String.length s =? 0)%nat eqn:El.
  { apply Nat.eqb_eq, length_zero in El. done. }
  apply Nat.eqb_neq in El.
  destruct (last_byte s Hne) as (c & Hd & Ha). rewrite Ha.
  assert (Hone : (1 ≤ 1 ≤ String.length s)%nat) by lia.
  destruct (N.ltb_spec (N_of_ascii c) RuneSelf) as [Hlt|Hge].
  { cbn [fst snd]. split; [done|]. left. exists c. split_and!; [done|done|by left]. }
  set (start := Z.to_nat _).
  destruct (DecodeRuneInString (bytes.drop start s)) as [r' size'] eqn:Ed.
  destruct (start + size' =? String.length s)%nat eqn:Ee.
  - apply Nat.eqb_eq in Ee. cbn [fst snd].
    replace (String.length s - size')%nat with start by lia.
    assert (Hne' : bytes.drop start s ≠ "").
    { apply drop_nonempty. subst start.
      match goal with |- context [findStart ?a ?b ?c ?d] =>
        pose proof (findStart_le a b c d) end.
      lia. }
    pose proof (decode_width _ Hne') as Hw. rewrite Ed in Hw. cbn [snd] in Hw.
    split; [lia|].
    destruct (Nat.eq_dec size' 1) as [->|Hsz].
    + left. exists c. replace start with (String.length s - 1)%nat by lia.
      split_and!; [done|done|]. right.
      replace start with (String.length s - 1)%nat in Ed by lia.
      rewrite Hd in Ed. pose proof (decode_width_1 c "" Hge) as H1.
      rewrite Ed in H1. cbn in H1. unfold isError in H1. cbn in H1.
      by apply N.eqb_eq in H1.
    + right. split_and!; [lia|done|].
      unfold isError. cbn [fst snd]. apply andb_false_iff. left.
      by apply Nat.eqb_neq.
  - cbn [fst snd]. split; [done|]. left. exists c. split_and!; [done|done|by right].
Qed.

(** The backward scan stops at the end of the last rune that is not white
    space: nothing but white space follows. *)
Lemma lastIndexFunc_Some n s i :
  lastIndexFunc n s unicode.IsSpace false = Some i →
  ∃ e, (e ≤ String.length s)%nat
       ∧ bytes.take e s ≠ ""
       ∧ unicode.IsSpace (fst (DecodeLastRuneInString (bytes.take e s))) = false
       ∧ i = (e - snd (DecodeLastRuneInString (bytes.take e s)))%nat
       ∧ AllSpace (bytes.drop e s).
Proof.
  revert s. induction n as [|n IH]; intros s; [done|].
  destruct s as [|c t]; [done|]. set (s := String c t) in *.
  change (lastIndexFunc (S n) s unicode.IsSpace false) with
    (let '(r, size) := DecodeLastRuneInString s in
     let i := (String.length s - size)%nat in
     if Bool.eqb (unicode.IsSpace r) false then Some i
     else lastIndexFunc n (bytes.take i s) unicode.IsSpace false).
  destruct (DecodeLastRuneInString s) as [r size] eqn:Ed. cbv zeta.
  destruct (unicode.IsSpace r) eqn:Hsp; cbn [Bool.eqb].
  - destruct (decodeLast_space s r size Ed Hsp) as [Hsize Hdec].
    remember (String.length s - size)%nat as k eqn:Hk.
    intros (e & He & Hne & Hns & -> & Hall)%IH.
    rewrite take_length in He by lia.
    rewrite take_take in Hne, Hns |- * by done.
    exists e. split_and!; [lia|done|done|done|].
    rewrite (drop_split e k s) by lia.
    apply AllSpace_app; [done|].
    assert (Hnek : bytes.drop k s ≠ "") by (apply drop_nonempty; lia).
    apply AllSpace_rune; [done|by rewrite Hdec|].
    rewrite Hdec. cbn [snd].
    assert (Hl : String.length (bytes.drop size (bytes.drop k s)) = 0%nat).
    { rewrite !drop_length. lia. }
    apply length_zero in Hl. rewrite Hl. constructor.
  - intros [= <-]. exists (String.length s).
    rewrite take_all, drop_all, Ed. split_and!; [lia|done|done|done|constructor].
Qed.

(** [TrimRightFunc] cuts at the end of the last rune that is not white
    space. *)
Lemma TrimRightFunc_cut s e :
  (e ≤ String.length s)%nat →
  bytes.take e s ≠ "" →
  AllSpace (bytes.drop e s) →
  let i := (e - snd (DecodeLastRuneInString (bytes.take e s)))%nat in
  (if (RuneSelf <=? bytes.at_ s i)%N
   then bytes.take (i + snd (DecodeRuneInString (bytes.drop i s))) s
   else bytes.take (i + 1) s) = bytes.take e s.
Proof.
  intros He Hne Hall.
  pose proof (decodeLast_cases (bytes.take e s) Hne) as [Hsize Hc].
  rewrite take_length in Hsize, Hc by done.
  set (size := snd (DecodeLastRuneInString (bytes.take e s))) in *.
  set (r := fst (DecodeLastRuneInString (bytes.take e s))) in *.
  intros i. subst i. set (i := (e - size)%nat) in *.
  assert (Hsplit : bytes.drop i s = bytes.drop i (bytes.take e s) +:+ bytes.drop e s).
  { apply drop_split. lia. }
  destruct Hc as [(c & Hd & H1 & Hc)|(H2 & Hd & Herr)].
  - rewrite Hd, app_cons, app_nil_l in Hsplit.
    rewrite (at_drop _ _ _ _ Hsplit), Hsplit.
    destruct (N.leb_spec RuneSelf (N_of_ascii c)) as [Hge|Hlt].
    + rewrite decode_before_rune; [|done|by apply AllSpace_start].
      f_equal. lia.
    + f_equal. lia.
  - assert (Hned : bytes.drop i (bytes.take e s) ≠ "").
    { apply drop_nonempty. rewrite take_length by done. lia. }
    assert (Hlen : String.length (bytes.drop i (bytes.take e s)) = size).
    { rewrite drop_length, take_length by done. lia. }
    assert (Hpre : DecodeRuneInString (bytes.drop i s) = (r, size)).
    { rewrite Hsplit.
      rewrite <- (take_all (bytes.drop i (bytes.take e s))), Hlen.
      replace size with (snd (DecodeRuneInString (bytes.drop i (bytes.take e s))))
        at 1 by (by rewrite Hd).
      rewrite decode_prefix; [done|done|by rewrite Hd]. }
    rewrite Hpre. cbn [snd].
    destruct (bytes.drop i (bytes.take e s)) as [|c0 t0] eqn:E0; [done|].
    rewrite app_cons in Hsplit. rewrite (at_drop _ _ _ _ Hsplit).
    destruct (N.leb_spec RuneSelf (N_of_ascii c0)) as [Hge|Hlt].
    + f_equal. lia.
    + rewrite decode_ascii in Hd by done. injection Hd as _ Hd. lia.
Qed.

(** The first rune of a text that does not start with white space is not
    a white space in a prefix of the text either. *)
Lemma decode_take_nonspace e s :
  unicode.IsSpace (fst (DecodeRuneInString s)) = false →
  unicode.IsSpace (fst (DecodeRuneInString (bytes.take e s))) = false.
Proof.
  intros Hns.
  destruct (unicode.IsSpace (fst (DecodeRuneInString (bytes.take e s)))) eqn:Hsp;
    [|done].
  pose proof (decode_space_app _ (bytes.drop e s) Hsp) as Hd.
  rewrite take_drop in Hd. by rewrite Hd, Hsp in Hns.
Qed.

(** What [TrimSpace] returns is trimmed. *)
Lemma TrimSpace_trimmed s : trimmed (TrimSpace s).
Proof.
  unfold TrimSpace, TrimFunc, TrimLeftFunc.
  destruct (indexFunc (String.length s) s unicode.IsSpace false 0) as [j|] eqn:Ei;
    [|by left].
  apply indexFunc_Some in Ei as (k & -> & Hne & Hns). cbn [Nat.add].
  set (l := bytes.drop k s) in *. unfold TrimRightFunc.
  destruct (lastIndexFunc (String.length l) l unicode.IsSpace false) as [i|] eqn:El;
    [|by left].
  apply lastIndexFunc_Some in El as (e & He & Hnee & Hlast & -> & Hall).
  rewrite (TrimRightFunc_cut l e He Hnee Hall).
  right. split; [by apply decode_take_nonspace|done].
Qed.

(** [TrimSpace] leaves a trimmed text as it is. *)
Lemma TrimSpace_fixed s : trimmed s → TrimSpace s = s.
Proof.
  intros [->|[Hfirst Hlast]]; [done|].
  destruct s as [|c t]; [done|]. set (s := String c t) in *.
  assert (Hne : s ≠ "") by done.
  unfold TrimSpace, TrimFunc, TrimLeftFunc.
  assert (indexFunc (String.length s) s unicode.IsSpace false 0 = Some 0%nat) as ->.
  { change (indexFunc (String.length s) s unicode.IsSpace false 0) with
      (let '(r, wid) := DecodeRuneInString s in
       if Bool.eqb (unicode.IsSpace r) false then Some 0%nat
       else indexFunc (String.length t) (bytes.drop wid s) unicode.IsSpace false
                      (0 + wid)).
    destruct (DecodeRuneInString s) as [r wid]. cbn [fst] in Hfirst.
    by rewrite Hfirst. }
  change (bytes.drop 0 s) with s. unfold TrimRightFunc.
  assert (lastIndexFunc (String.length s) s unicode.IsSpace false
          = Some (String.length s - snd (DecodeLastRuneInString s))%nat) as ->.
  { change (lastIndexFunc (String.length s) s unicode.IsSpace false) with
      (let '(r, size) := DecodeLastRuneInString s in
       let i := (String.length s - size)%nat in
       if Bool.eqb (unicode.IsSpace r) false then Some i
       else lastIndexFunc (String.length t) (bytes.take i s) unicode.IsSpace false).
    destruct (DecodeLastRuneInString s) as [r size]. cbn [fst snd] in *.
    by rewrite Hlast. }
  pose proof (TrimRightFunc_cut s (String.length s)) as Hcut.
  cbv zeta in Hcut. rewrite !take_all, drop_all in Hcut.
  apply Hcut; [lia|done|constructor].
Qed.

Lemma TrimSpace_idempotent s : TrimSpace (TrimSpace s) = TrimSpace s.
Proof. apply TrimSpace_fixed, TrimSpace_trimmed. Qed.

End trim_facts.

(** ** Runs of invalid bytes *)

Section splice_facts.
Import utf8 strings.

Lemma startsNothing_decode c t :
  startsNothing c = true →
  (0x80 ≤ N_of_ascii c)%N
  ∧ DecodeRuneInString (String c t) = (RuneError, 1%nat).
Proof.
  unfold startsNothing. intros Hxx%N.eqb_eq. split.
  - destruct (N.lt_ge_cases (N_of_ascii c) 0x80) as [Hlt|]; [|done].
    apply first_as in Hlt. by rewrite Hlt in Hxx.
  - rewrite decode_cons. cbv zeta. by rewrite Hxx.
Qed.

Lemma app_length' a b :
  String.length (a +:+ b) = (String.length a + String.length b)%nat.
Proof. induction a as [|c a IH]; [done|]. rewrite app_cons. cbn. by rewrite IH. Qed.

Lemma take_app_length a t : bytes.take (String.length a) (a +:+ t) = a.
Proof. induction a as [|c a IH]; [by destruct t|]. rewrite app_cons. cbn. by rewrite IH. Qed.

(** The second loop of [ToValidUTF8] copies valid text. *)
Lemma validLoop_copy n s replacement invalid :
  Valid s → (String.length s ≤ n)%nat →
  validLoop n s replacement invalid = s.
Proof.
  intros Hv. revert n invalid.
  induction Hv as [|s Hne Herr _ IH]; intros n invalid Hn.
  { by destruct n. }
  destruct s as [|c t]; [done|]. set (s := String c t) in *.
  destruct n as [|n]; [cbn in Hn; lia|].
  change (validLoop (S n) s replacement invalid) with
    (if (N_of_ascii c <? RuneSelf)%N then
       String c (validLoop n t replacement false)
     else
       let wid := snd (DecodeRuneInString s) in
       if (wid =? 1)%nat then
         (if invalid then EmptyString else replacement)
           +:+ validLoop n t replacement true
       else
         bytes.take wid s +:+ validLoop n (bytes.drop wid s) replacement false).
  destruct (N.ltb_spec (N_of_ascii c) RuneSelf) as [Hlt|Hge].
  - f_equal. unfold s in *. rewrite decode_ascii in IH by done.
    apply IH. cbn in Hn |- *. lia.
  - cbv zeta. pose proof (decode_width_1 c t Hge) as Hw1. fold s in Hw1.
    rewrite Herr in Hw1. rewrite <- Hw1.
    pose proof (decode_width s Hne) as Hw.
    rewrite IH; [apply take_drop|].
    rewrite drop_length. lia.
Qed.

(** A run of invalid bytes is replaced once. *)
Lemma validLoop_run n bad rest replacement invalid :
  bytes.all startsNothing bad = true →
  Valid rest →
  (String.length (bad +:+ rest) ≤ n)%nat →
  validLoop n (bad +:+ rest) replacement invalid
  = (match bad with
     | EmptyString => EmptyString
     | String _ _ => if invalid then EmptyString else replacement
     end) +:+ rest.
Proof.
  intros Hbad Hrest. revert n invalid.
  induction bad as [|c bad IH]; intros n invalid Hn.
  { by apply validLoop_copy. }
  cbn [bytes.all] in Hbad. apply andb_prop in Hbad as [Hc Hbad].
  rewrite app_cons in Hn |- *. set (t := bad +:+ rest) in *.
  destruct n as [|n]; [cbn in Hn; lia|].
  destruct (startsNothing_decode c t Hc) as [Hge Hd].
  change (validLoop (S n) (String c t) replacement invalid) with
    (if (N_of_ascii c <? RuneSelf)%N then
       String c (validLoop n t replacement false)
     else
       let wid := snd (DecodeRuneInString (String c t)) in
       if (wid =? 1)%nat then
         (if invalid then EmptyString else replacement)
           +:+ validLoop n t replacement true
       else
         bytes.take wid (String c t)
           +:+ validLoop n (bytes.drop wid (String c t)) replacement false).
  destruct (N.ltb_spec (N_of_ascii c) RuneSelf) as [Hlt|_];
    [unfold RuneSelf in Hlt; lia|].
  rewrite Hd. cbn [snd Nat.eqb]. unfold t. rewrite (IH Hbad).
  - by destruct bad.
  - fold t. cbn in Hn. lia.
Qed.

(** The first loop of [ToValidUTF8] runs over valid text. *)
Lemma firstInvalid_app n a t i :
  Valid a → (String.length (a +:+ t) ≤ n)%nat →
  ∃ m, (String.length t ≤ m)%nat
       ∧ firstInvalid n (a +:+ t) i = firstInvalid m t (i + String.length a).
Proof.
  intros Hv. revert n i.
  induction Hv as [|a Hne Herr _ IH]; intros n i Hn.
  { exists n. split; [done|]. cbn. f_equal. lia. }
  pose proof (decode_width a Hne) as Hw.
  assert (Hd : DecodeRuneInString (a +:+ t) = DecodeRuneInString a).
  { rewrite <- (take_drop (snd (DecodeRuneInString a)) a) at 1.
    rewrite app_assoc'. by apply decode_prefix. }
  rewrite app_length' in Hn.
  destruct a as [|c a']; [done|]. set (a := String c a') in *.
  destruct n as [|n]; [cbn in Hn; lia|].
  pose proof (firstInvalid_test a) as Ht.
  change (firstInvalid (S n) (a +:+ t) i) with
    (let '(r, wid) := DecodeRuneInString (a +:+ t) in
     if (r =? RuneError)%N && (wid =? 1)%nat then Some i
     else firstInvalid n (bytes.drop wid (a +:+ t)) (i + wid)).
  rewrite Hd. destruct (DecodeRuneInString a) as [r wid] eqn:Ed.
  cbn [fst snd] in *. rewrite Ht, Herr, drop_app by lia.
  destruct (IH n (i + wid)%nat) as (m & Hm & ->).
  { rewrite app_length', drop_length. cbn in Hn |- *. lia. }
  exists m. split; [done|]. f_equal. rewrite drop_length. lia.
Qed.

(** In valid text with one run of invalid bytes in it, [ToValidUTF8] puts
    the replacement in the place of the run and keeps the rest. *)
Lemma ToValidUTF8_splice pre c bad post replacement :
  Valid pre → bytes.all startsNothing (String c bad) = true → Valid post →
  ToValidUTF8 (pre +:+ String c bad +:+ post) replacement
  = pre +:+ replacement +:+ post.
Proof.
  intros Hpre Hbad Hpost. unfold ToValidUTF8.
  destruct (firstInvalid_app (String.length (pre +:+ String c bad +:+ post))
              pre (String c bad +:+ post) 0 Hpre)
    as (m & Hm & ->); [done|].
  pose proof Hbad as [Hc _]%andb_prop.
  rewrite app_cons in Hm |- *.
  destruct (startsNothing_decode c (bad +:+ post) Hc) as [_ Hd].
  destruct m as [|m]; [cbn in Hm; lia|].
  change (firstInvalid (S m) (String c (bad +:+ post)) (0 + String.length pre))
    with
    (let '(r, wid) := DecodeRuneInString (String c (bad +:+ post)) in
     if (r =? RuneError)%N && (wid =? 1)%nat then Some (0 + String.length pre)%nat
     else firstInvalid m (bytes.drop wid (String c (bad +:+ post)))
                       (0 + String.length pre + wid)).
  rewrite Hd. cbn [N.eqb Nat.eqb andb Nat.add]. change (RuneError =? RuneError)%N with true.
  cbn [andb].
  rewrite take_app_length.
  rewrite drop_app, drop_all, app_nil_l by done.
  rewrite (validLoop_run _ (String c bad) post replacement false Hbad Hpost).
  - done.
  - rewrite ?app_cons, !app_length'. cbn [String.length].
    rewrite ?app_length'. lia.
Qed.

End splice_facts.

(** ** Words *)

Section word_facts.
Import utf8 strings.

Lemma solidFrom_Solid n s : solidFrom n s = true → Solid s.
Proof.
  revert s. induction n as [|n IH]; intros s.
  { destruct s; [constructor|done]. }
  destruct s as [|c t]; [constructor|]. set (s := String c t).
  change (solidFrom (S n) s) with
    (negb (isError (DecodeRuneInString s))
     && negb (unicode.IsSpace (fst (DecodeRuneInString s)))
     && solidFrom n (bytes.drop (snd (DecodeRuneInString s)) s)).
  intros [[He Hs]%andb_prop Hrest]%andb_prop.
  apply negb_true_iff in He, Hs. apply Solid_rune; [done|done|done|by apply IH].
Qed.

Lemma word_Solid f : word f = true → f ≠ "" ∧ Solid f.
Proof.
  unfold word. intros [Hne Hs]%andb_prop. split.
  - intros ->. done.
  - by apply solidFrom_Solid in Hs.
Qed.

Lemma Solid_Valid s : Solid s → Valid s.
Proof. induction 1; [constructor|by apply Valid_rune]. Qed.

(** A well-encoded rune is read from any longer text. *)
Lemma decode_app s t :
  s ≠ "" → isError (DecodeRuneInString s) = false →
  DecodeRuneInString (s +:+ t) = DecodeRuneInString s.
Proof.
  intros Hne Herr.
  rewrite <- (take_drop (snd (DecodeRuneInString s)) s) at 1.
  rewrite app_assoc'. by apply decode_prefix.
Qed.

Lemma pushed_step cur f wid :
  f ≠ "" →
  pushed (Some (default "" cur +:+ bytes.take wid f)) (bytes.drop wid f)
  = pushed cur f.
Proof.
  intros Hne. pose proof (take_drop wid f) as Htd.
  destruct f as [|c f']; [done|]. cbn [pushed].
  destruct (bytes.drop wid (String c f')) as [|c1 r1].
  - cbn [pushed]. rewrite app_nil_r in Htd. by rewrite Htd.
  - cbn [pushed from_option id]. by rewrite app_assoc', Htd.
Qed.

(** The loop of [FieldsFunc] reads a solid text into the field at hand. *)
Lemma fieldsLoop_Solid f :
  Solid f →
  ∀ n t cur,
    (String.length (f +:+ t) ≤ n)%nat →
    ∃ m, (String.length t ≤ m)%nat
         ∧ fieldsLoop n (f +:+ t) unicode.IsSpace cur
           = fieldsLoop m t unicode.IsSpace (pushed cur f).
Proof.
  induction 1 as [|f Hne Herr Hns _ IH]; intros n t cur Hn.
  { exists n. by split. }
  pose proof (decode_width f Hne) as Hw.
  pose proof (decode_app f t Hne Herr) as Hd.
  rewrite app_length' in Hn.
  destruct f as [|c f']; [done|]. set (f := String c f') in *.
  destruct n as [|n]; [cbn in Hn; lia|].
  change (fieldsLoop (S n) (f +:+ t) unicode.IsSpace cur) with
    (let '(r, wid) := DecodeRuneInString (f +:+ t) in
     let rest := bytes.drop wid (f +:+ t) in
     if unicode.IsSpace r then
       match cur with
       | Some w => w :: fieldsLoop n rest unicode.IsSpace None
       | None => fieldsLoop n rest unicode.IsSpace None
       end
     else
       fieldsLoop n rest unicode.IsSpace
         (Some (match cur with
                | Some w => w +:+ bytes.take wid (f +:+ t)
                | None => bytes.take wid (f +:+ t)
                end))).
  rewrite Hd. destruct (DecodeRuneInString f) as [r wid] eqn:Ed.
  cbn [fst snd] in *. cbv zeta. rewrite Hns, drop_app by lia.
  assert (Htake : bytes.take wid (f +:+ t) = bytes.take wid f).
  { rewrite <- (take_drop wid f) at 1. rewrite app_assoc'.
    rewrite <- (take_length wid f) at 1 by lia. apply take_app_length. }
  rewrite Htake.
  assert (Hcur : Some (match cur with
                       | Some w => w +:+ bytes.take wid f
                       | None => bytes.take wid f
                       end) = Some (default "" cur +:+ bytes.take wid f)).
  { by destruct cur. }
  rewrite Hcur.
  destruct (IH n t (Some (default "" cur +:+ bytes.take wid f)))
    as (m & Hm & ->).
  { rewrite app_length', drop_length. cbn in Hn |- *. lia. }
  exists m. split; [done|]. f_equal. by apply pushed_step.
Qed.

(** [Fields] undoes [Join] on words. *)
Lemma fieldsLoop_Join l :
  Forall (fun f => word f = true) l →
  ∀ n, (String.length (Join l " ") ≤ n)%nat →
       fieldsLoop n (Join l " ") unicode.IsSpace None = l.
Proof.
  induction 1 as [|f l Hf _ IH]; intros n Hn.
  { by destruct n. }
  apply word_Solid in Hf as [Hne Hs].
  destruct l as [|f' l'].
  - cbn [Join] in *.
    destruct (fieldsLoop_Solid f Hs n "" None) as (m & _ & Hm);
      [by rewrite app_nil_r|].
    rewrite app_nil_r in Hm. rewrite Hm.
    destruct f; [done|]. destruct m; cbn; by rewrite app_nil_l.
  - change (Join (f :: f' :: l') " ") with (f +:+ " " +:+ Join (f' :: l') " ")
      in *.
    destruct (fieldsLoop_Solid f Hs n (" " +:+ Join (f' :: l') " ") None Hn)
      as (m & Hm & ->).
    rewrite app_cons, app_nil_l in Hm |- *.
    destruct m as [|m]; [cbn in Hm; lia|].
    destruct f as [|c0 f0]; [done|]. cbn [pushed from_option id].
    rewrite app_nil_l.
    change (fieldsLoop (S m) (String " " (Join (f' :: l') " ")) unicode.IsSpace
                       (Some (String c0 f0)))
      with (String c0 f0 :: fieldsLoop m (Join (f' :: l') " ") unicode.IsSpace None).
    f_equal. apply IH. cbn [String.length] in Hm. lia.
Qed.

Lemma Fields_Join l :
  Forall (fun f => word f = true) l → Fields (Join l " ") = l.
Proof. intros Hl. by apply fieldsLoop_Join. Qed.

(** What words joined by spaces are: valid text. *)
Lemma Join_Valid l :
  Forall (fun f => word f = true) l → Valid (Join l " ").
Proof.
  induction 1 as [|f l Hf _ IH]; [constructor|].
  apply word_Solid in Hf as [_ Hs%Solid_Valid].
  destruct l as [|f' l']; [done|].
  change (Join (f :: f' :: l') " ") with (f +:+ " " +:+ Join (f' :: l') " ").
  apply Valid_app; [done|]. rewrite app_cons, app_nil_l.
  by apply Valid_ascii.
Qed.

End word_facts.

(** ** The last rune of valid text *)

Section last_facts.
Import utf8 strings.

Lemma RuneStart_byte c :
  RuneStart (N_of_ascii c)
  = negb ((0x80 <=? N_of_ascii c)%N && (N_of_ascii c <=? 0xBF)%N).
Proof. destruct c as [[] [] [] [] [] [] [] []]; reflexivity. Qed.

Lemma at_app pre s j :
  bytes.at_ (pre +:+ s) (String.length pre + j) = bytes.at_ s j.
Proof. induction pre as [|c pre IH]; [done|]. rewrite app_cons. exact IH. Qed.

Lemma at_cons c s i : bytes.at_ (String c s) (S i) = bytes.at_ s i.
Proof. reflexivity. Qed.

Lemma at_all P s i :
  bytes.all P s = true → (i < String.length s)%nat →
  ∃ c, bytes.at_ s i = N_of_ascii c ∧ P c = true.
Proof.
  revert i. induction s as [|c s IH]; intros i; [cbn; lia|].
  cbn [bytes.all String.length]. intros [Hc Hs]%andb_prop Hi.
  destruct i as [|i]; [by exists c|]. apply (IH i Hs). lia.
Qed.

(** The backward search stops at the first byte it meets that is not a
    continuation byte. *)
Lemma findStart_found s lim p k start :
  (lim ≤ p ≤ start)%Z → (start - p < Z.of_nat k)%Z →
  (∀ q, (p < q ≤ start)%Z → RuneStart (bytes.at_ s (Z.to_nat q)) = false) →
  RuneStart (bytes.at_ s (Z.to_nat p)) = true →
  findStart s start lim k = p.
Proof.
  revert start. induction k as [|k IH]; intros start Hp Hk Hcont Hstart; [lia|].
  cbn [findStart]. destruct (Z.ltb_spec start lim) as [|_]; [lia|].
  destruct (Z.eq_dec start p) as [->|Hne]; [by rewrite Hstart|].
  rewrite Hcont by lia. apply IH; [lia|lia| |done].
  intros q Hq. apply Hcont. lia.
Qed.

(** The bytes of a well-encoded rune of several bytes, after the first,
    are continuation bytes. *)
Lemma decodeBody_shape sz lo hi c0 t0 :
  (sz = 2 ∨ sz = 3 ∨ sz = 4)%nat →
  (0x80 ≤ lo)%N → (hi ≤ 0xBF)%N →
  isError (decodeBody sz lo hi c0 t0) = false →
  snd (decodeBody sz lo hi c0 t0) = String.length (String c0 t0) →
  (1 ≤ String.length t0 ≤ 3)%nat
  ∧ bytes.all (fun c => (0x80 <=? N_of_ascii c)%N && (N_of_ascii c <=? 0xBF)%N)
              t0 = true.
Proof.
  unfold isError, decodeBody.
  intros [-> | [-> | ->]] Hlo Hhi; repeat decode_step.
  all: repeat match goal with
              | H : (_ || _) = false |- _ =>
                apply orb_false_elim in H as [?%N.ltb_ge ?%N.ltb_ge]
              end.
  all: intros _ Hlen; cbn [String.length] in Hlen;
    repeat match goal with
           | H : _ = S (S (String.length ?t)) |- _ =>
             is_var t; destruct t; cbn [String.length] in H; [|lia]
           | H : _ = S (S (S (String.length ?t))) |- _ =>
             is_var t; destruct t; cbn [String.length] in H; [|lia]
           | H : _ = S (S (S (S (String.length ?t)))) |- _ =>
             is_var t; destruct t; cbn [String.length] in H; [|lia]
           end.
  all: try lia.
  all: split; [cbn; lia|]; cbn [bytes.all];
    repeat (rewrite (proj2 (N.leb_le _ _)) by (unfold locb, hicb in *; lia));
    done.
Qed.

(** [DecodeLastRuneInString] finds a well-encoded rune at the end of a
    text. *)
Lemma decodeLast_rune pre chunk :
  chunk ≠ "" →
  isError (DecodeRuneInString chunk) = false →
  snd (DecodeRuneInString chunk) = String.length chunk →
  DecodeLastRuneInString (pre +:+ chunk) = DecodeRuneInString chunk.
Proof.
  destruct chunk as [|c0 t0]; [done|intros _ Herr Hlen].
  unfold DecodeLastRuneInString.
  rewrite app_length'. cbn [String.length].
  destruct (String.length pre + S (String.length t0) =? 0)%nat eqn:E0.
  { apply Nat.eqb_eq in E0. lia. }
  destruct (N.eq_dec (first (N_of_ascii c0)) as_) as [Has|Has].
  { apply first_as in Has. rewrite decode_ascii in Hlen |- * by done.
    cbn in Hlen. assert (t0 = "") as -> by (destruct t0; [done|cbn in Hlen; lia]).
    cbn [String.length].
    replace (String.length pre + 1 - 1)%nat with (String.length pre + 0)%nat by lia.
    rewrite at_app. cbn [bytes.at_ get]. unfold RuneSelf.
    by rewrite (proj2 (N.ltb_lt _ _) Has). }
  destruct (N.eq_dec (first (N_of_ascii c0)) xx) as [Hxx|Hxx].
  { rewrite decode_cons in Herr. cbv zeta in Herr. by rewrite Hxx in Herr. }
  destruct (decode_lead c0 Has Hxx) as (Hc0 & sz & lo & hi & Hsz & Hlo & Hhi & H).
  rewrite H in Herr, Hlen.
  destruct (decodeBody_shape sz lo hi c0 t0 Hsz Hlo Hhi Herr Hlen) as [Ht0 Hcont].
  set (n := String.length pre) in *. set (k := String.length t0) in *.
  assert (Hlast : (RuneSelf ≤ bytes.at_ (pre +:+ String c0 t0) (n + S k - 1))%N).
  { replace (n + S k - 1)%nat with (n + S (k - 1))%nat by lia.
    unfold n. rewrite at_app, at_cons.
    destruct (at_all _ t0 (k - 1) Hcont) as (c & Hc & [Hge _]%andb_prop); [lia|].
    rewrite Hc. apply N.leb_le in Hge. exact Hge. }
  destruct (N.ltb_spec (bytes.at_ (pre +:+ String c0 t0) (n + S k - 1)) RuneSelf)
    as [|_]; [lia|].
  rewrite (findStart_found _ _ (Z.of_nat n)).
  - rewrite Z.max_r, Nat2Z.id by lia.
    assert (Hdrop : bytes.drop n (pre +:+ String c0 t0) = String c0 t0).
    { unfold n. by rewrite drop_app, drop_all by done. }
    rewrite Hdrop, H.
    destruct (decodeBody sz lo hi c0 t0) as [r size]. cbn [snd] in Hlen.
    rewrite Hlen. cbn [String.length]. fold k.
    by rewrite Nat.eqb_refl.
  - unfold UTFMax. lia.
  - unfold UTFMax. lia.
  - intros q Hq.
    replace (Z.to_nat q) with (n + S (Z.to_nat q - n - 1))%nat by lia.
    unfold n. rewrite at_app, at_cons.
    destruct (at_all _ t0 (Z.to_nat q - String.length pre - 1) Hcont)
      as (c & Hc & Hr); [fold n k; lia|].
    rewrite Hc, RuneStart_byte. by rewrite Hr.
  - rewrite Nat2Z.id. replace n with (n + 0)%nat at 1 by lia.
    unfold n. rewrite at_app. cbn [bytes.at_ get].
    rewrite RuneStart_byte. apply negb_true_iff, andb_false_iff. right.
    apply N.leb_gt. lia.
Qed.

(** A solid text that is not empty ends with a rune that is not white
    space. *)
Lemma Solid_last f :
  Solid f → f ≠ "" →
  ∃ pre chunk,
    f = pre +:+ chunk ∧ chunk ≠ ""
    ∧ isError (DecodeRuneInString chunk) = false
    ∧ snd (DecodeRuneInString chunk) = String.length chunk
    ∧ unicode.IsSpace (fst (DecodeRuneInString chunk)) = false.
Proof.
  induction 1 as [|f Hne Herr Hns Hrest IH]; [done|intros _].
  pose proof (decode_width f Hne) as Hw.
  destruct (bytes.drop (snd (DecodeRuneInString f)) f) as [|c r] eqn:Ed.
  - exists "", f. split_and!; try done.
    pose proof (drop_length (snd (DecodeRuneInString f)) f) as Hl.
    rewrite Ed in Hl. cbn in Hl. lia.
  - destruct IH as (pre & chunk & Hf & Hc); [done|].
    exists (bytes.take (snd (DecodeRuneInString f)) f +:+ pre), chunk.
    split; [|done]. by rewrite app_assoc', <- Hf, <- Ed, take_drop.
Qed.

Lemma Join_last_word l :
  l ≠ [] → Forall (fun f => word f = true) l →
  ∃ pre f, Join l " " = pre +:+ f ∧ word f = true.
Proof.
  intros Hne Hl. induction Hl as [|f l Hf Hl IH]; [done|].
  destruct l as [|f' l']; [by exists "", f|].
  destruct IH as (pre & g & Hg & Hw); [done|].
  exists (f +:+ " " +:+ pre), g. split; [|done].
  change (Join (f :: f' :: l') " ") with (f +:+ " " +:+ Join (f' :: l') " ").
  by rewrite Hg, !app_assoc'.
Qed.

(** Words joined by spaces are trimmed. *)
Lemma Join_trimmed l :
  Forall (fun f => word f = true) l → trimmed (Join l " ").
Proof.
  intros Hl. destruct l as [|f0 l0]; [by left|]. right. split.
  - pose proof Hl as [[Hne Hs]%word_Solid _]%Forall_cons.
    destruct Hs as [|f Hne' Herr Hns _]; [done|].
    destruct l0 as [|f1 l1]; [done|].
    change (Join (f :: f1 :: l1) " ") with (f +:+ " " +:+ Join (f1 :: l1) " ").
    by rewrite decode_app.
  - destruct (Join_last_word (f0 :: l0)) as (pre & f & -> & [Hne Hs]%word_Solid);
      [done|done|].
    destruct (Solid_last f Hs Hne) as (pre' & chunk & -> & Hc & Herr & Hlen & Hns).
    by rewrite <- app_assoc', decodeLast_rune.
Qed.

(** Putting words joined by spaces on one line changes nothing. *)
Lemma oneLine_words l :
  Forall (fun f => word f = true) l → oneLine (Join l " ") = Join l " ".
Proof.
  intros Hl. unfold oneLine.
  rewrite (TrimSpace_fixed _ (Join_trimmed l Hl)). by rewrite Fields_Join.
Qed.

End last_facts.

(** ** Fields of valid text *)

Section fields_facts.
Import utf8 strings.

Lemma Solid_app a b : Solid a → Solid b → Solid (a +:+ b).
Proof.
  induction 1 as [|a Hne Herr Hns _ IH]; intros Hb; [done|].
  pose proof (decode_width a Hne) as Hw.
  pose proof (decode_app a b Hne Herr) as Hd.
  apply Solid_rune.
  - destruct a; [done|]. by rewrite app_cons.
  - by rewrite Hd.
  - by rewrite Hd.
  - rewrite Hd, drop_app by lia. by apply IH.
Qed.

Lemma Solid_solidFrom n s :
  Solid s → (String.length s ≤ n)%nat → solidFrom n s = true.
Proof.
  intros Hs. revert n. induction Hs as [|s Hne Herr Hns _ IH]; intros n Hn.
  { by destruct n. }
  pose proof (decode_width s Hne) as Hw.
  destruct s as [|c t]; [done|]. set (s := String c t) in *.
  destruct n as [|n]; [cbn in Hn; lia|].
  change (solidFrom (S n) s) with
    (negb (isError (DecodeRuneInString s))
     && negb (unicode.IsSpace (fst (DecodeRuneInString s)))
     && solidFrom n (bytes.drop (snd (DecodeRuneInString s)) s)).
  rewrite Herr, Hns, IH; [done|]. rewrite drop_length. lia.
Qed.

Lemma Solid_word f : f ≠ "" → Solid f → word f = true.
Proof.
  intros Hne Hs. unfold word. rewrite (Solid_solidFrom _ _ Hs) by done.
  by destruct f.
Qed.

(** The bytes of one rune that is well encoded and not white space. *)
Lemma Solid_take_rune s :
  s ≠ "" → isError (DecodeRuneInString s) = false →
  unicode.IsSpace (fst (DecodeRuneInString s)) = false →
  Solid (bytes.take (snd (DecodeRuneInString s)) s).
Proof.
  intros Hne Herr Hns.
  pose proof (decode_width s Hne) as Hw.
  pose proof (decode_prefix s "" Hne Herr) as Hd. rewrite app_nil_r in Hd.
  apply Solid_rune.
  - apply take_nonempty; [lia|done].
  - by rewrite Hd.
  - by rewrite Hd.
  - rewrite Hd, drop_take. constructor.
Qed.

(** The fields of valid text are words. *)
Lemma fieldsLoop_words t :
  Valid t →
  ∀ n cur,
    (∀ w, cur = Some w → word w = true) →
    Forall (fun f => word f = true) (fieldsLoop n t unicode.IsSpace cur).
Proof.
  induction 1 as [|t Hne Herr _ IH]; intros n cur Hcur.
  { destruct n, cur as [w|]; cbn; repeat constructor; by apply Hcur. }
  destruct n as [|n].
  { destruct cur as [w|]; cbn; repeat constructor; by apply Hcur. }
  pose proof (decode_width t Hne) as Hw.
  pose proof (Solid_take_rune t Hne Herr) as Hr.
  destruct t as [|c t']; [done|]. set (t := String c t') in *.
  change (fieldsLoop (S n) t unicode.IsSpace cur) with
    (let '(r, wid) := DecodeRuneInString t in
     let rest := bytes.drop wid t in
     if unicode.IsSpace r then
       match cur with
       | Some w => w :: fieldsLoop n rest unicode.IsSpace None
       | None => fieldsLoop n rest unicode.IsSpace None
       end
     else
       fieldsLoop n rest unicode.IsSpace
         (Some (match cur with
                | Some w => w +:+ bytes.take wid t
                | None => bytes.take wid t
                end))).
  destruct (DecodeRuneInString t) as [r wid]. cbn [fst snd] in *. cbv zeta.
  destruct (unicode.IsSpace r).
  - destruct cur as [w|].
    + constructor; [by apply Hcur|]. by apply IH.
    + by apply IH.
  - apply IH. intros w [= <-].
    assert (Hchunk : bytes.take wid t ≠ "") by (apply take_nonempty; [lia|done]).
    destruct cur as [w|].
    + destruct (word_Solid w (Hcur w eq_refl)) as [Hwne Hws].
      apply Solid_word; [by destruct w|]. apply Solid_app; [done|by apply Hr].
    + apply Solid_word; [done|by apply Hr].
Qed.

Lemma at_take n s i :
  (i < n)%nat → bytes.at_ (bytes.take n s) i = bytes.at_ s i.
Proof.
  revert s i. induction n as [|n IH]; intros [|c s] [|i] Hi; try done; try lia.
  cbn [bytes.take]. rewrite !at_cons. apply IH. lia.
Qed.

(** A byte that starts a well-encoded rune is not a continuation byte. *)
Lemma decode_start c t :
  isError (DecodeRuneInString (String c t)) = false →
  ((0x80 <=? N_of_ascii c)%N && (N_of_ascii c <=? 0xBF)%N) = false.
Proof.
  intros Herr. apply andb_false_iff.
  destruct (N.eq_dec (first (N_of_ascii c)) as_) as [Has|Has].
  { apply first_as in Has. left. apply N.leb_gt. lia. }
  destruct (N.eq_dec (first (N_of_ascii c)) xx) as [Hxx|Hxx].
  { rewrite decode_cons in Herr. cbv zeta in Herr. by rewrite Hxx in Herr. }
  apply first_lead in Has; [|done]. right. apply N.leb_gt. lia.
Qed.

(** A well-encoded rune does not run over the start of another. *)
Lemma decode_no_overlap x y :
  x ≠ "" →
  isError (DecodeRuneInString (x +:+ y)) = false →
  y = "" ∨ isError (DecodeRuneInString y) = false →
  (snd (DecodeRuneInString (x +:+ y)) ≤ String.length x)%nat.
Proof.
  intros Hnex Herr Hy.
  destruct (le_lt_dec (snd (DecodeRuneInString (x +:+ y))) (String.length x))
    as [Hle|Hgt]; [done|exfalso].
  destruct x as [|c0 x0]; [done|]. rewrite app_cons in Herr, Hgt.
  cbn [String.length] in Hgt.
  destruct (N.eq_dec (first (N_of_ascii c0)) as_) as [Has|Has].
  { apply first_as in Has. rewrite decode_ascii in Hgt by done. cbn in Hgt. lia. }
  destruct (N.eq_dec (first (N_of_ascii c0)) xx) as [Hxx|Hxx].
  { rewrite decode_cons in Herr. cbv zeta in Herr. by rewrite Hxx in Herr. }
  destruct (decode_lead c0 Has Hxx) as (Hc0 & sz & lo & hi & Hsz & Hlo & Hhi & H).
  rewrite H in Herr, Hgt.
  pose proof (decodeBody_width sz lo hi c0 (x0 +:+ y) Hsz) as [Hw _].
  pose proof (decodeBody_prefix sz lo hi c0 (x0 +:+ y) "" Hsz Herr) as Hp.
  destruct (snd (decodeBody sz lo hi c0 (x0 +:+ y))) as [|w] eqn:Ew; [lia|].
  cbn [bytes.take String.length] in Hp, Hw.
  rewrite app_cons, app_nil_r in Hp. cbn [bytes.drop] in Hp.
  rewrite app_length' in Hw.
  assert (Hlen : String.length (bytes.take w (x0 +:+ y)) = w).
  { apply take_length. rewrite app_length'. lia. }
  destruct (decodeBody_shape sz lo hi c0 (bytes.take w (x0 +:+ y)) Hsz Hlo Hhi)
    as [_ Hcont].
  { by rewrite Hp. }
  { rewrite Hp, Ew. cbn [String.length]. by rewrite Hlen. }
  destruct (at_all _ _ (String.length x0) Hcont) as (c & Hc & Hcc); [lia|].
  rewrite at_take in Hc by lia.
  rewrite <- (Nat.add_0_r (String.length x0)) in Hc.
  rewrite at_app in Hc.
  destruct y as [|d y']; [cbn in Hw; lia|]. destruct Hy as [|Hy]; [done|].
  apply decode_start in Hy. change (N_of_ascii d = N_of_ascii c) in Hc.
  cbn beta in Hcc. rewrite <- Hc in Hcc. congruence.
Qed.

(** A prefix of valid text that ends where a rune starts is valid. *)
Lemma Valid_prefix n :
  ∀ x y, (String.length x ≤ n)%nat →
         Valid (x +:+ y) →
         y = "" ∨ isError (DecodeRuneInString y) = false →
         Valid x.
Proof.
  induction n as [|n IH]; intros x y Hn Hv Hy.
  { destruct x; [constructor|cbn in Hn; lia]. }
  destruct x as [|c0 x0]; [constructor|].
  set (x := String c0 x0) in *. assert (Hnex : x ≠ "") by done.
  inversion Hv as [|? _ Herr Hrest]; subst.
  pose proof (decode_no_overlap x y Hnex Herr Hy) as Hle.
  assert (Hnes : x +:+ y ≠ "") by (unfold x; by rewrite app_cons).
  pose proof (decode_width _ Hnes) as Hw.
  remember (snd (DecodeRuneInString (x +:+ y))) as wid eqn:Hwid.
  assert (Hd : DecodeRuneInString x = DecodeRuneInString (x +:+ y)).
  { pose proof (decode_prefix (x +:+ y) (bytes.drop wid x) Hnes Herr) as Hp.
    rewrite <- Hwid in Hp. rewrite <- Hp. f_equal.
    rewrite <- (take_drop wid x) at 1. f_equal.
    rewrite <- (take_drop wid x) at 2. rewrite app_assoc'.
    rewrite <- (take_length wid x) at 2 by done.
    symmetry. apply take_app_length. }
  apply Valid_rune; [done|by rewrite Hd|]. rewrite Hd, <- Hwid.
  rewrite drop_app in Hrest by done.
  apply (IH _ y); [|done|done].
  rewrite drop_length. lia.
Qed.

Lemma indexFunc_Valid n s i j :
  Valid s →
  indexFunc n s unicode.IsSpace false i = Some j →
  ∃ k, j = (i + k)%nat ∧ Valid (bytes.drop k s).
Proof.
  intros Hv. revert n i. induction Hv as [|s Hne Herr Hrest IH]; intros n i.
  { by destruct n. }
  destruct n as [|n]; [done|].
  destruct s as [|c t]; [done|]. set (s := String c t) in *.
  change (indexFunc (S n) s unicode.IsSpace false i) with
    (let '(r, wid) := DecodeRuneInString s in
     if Bool.eqb (unicode.IsSpace r) false then Some i
     else indexFunc n (bytes.drop wid s) unicode.IsSpace false (i + wid)).
  destruct (DecodeRuneInString s) as [r wid] eqn:Ed. cbn [snd] in *.
  destruct (Bool.eqb (unicode.IsSpace r) false).
  - intros [= <-]. exists 0%nat. split; [lia|].
    change (bytes.drop 0 s) with s. apply Valid_rune; [done|by rewrite Ed|].
    by rewrite Ed.
  - intros (k & -> & Hk)%IH. exists (wid + k)%nat. split; [lia|].
    assert (Hdd : bytes.drop (wid + k) s = bytes.drop k (bytes.drop wid s)).
    { clear. generalize s. induction wid as [|wid IHw]; intros [|c0 s0]; cbn; try done.
      by destruct k. }
    by rewrite Hdd.
Qed.

(** Trimming valid text leaves valid text. *)
Lemma TrimSpace_Valid s : Valid s → Valid (TrimSpace s).
Proof.
  intros Hv. unfold TrimSpace, TrimFunc, TrimLeftFunc.
  destruct (indexFunc (String.length s) s unicode.IsSpace false 0) as [j|] eqn:Ei;
    [|constructor].
  apply (indexFunc_Valid _ _ _ _ Hv) in Ei as (k & -> & Hk). cbn [Nat.add].
  set (l := bytes.drop k s) in *. unfold TrimRightFunc.
  destruct (lastIndexFunc (String.length l) l unicode.IsSpace false) as [i|] eqn:El;
    [|constructor].
  apply lastIndexFunc_Some in El as (e & He & Hnee & Hlast & -> & Hall).
  rewrite (TrimRightFunc_cut l e He Hnee Hall).
  apply (Valid_prefix (String.length l) _ (bytes.drop e l)).
  - rewrite take_length; lia.
  - by rewrite take_drop.
  - by apply AllSpace_start.
Qed.

(** Valid text put on one line is words joined by spaces. *)
Lemma oneLine_Valid s :
  Valid s →
  ∃ l, Forall (fun f => word f = true) l ∧ oneLine s = Join l " ".
Proof.
  intros Hv%TrimSpace_Valid. exists (Fields (TrimSpace s)). split; [|done].
  by apply fieldsLoop_words.
Qed.

End fields_facts.

(** ** The node tree *)

Section Node_induction.
Import html.
Variable P : Node → Prop.
Hypothesis step : ∀ ty atom data ns attr ch,
    Forall P ch → P (mkNode ty atom data ns attr ch).

(** Induction on a tree, with the property at hand for every child. *)
Lemma Node_induction (n : Node) : P n.
Proof.
  revert n. fix IH 1. intros [ty atom data ns attr ch]. apply step.
  induction ch as [|c ch IHch]; constructor; [apply IH|exact IHch].
Qed.
End Node_induction.

Section dom_facts.
Import html dom.

(** The clone has the elements of the original, in the same order. *)
Lemma finder_cloneTree tagName n :
  finder tagName (cloneTree n) = map cloneTree (finder tagName n).
Proof.
  induction n as [ty atom data ns attr ch IH] using Node_induction.
  cbn [cloneTree finder]. rewrite map_app. f_equal.
  - by destruct (_ && _).
  - induction IH as [|c l Hc _ IHl]; [done|].
    cbn [map flat_map]. by rewrite map_app, Hc, IHl.
Qed.

Lemma GetElementsByTagName_cloneTree tagName n :
  GetElementsByTagName (cloneTree n) tagName
  = map cloneTree (GetElementsByTagName n tagName).
Proof.
  destruct n as [ty atom data ns attr ch]. unfold GetElementsByTagName.
  cbn [cloneTree Children].
  induction ch as [|c l IH]; [done|].
  cbn [map flat_map]. by rewrite map_app, finder_cloneTree, IH.
Qed.

End dom_facts.

(** ** The parser *)

Section Readability_facts.
Context {Time URL Reader parseAttempt : Type}.
Context {L : Libraries Time URL Reader parseAttempt}.
Context {I : Internals URL parseAttempt}.

Implicit Types (w : @World URL parseAttempt) (pageURL : option URL).

Lemma ParseDocument_steps doc pageURL w :
  ParseDocument doc pageURL w =
  w0 ← started doc pageURL w;
  over ← overLimit w0;
  match over with
  | Some n => Some ((zeroArticle, Some (Errorf_tooLarge n)), w0)
  | None =>
    let '(metadata, articleContent, w1) := fetched w0 in
    match articleContent with
    | Some ac =>
      '(content, w2) ← container ac w1;
      Some (assembled pageURL (withExcerpt metadata content)
                      ((fun i => (ac, i)) <$> dom.FirstElementChild content)
                      (dom.InnerHTML html_Render content)
                      (strings.TrimSpace (dom.TextContent content)) w2)
    | None => Some (assembled pageURL metadata None EmptyString EmptyString w1)
    end
  end.
Proof.
  unfold ParseDocument, started.
  destruct (dom_Clone doc w) as [[c w1]|]; [|reflexivity].
  cbn [mbind option_bind].
  set (w0 := with_parser w1 _).
  unfold overLimit.
  destruct (if (0 <? MaxElemsToParse (parser w0))%Z then numTags w0 else Some 0%Z)
    as [n|]; [|reflexivity].
  cbn [mbind option_bind].
  destruct ((0 <? MaxElemsToParse (parser w0))%Z && (MaxElemsToParse (parser w0) <? n)%Z);
    [reflexivity|].
  unfold fetched.
  set (wa := unwrapNoscriptImages _ _).
  destruct (if DisableJSONLD (parser wa) then _ else _) as [jsonLd wb].
  destruct (getArticleMetadata _ _) as [metadata wc].
  destruct (grabArticle _) as [[ac|] wd].
  - unfold container. destruct (heap _ !! ac) as [content|]; [|reflexivity].
    cbn [mbind option_bind].
    unfold assembled, withExcerpt, finalByline, oneLine, replacementTitle.
    do 2 destruct (getDate _ _). reflexivity.
  - cbn [mbind option_bind].
    unfold assembled, finalByline, oneLine, replacementTitle.
    do 2 destruct (getDate _ _). reflexivity.
Qed.

(** The world after the clone and the reset. *)
Lemma started_Some doc pageURL w t :
  heap w !! doc = Some t →
  started doc pageURL w =
  Some (mkWorld (resetParser (parser w) (fresh (dom (heap w))) pageURL)
                (<[fresh (dom (heap w)) := dom.cloneTree t]> (heap w))
                (stdout w)).
Proof. intros Ht. unfold started, dom_Clone. by rewrite Ht. Qed.

Lemma started_inv doc pageURL w w0 :
  started doc pageURL w = Some w0 →
  ∃ t, heap w !! doc = Some t
       ∧ w0 = mkWorld (resetParser (parser w) (fresh (dom (heap w))) pageURL)
                      (<[fresh (dom (heap w)) := dom.cloneTree t]> (heap w))
                      (stdout w).
Proof.
  intros Hs. destruct (heap w !! doc) as [t|] eqn:Ht.
  - exists t. split; [done|]. rewrite (started_Some _ _ _ _ Ht) in Hs. by injection Hs.
  - unfold started, dom_Clone in Hs. by rewrite Ht in Hs.
Qed.

(** The element count of the working document is that of the original. *)
Lemma numTags_started doc pageURL w w0 t :
  heap w !! doc = Some t →
  started doc pageURL w = Some w0 →
  numTags w0 = Some (Z.of_nat (length (dom.GetElementsByTagName t "*"))).
Proof.
  intros Ht Hs. rewrite (started_Some _ _ _ _ Ht) in Hs. injection Hs as <-.
  unfold numTags, ps_doc. cbn. rewrite lookup_insert_eq. cbn.
  by rewrite GetElementsByTagName_cloneTree, length_map.
Qed.

(** An error from [ParseDocument] is the size error, raised over a
    positive limit, with the zero [Article]. *)
Lemma ParseDocument_error doc pageURL w a e w' :
  ParseDocument doc pageURL w = Some ((a, Some e), w') →
  ∃ n, a = zeroArticle ∧ e = Errorf_tooLarge n
       ∧ started doc pageURL w = Some w'
       ∧ numTags w' = Some n
       ∧ (0 < MaxElemsToParse (parser w') < n)%Z.
Proof.
  rewrite ParseDocument_steps.
  destruct (started doc pageURL w) as [w0|]; [|done]. cbn [mbind option_bind].
  unfold overLimit.
  destruct (0 <? MaxElemsToParse (parser w0))%Z eqn:Epos; cbn [andb].
  - destruct (numTags w0) as [n|] eqn:En; [|done]. cbn [mbind option_bind].
    destruct (MaxElemsToParse (parser w0) <? n)%Z eqn:Elt.
    + intros [= <- <- <-]. exists n. split_and!; try done; lia.
    + destruct (fetched w0) as [[md [ac|]] w1]; [|done].
      by destruct (container ac w1) as [[??]|].
  - cbn [mbind option_bind].
    destruct (fetched w0) as [[md [ac|]] w1]; [|done].
    by destruct (container ac w1) as [[??]|].
Qed.

Lemma overLimit_started doc pageURL w w0 t :
  heap w !! doc = Some t →
  started doc pageURL w = Some w0 →
  let n := Z.of_nat (length (dom.GetElementsByTagName t "*")) in
  overLimit w0 =
  Some (if (0 <? MaxElemsToParse (parser w))%Z && (MaxElemsToParse (parser w) <? n)%Z
        then Some n else None).
Proof.
  intros Ht Hs n. unfold overLimit.
  rewrite (numTags_started _ _ _ _ _ Ht Hs). fold n.
  apply started_inv in Hs as (? & _ & ->). cbn [parser resetParser MaxElemsToParse].
  destruct (0 <? MaxElemsToParse (parser w))%Z; [done|].
  cbn. done.
Qed.

(** C3: a document within the limit, or any document when the limit is 0
    (or negative), never gets the document-too-large error, nor any other;
    a document over a positive limit gets it, and the world returned is the
    one the reset left: no helper has run. *)
Theorem size_limit doc pageURL w t :
  heap w !! doc = Some t →
  let n := Z.of_nat (length (dom.GetElementsByTagName t "*")) in
  let limit := MaxElemsToParse (parser w) in
  let c := fresh (dom (heap w)) in
  ((limit ≤ 0 ∨ n ≤ limit)%Z →
     ∀ a e w', ParseDocument doc pageURL w ≠ Some ((a, Some e), w'))
  ∧ ((0 < limit < n)%Z →
     ParseDocument doc pageURL w =
     Some ((zeroArticle, Some (Errorf_tooLarge n)),
           mkWorld (resetParser (parser w) c pageURL)
                   (<[c := dom.cloneTree t]> (heap w)) (stdout w))).
Proof.
  intros Ht n limit c. split.
  - intros Hle a e w' (m & _ & _ & Hs & Hm & Hlt)%ParseDocument_error.
    rewrite (numTags_started _ _ _ _ _ Ht Hs) in Hm. injection Hm as <-.
    apply started_inv in Hs as (? & _ & ->). cbn in Hlt. fold n limit in Hlt. lia.
  - intros Hlt. rewrite ParseDocument_steps.
    pose proof (started_Some doc pageURL w t Ht) as Hs. rewrite Hs.
    cbn [mbind option_bind].
    rewrite (overLimit_started _ _ _ _ _ Ht Hs). fold n limit.
    replace (0 <? limit)%Z with true by (symmetry; apply Z.ltb_lt; lia).
    replace (limit <? n)%Z with true by (symmetry; apply Z.ltb_lt; lia).
    done.
Qed.

(** C10: whenever [Parse] or [ParseDocument] returns an error, the
    [Article] returned with it is the zero value; the error is the wrapped
    failure of the HTML parser or the size error. *)
Theorem error_with_zero_article input doc pageURL w a e w' :
  Parse input pageURL w = Some ((a, Some e), w')
  ∨ ParseDocument doc pageURL w = Some ((a, Some e), w') →
  a = zeroArticle
  ∧ ((∃ err, e = Errorf_parse err) ∨ (∃ n, e = Errorf_tooLarge n)).
Proof.
  intros [H|H].
  - unfold Parse in H. destruct (dom_Parse input w) as [[d|err] w1].
    + apply ParseDocument_error in H as (n & -> & -> & _). eauto.
    + injection H as <- <- <-. eauto.
  - apply ParseDocument_error in H as (n & -> & -> & _). eauto.
Qed.

(** The failure of the HTML parser is returned, wrapped. *)
Lemma Parse_failure input pageURL w err w1 :
  dom_Parse input w = (inr err, w1) →
  Parse input pageURL w = Some ((zeroArticle, Some (Errorf_parse err)), w1).
Proof. intros H. unfold Parse. by rewrite H. Qed.

Lemma tryFormats_spec fs dateStr :
  match tryFormats fs dateStr with
  | (Some t, out) =>
    out = []
    ∧ ∃ pre layout post,
        fs = (pre ++ layout :: post)%list
        ∧ time_Parse layout dateStr = Some t
        ∧ Forall (fun l => time_Parse l dateStr = None) pre
  | (None, out) =>
    Forall (fun l => time_Parse l dateStr = None) fs
    ∧ out = match fs with [] => [] | _ :: _ => [failedToParse dateStr] end
  end.
Proof.
  induction fs as [|format rest IH]; [by split|].
  cbn [tryFormats]. destruct (time_Parse format dateStr) as [t|] eqn:Ep.
  - split; [done|]. by exists [], format, rest.
  - destruct rest as [|format' rest'].
    + split; [|done]. by repeat constructor.
    + destruct (tryFormats (format' :: rest') dateStr) as [[t|] out].
      * destruct IH as (-> & pre & layout & post & -> & Hl & Hpre).
        split; [done|]. exists (format :: pre), layout, post.
        split_and!; [done|done|by constructor].
      * destruct IH as [Hall ->]. split; [by constructor|done].
Qed.

(** C6: [getParsedDate] returns the time parsed by the first layout of
    [formats] that accepts the string; when no layout accepts it, the
    result is nil, and a line is printed: there is no error to return. *)
Theorem getParsedDate_first_match dateStr :
  match getParsedDate dateStr with
  | (Some t, out) =>
    out = []
    ∧ ∃ pre layout post,
        formats = (pre ++ layout :: post)%list
        ∧ time_Parse layout dateStr = Some t
        ∧ Forall (fun l => time_Parse l dateStr = None) pre
  | (None, out) =>
    Forall (fun l => time_Parse l dateStr = None) formats
    ∧ out = [failedToParse dateStr]
  end.
Proof.
  unfold getParsedDate.
  pose proof (tryFormats_spec formats dateStr) as H.
  destruct (tryFormats formats dateStr) as [[t|] out]; [done|].
  destruct H as [Hall ->]. split; [done|]. reflexivity.
Qed.

End Readability_facts.

Section start_facts.
Context {Time URL Reader parseAttempt : Type}.
Context {L : Libraries Time URL Reader parseAttempt}.
Context {I : Internals URL parseAttempt}.


End start_facts.

(** ** The caller's document *)

Section frame_facts.
Context {Time URL Reader parseAttempt : Type}.
Context {L : Libraries Time URL Reader parseAttempt}.
Context {I : Internals URL parseAttempt}.
Context {WB : WellBehaved}.

Implicit Types (w x : @World URL parseAttempt) (h : gmap nat html.Node).

Lemma keeps_confined h c arg x x' :
  c ∉ dom h →
  keeps h c x →
  confined arg x x' →
  (∀ a, arg = Some a → a ∉ dom h) →
  keeps h c x'.
Proof.
  intros Hc [Hd Hk] (Hd' & _ & Hf) Harg. split; [congruence|].
  intros l Hl. rewrite <- (Hk l Hl). apply Hf.
  - apply elem_of_dom. rewrite (Hk l Hl). by apply elem_of_dom.
  - rewrite Hd. intros [= ->]. done.
  - intros Heq. by apply (Harg l).
Qed.

Lemma keeps_doc_arg h c x a : c ∉ dom h → keeps h c x → ps_doc x = Some a → a ∉ dom h.
Proof. intros Hc [Hd _] Ha. congruence. Qed.

Lemma keeps_started doc pageURL w w0 :
  started doc pageURL w = Some w0 →
  keeps (heap w) (fresh (dom (heap w))) w0.
Proof.
  intros (t & _ & ->)%started_inv. split; [done|].
  intros l Hl. cbn. apply lookup_insert_ne. intros <-.
  by apply is_fresh in Hl.
Qed.

(** The helpers up to [grabArticle] keep the caller's trees; the
    container they return is live, and is none of the caller's. *)
Lemma fetched_keeps h c w0 md ac w1 :
  c ∉ dom h →
  keeps h c w0 →
  fetched w0 = (md, ac, w1) →
  keeps h c w1 ∧ ∀ a, ac = Some a → (a ∉ dom h) ∧ (a ∈ dom (heap w1)).
Proof.
  intros Hc K0. unfold fetched.
  set (wa := unwrapNoscriptImages (ps_doc w0) w0).
  assert (Ka : keeps h c wa).
  { eapply keeps_confined; [done|exact K0|apply unwrapNoscriptImages_confined|].
    intros a. by apply (keeps_doc_arg h c w0). }
  assert (Kb : keeps h c
            (snd (if DisableJSONLD (parser wa) then (∅, wa)
                  else let '(m, _, w') := getJSONLD wa in (m, w')))).
  { destruct (DisableJSONLD (parser wa)); [done|].
    pose proof (getJSONLD_confined wa) as Hj.
    destruct (getJSONLD wa) as [[m e] wj]. cbn in *.
    eapply keeps_confined; [done|exact Ka|exact Hj|done]. }
  destruct (if DisableJSONLD (parser wa) then _ else _) as [jsonLd wb].
  cbn [snd] in Kb.
  set (wc := removeScripts (ps_doc wb) wb).
  assert (Kc : keeps h c wc).
  { eapply keeps_confined; [done|exact Kb|apply removeScripts_confined|].
    intros a. by apply (keeps_doc_arg h c wb). }
  assert (Kd : keeps h c (prepDocument wc)).
  { eapply keeps_confined; [done|exact Kc|apply prepDocument_confined|done]. }
  pose proof (getArticleMetadata_confined jsonLd (prepDocument wc)) as Hm.
  destruct (getArticleMetadata jsonLd (prepDocument wc)) as [metadata we].
  cbn [snd] in Hm.
  assert (Ke : keeps h c we).
  { eapply keeps_confined; [done|exact Kd|exact Hm|done]. }
  set (wf := with_parser we _).
  assert (Kf : keeps h c wf) by exact Ke.
  pose proof (grabArticle_confined wf) as Hg.
  pose proof (grabArticle_container wf) as Hgc.
  destruct (grabArticle wf) as [articleContent wg]. cbn [fst snd] in Hg, Hgc.
  intros [= <- <- <-].
  split; [eapply keeps_confined; [done|exact Kf|exact Hg|done]|].
  intros a Ha. destruct (Hgc a Ha) as [Hlive Hown]. split; [|done].
  intros Hin. destruct Kf as [Hd Hk].
  assert (a ∈ dom (heap wf)) as Hin'.
  { apply elem_of_dom. rewrite (Hk a Hin). by apply elem_of_dom. }
  apply Hown in Hin'. congruence.
Qed.

Lemma container_keeps h c ac w1 :
  c ∉ dom h →
  keeps h c w1 →
  ac ∉ dom h →
  ac ∈ dom (heap w1) →
  ∃ content w2, container ac w1 = Some (content, w2) ∧ keeps h c w2.
Proof.
  intros Hc K1 Hac Hlive. unfold container.
  pose proof (postProcessContent_confined ac w1) as Hp.
  assert (Hlive' : ac ∈ dom (heap (postProcessContent ac w1))).
  { destruct Hp as (_ & Hsub & _). by apply Hsub. }
  apply elem_of_dom in Hlive' as [content Hcontent].
  exists content, (postProcessContent ac w1). rewrite Hcontent. split; [done|].
  eapply keeps_confined; [done|exact K1|exact Hp|]. by intros a [= <-].
Qed.

(** With well-behaved helpers, a call on a live document returns, and the
    world it leaves keeps the caller's trees. *)
Lemma ParseDocument_keeps doc pageURL w t :
  heap w !! doc = Some t →
  ∃ r w', ParseDocument doc pageURL w = Some (r, w')
          ∧ keeps (heap w) (fresh (dom (heap w))) w'.
Proof.
  intros Ht. rewrite ParseDocument_steps.
  pose proof (started_Some doc pageURL w t Ht) as Hs. rewrite Hs.
  cbn [mbind option_bind].
  set (w0 := mkWorld _ _ _) in *.
  pose proof (keeps_started _ _ _ _ Hs) as K0.
  assert (Hc : fresh (dom (heap w)) ∉ dom (heap w)) by apply is_fresh.
  rewrite (overLimit_started _ _ _ _ _ Ht Hs). cbn [mbind option_bind].
  destruct (_ && _); [by eexists _, _|].
  destruct (fetched w0) as [[md ac] w1] eqn:Ef.
  destruct (fetched_keeps _ _ _ _ _ _ Hc K0 Ef) as [K1 Hac].
  destruct ac as [ac|].
  - destruct (Hac ac eq_refl) as [Hnew Hlive].
    destruct (container_keeps _ _ _ _ Hc K1 Hnew Hlive) as (content & w2 & -> & K2).
    cbn [mbind option_bind]. eexists _, _. split; [reflexivity|]. exact K2.
  - eexists _, _. split; [reflexivity|]. exact K1.
Qed.

(** C2: the call works on a clone at an address the caller does not hold,
    and every tree the caller holds, the document among them, is after the
    call what it was before. *)
Theorem original_untouched doc pageURL w t :
  heap w !! doc = Some t →
  ∃ r w' c,
    ParseDocument doc pageURL w = Some (r, w')
    ∧ ps_doc w' = Some c
    ∧ (c ∉ dom (heap w))
    ∧ heap w' !! doc = Some t
    ∧ ∀ l, l ∈ dom (heap w) → heap w' !! l = heap w !! l.
Proof.
  intros Ht.
  destruct (ParseDocument_keeps doc pageURL w t Ht) as (r & w' & Hr & Hd & Hk).
  exists r, w', (fresh (dom (heap w))). split_and!; try done.
  - apply is_fresh.
  - rewrite Hk; [done|]. by apply elem_of_dom.
Qed.

End frame_facts.

(** ** The article *)

Section article_facts.
Context {Time URL Reader parseAttempt : Type}.
Context {L : Libraries Time URL Reader parseAttempt}.
Context {I : Internals URL parseAttempt}.

Implicit Types (w x : @World URL parseAttempt) (md : gmap string string).

(** A successful call went through the steps. *)
Lemma ParseDocument_ok doc pageURL w a w' :
  ParseDocument doc pageURL w = Some ((a, None), w') →
  ∃ w0 md ac w1,
    started doc pageURL w = Some w0
    ∧ overLimit w0 = Some None
    ∧ fetched w0 = (md, ac, w1)
    ∧ match ac with
      | None => (a, None, w') = assembled pageURL md None "" "" w1
      | Some l =>
        ∃ content w2,
          container l w1 = Some (content, w2)
          ∧ (a, None, w')
            = assembled pageURL (withExcerpt md content)
                        ((fun i => (l, i)) <$> dom.FirstElementChild content)
                        (dom.InnerHTML html_Render content)
                        (strings.TrimSpace (dom.TextContent content)) w2
      end.
Proof.
  rewrite ParseDocument_steps.
  destruct (started doc pageURL w) as [w0|] eqn:Es; [|done].
  cbn [mbind option_bind].
  destruct (overLimit w0) as [[n|]|] eqn:Eo; [done| |done].
  cbn [mbind option_bind].
  destruct (fetched w0) as [[md ac] w1] eqn:Ef.
  intros H. exists w0, md, ac, w1. split_and!; try done.
  destruct ac as [l|].
  - destruct (container l w1) as [[content w2]|] eqn:Ec; [|done].
    cbn [mbind option_bind] in H.
    exists content, w2. split; [done|congruence].
  - congruence.
Qed.

Lemma ParseDocument_assembled doc pageURL w a w' :
  ParseDocument doc pageURL w = Some ((a, None), w') →
  ∃ md node html text x, (a, None, w') = assembled pageURL md node html text x.
Proof.
  intros (w0 & md & [l|] & w1 & _ & _ & _ & H)%ParseDocument_ok.
  - destruct H as (content & w2 & _ & H). by eexists _, _, _, _, _.
  - by eexists _, _, _, _, _.
Qed.

Lemma fetched_metadata w0 md ac w1 :
  fetched w0 = (md, ac, w1) → ∃ j x, md = fst (getArticleMetadata j x).
Proof.
  unfold fetched.
  destruct (if DisableJSONLD _ then _ else _) as [jsonLd wb].
  destruct (getArticleMetadata jsonLd _) as [metadata we] eqn:Em.
  destruct (grabArticle _) as [articleContent wg].
  intros [= <- <- <-]. eexists _, _. by rewrite Em.
Qed.

Lemma withExcerpt_other md content k :
  k ≠ "excerpt" → withExcerpt md content !! k = md !! k.
Proof.
  intros Hk. unfold withExcerpt. destruct (String.eqb _ _); [|done].
  destruct (dom.GetElementsByTagName content "p"); [done|].
  by apply lookup_insert_ne.
Qed.

Lemma withExcerpt_first md content p0 ps :
  index md "excerpt" = "" →
  dom.GetElementsByTagName content "p" = p0 :: ps →
  index (withExcerpt md content) "excerpt"
  = strings.TrimSpace (dom.TextContent p0).
Proof.
  intros He Hp. unfold withExcerpt. rewrite He, Hp. cbn [String.eqb].
  unfold index. by rewrite lookup_insert_eq.
Qed.

Lemma container_heap ac w1 content w2 :
  container ac w1 = Some (content, w2) → heap w2 !! ac = Some content.
Proof.
  unfold container. destruct (heap _ !! ac) as [c|] eqn:E; [|done].
  by intros [= <- <-].
Qed.

(** C1, amended: [Length] is the character count of [TextContent], and
    is zero exactly when [TextContent] is empty, provided [charCount]
    gives zero on the empty string only.  When [Content] is empty, [Length]
    is zero, provided the trees in memory are as the HTML parser builds
    them and the serializer renders them. *)
Theorem length_zero_iff_no_text doc pageURL w a e w' :
  (∀ s, charCount s = 0%Z ↔ s = "") →
  ParseDocument doc pageURL w = Some ((a, e), w') →
  Length a = charCount (TextContent a)
  ∧ (Length a = 0%Z ↔ TextContent a = "")
  ∧ (dom.rendersMarkup html_Render →
     (∀ l content,
         heap w' !! l = Some content →
         html.built content = true
         ∧ is_Some (dom.renderAll html_Render (html.Children content))) →
     Content a = "" → Length a = 0%Z).
Proof.
  intros Hcount H.
  assert (Hlen : Length a = charCount (TextContent a)).
  { destruct e as [e|].
    - apply ParseDocument_error in H as (n & -> & _). cbn. symmetry.
      by apply Hcount.
    - apply ParseDocument_assembled in H as (md & node & html & text & x & H).
      by injection H as -> _. }
  split_and!; [done|rewrite Hlen; apply Hcount|].
  intros HR Hheap Hempty. rewrite Hlen. apply Hcount.
  destruct e as [e|].
  { by apply ParseDocument_error in H as (n & -> & _). }
  apply ParseDocument_ok in H as (w0 & md & [l|] & w1 & _ & _ & _ & H).
  - destruct H as (content & w2 & Hc%container_heap & H).
    injection H as -> ->. cbn [Content TextContent] in *.
    destruct (Hheap l content Hc) as [Hb Hr].
    by apply (InnerHTML_empty html_Render).
  - by injection H as -> _.
Qed.

(** C4: when the metadata record has no field under the misspelt name
    that [ParseDocument] reads, [ModifiedTime] is nil whatever the record
    holds. *)
Theorem modified_time_not_populated doc pageURL w a w' :
  (∀ j x, fst (getArticleMetadata j x) !! "dataModified" = None) →
  ParseDocument doc pageURL w = Some ((a, None), w') →
  ModifiedTime a = None.
Proof.
  intros Hkey (w0 & md & ac & w1 & _ & _ & Hf & H)%ParseDocument_ok.
  apply fetched_metadata in Hf as (j & x & ->).
  destruct ac as [l|].
  - destruct H as (content & w2 & _ & H). injection H as -> _.
    cbn [ModifiedTime]. unfold getDate.
    rewrite withExcerpt_other by done. by rewrite Hkey.
  - injection H as -> _. cbn [ModifiedTime]. unfold getDate. by rewrite Hkey.
Qed.

(** C5, amended: when the metadata has no excerpt and the container holds
    a paragraph, the excerpt is the trimmed text of the first paragraph put
    on one line (trimmed, its runs of white space replaced by one space
    each), with invalid UTF-8 removed. *)
Theorem excerpt_from_first_paragraph
        doc pageURL w w0 md ac w1 content w2 p0 ps :
  started doc pageURL w = Some w0 →
  overLimit w0 = Some None →
  fetched w0 = (md, Some ac, w1) →
  container ac w1 = Some (content, w2) →
  index md "excerpt" = "" →
  dom.GetElementsByTagName content "p" = p0 :: ps →
  ∃ a w',
    ParseDocument doc pageURL w = Some ((a, None), w')
    ∧ Excerpt a
      = strings.ToValidUTF8
          (strings.Join
             (strings.Fields
                (strings.TrimSpace (strings.TrimSpace (dom.TextContent p0))))
             " ") "".
Proof.
  intros Hs Ho Hf Hc He Hp. rewrite ParseDocument_steps, Hs.
  cbn [mbind option_bind]. rewrite Ho. cbn [mbind option_bind].
  rewrite Hf, Hc. cbn [mbind option_bind].
  eexists _, _. split; [reflexivity|]. cbn [Excerpt].
  by rewrite (withExcerpt_first _ _ _ _ He Hp).
Qed.


(** C8: whatever bytes the title, the byline and the excerpt hold, a call
    on a document within the limit whose container, if one is found, is in
    memory returns an [Article] and no error.  Its byline is what
    [ToValidUTF8] makes, with the empty string as replacement, of the byline
    of the metadata record [getArticleMetadata] returned (of the byline the
    parser holds when the record has none); its excerpt is what
    [ToValidUTF8] makes, with the empty string as replacement, of the
    excerpt of that record (after the fallback to the first paragraph of
    the container), put on one line; its title is what [ToValidUTF8] makes
    of the title the parser holds, with the page URL (the empty string when
    there is none) as replacement.  The byline and the excerpt are then
    valid UTF-8, and so is the title when the URL is; valid text is
    returned as it is. *)
Theorem encoding_repaired doc pageURL w w0 md ac w1 :
  started doc pageURL w = Some w0 →
  overLimit w0 = Some None →
  fetched w0 = (md, ac, w1) →
  (∀ l, ac = Some l → is_Some (container l w1)) →
  ∃ a w',
    ParseDocument doc pageURL w = Some ((a, None), w')
    ∧ Title a = strings.ToValidUTF8 (articleTitle (parser w'))
                                    (replacementTitle pageURL)
    ∧ Byline a = strings.ToValidUTF8 (finalByline md w') ""
    ∧ Excerpt a
      = strings.ToValidUTF8
          (oneLine
             (index
                match ac with
                | Some l =>
                  match heap w' !! l with
                  | Some content => withExcerpt md content
                  | None => md
                  end
                | None => md
                end "excerpt")) ""
    ∧ utf8.ValidString (Byline a) = true
    ∧ utf8.ValidString (Excerpt a) = true
    ∧ (utf8.ValidString (replacementTitle pageURL) = true →
       utf8.ValidString (Title a) = true)
    ∧ (utf8.ValidString (articleTitle (parser w')) = true →
       Title a = articleTitle (parser w'))
    ∧ (utf8.ValidString (finalByline md w') = true →
       Byline a = finalByline md w').
Proof.
  intros Hs Ho Hf Hc.
  assert (Hrun : ∃ md' node html text x,
             ParseDocument doc pageURL w
             = Some (assembled pageURL md' node html text x)
             ∧ finalByline md' x = finalByline md x
             ∧ md' = match ac with
                     | Some l =>
                       match heap x !! l with
                       | Some content => withExcerpt md content
                       | None => md
                       end
                     | None => md
                     end).
  { rewrite ParseDocument_steps, Hs. cbn [mbind option_bind].
    rewrite Ho. cbn [mbind option_bind]. rewrite Hf.
    destruct ac as [l|].
    - destruct (Hc l eq_refl) as [[content w2] Hcl]. rewrite Hcl.
      cbn [mbind option_bind]. eexists _, _, _, _, _. split; [reflexivity|].
      rewrite (container_heap _ _ _ _ Hcl). split; [|done].
      unfold finalByline, index. by rewrite withExcerpt_other.
    - by eexists _, _, _, _, _. }
  destruct Hrun as (md' & node & html & text & x & Hrun & Hby & Hmd).
  exists (fst (fst (assembled pageURL md' node html text x))),
         (snd (assembled pageURL md' node html text x)).
  cbn [assembled fst snd Title Byline Excerpt parser heap print].
  assert (Hbx : finalByline md (print x (snd (getDate md' "datePublished")
                                          ++ snd (getDate md' "dataModified")))
                = finalByline md x) by done.
  split; [exact Hrun|].
  rewrite Hbx, Hby, <- Hmd.
  split_and!.
  - done.
  - done.
  - done.
  - apply ValidString_Valid, ToValidUTF8_Valid. constructor.
  - apply ValidString_Valid, ToValidUTF8_Valid. constructor.
  - intros Hv%ValidString_Valid. by apply ValidString_Valid, ToValidUTF8_Valid.
  - intros Hv%ValidString_Valid. by apply ToValidUTF8_id.
  - intros Hv%ValidString_Valid. by apply ToValidUTF8_id.
Qed.

End article_facts.

(** ** The state of the parser *)

Section reset_facts.
Context {Time URL Reader parseAttempt : Type}.
Context {L : Libraries Time URL Reader parseAttempt}.
Context {I : Internals URL parseAttempt}.

Implicit Types (w : @World URL parseAttempt) (pageURL : option URL).

(** X1: a call reads nothing of what an earlier call left in the parser.
    Two parsers with the same [MaxElemsToParse] and [DisableJSONLD] give the
    same result and leave the same state, whatever their other fields
    hold. *)
Theorem leftover_state_ignored doc pageURL w p' :
  MaxElemsToParse p' = MaxElemsToParse (parser w) →
  DisableJSONLD p' = DisableJSONLD (parser w) →
  ParseDocument doc pageURL (with_parser w p') = ParseDocument doc pageURL w.
Proof.
  intros Hm Hd. rewrite !ParseDocument_steps.
  assert (started doc pageURL (with_parser w p') = started doc pageURL w) as ->;
    [|done].
  unfold started, dom_Clone. cbn [heap with_parser].
  destruct (heap w !! doc) as [t|]; [|done]. cbn.
  unfold resetParser. cbn. by rewrite Hm, Hd.
Qed.

End reset_facts.

(** ** JSON-LD *)

Section jsonld_facts.
Context {Time URL Reader parseAttempt : Type}.
Context {L : Libraries Time URL Reader parseAttempt}.
Context {I : Internals URL parseAttempt}.

Implicit Types (w : @World URL parseAttempt) (pageURL : option URL).

(** What [fetched] computes depends on [getJSONLD] through the record it
    returns and the world it leaves. *)
Lemma fetched_withJSONLD g w0 :
  (DisableJSONLD (parser (unwrapNoscriptImages (ps_doc w0) w0)) = true
   ∨ ∀ x, fst (fst (g x)) = fst (fst (getJSONLD x))
          ∧ snd (g x) = snd (getJSONLD x)) →
  fetched (I := withJSONLD g) w0 = fetched w0.
Proof.
  intros H. unfold fetched. cbn [unwrapNoscriptImages withJSONLD].
  set (wa := unwrapNoscriptImages _ _) in *.
  destruct (DisableJSONLD (parser wa)) eqn:Ed; [done|].
  destruct H as [H|H]; [done|].
  cbn [getJSONLD withJSONLD].
  specialize (H wa).
  destruct (g wa) as [[m e] x], (getJSONLD wa) as [[m' e'] x'].
  cbn in H. destruct H as [-> ->]. done.
Qed.

Lemma ParseDocument_withJSONLD g doc pageURL w :
  (∀ w0, started doc pageURL w = Some w0 →
         fetched (I := withJSONLD g) w0 = fetched w0) →
  ParseDocument (I := withJSONLD g) doc pageURL w = ParseDocument doc pageURL w.
Proof.
  intros H.
  rewrite (ParseDocument_steps (I := I)).
  rewrite (ParseDocument_steps (I := withJSONLD g)).
  destruct (started doc pageURL w) as [w0|]; [|done].
  cbn [mbind option_bind].
  destruct (overLimit w0) as [[n|]|]; [done| |done].
  cbn [mbind option_bind]. by rewrite (H w0 eq_refl).
Qed.

(** X2: when [DisableJSONLD] is set at the time it is read,
    [getJSONLD] is not called, and [getArticleMetadata] is given the nil
    map: the call is the same with any function in the place of
    [getJSONLD]. *)
Theorem jsonld_skipped_when_disabled doc pageURL w w0 g :
  started doc pageURL w = Some w0 →
  DisableJSONLD (parser (unwrapNoscriptImages (ps_doc w0) w0)) = true →
  ParseDocument (I := withJSONLD g) doc pageURL w = ParseDocument doc pageURL w
  ∧ ∃ x, fst (fst (fetched w0)) = fst (getArticleMetadata ∅ x).
Proof.
  intros Hs Hd. split.
  - apply ParseDocument_withJSONLD. intros w0' Hs'.
    assert (w0' = w0) as -> by congruence.
    apply fetched_withJSONLD. by left.
  - unfold fetched. rewrite Hd.
    destruct (getArticleMetadata _ _) as [metadata wc] eqn:Em.
    destruct (grabArticle _) as [ac wd]. cbn [fst].
    eexists. by rewrite Em.
Qed.

(** X3: the error [getJSONLD] returns is dropped.  A call is the same with
    a [getJSONLD] that returns the same record and leaves the same world,
    and another error or none. *)
Theorem jsonld_error_discarded doc pageURL w g :
  (∀ x, fst (fst (g x)) = fst (fst (getJSONLD x))
        ∧ snd (g x) = snd (getJSONLD x)) →
  ParseDocument (I := withJSONLD g) doc pageURL w = ParseDocument doc pageURL w.
Proof.
  intros H. apply ParseDocument_withJSONLD. intros w0 _.
  apply fetched_withJSONLD. by right.
Qed.

End jsonld_facts.

(** ** Dates *)

Section date_facts.
Context {Time URL Reader parseAttempt : Type}.
Context {L : Libraries Time URL Reader parseAttempt}.

(** X4: [getDate] gives nil, and prints nothing, for a field that is absent
    or empty; for any other value it gives the time of the first layout
    that accepts the value, and when none does, nil and one printed
    line. *)
Theorem getDate_result (metadata : gmap string string) fieldName :
  match metadata !! fieldName, getDate metadata fieldName with
  | Some (String c s), (Some t, out) =>
    out = []
    ∧ ∃ pre layout post,
        formats = (pre ++ layout :: post)%list
        ∧ time_Parse layout (String c s) = Some t
        ∧ Forall (fun l => time_Parse l (String c s) = None) pre
  | Some (String c s), (None, out) =>
    Forall (fun l => time_Parse l (String c s) = None) formats
    ∧ out = [failedToParse (String c s)]
  | _, r => r = (None, [])
  end.
Proof.
  unfold getDate. destruct (metadata !! fieldName) as [[|c s]|]; [done| |done].
  cbn [String.length Nat.ltb Nat.leb]. unfold getParsedDate.
  pose proof (tryFormats_spec formats (String c s)) as H.
  destruct (tryFormats formats (String c s)) as [[t|] out]; [done|].
  destruct H as [Hall ->]. split; [done|]. reflexivity.
Qed.

End date_facts.

(** ** The fields of the article *)

Section assembly_facts.
Context {Time URL Reader parseAttempt : Type}.
Context {L : Libraries Time URL Reader parseAttempt}.
Context {I : Internals URL parseAttempt}.

Implicit Types (w x : @World URL parseAttempt) (md : gmap string string).

(** A successful call, with the world after the reset and what [fetched]
    found in it at hand. *)
Lemma ParseDocument_at doc pageURL w w0 md ac w1 a w' :
  started doc pageURL w = Some w0 →
  fetched w0 = (md, ac, w1) →
  ParseDocument doc pageURL w = Some ((a, None), w') →
  match ac with
  | None => (a, None, w') = assembled pageURL md None "" "" w1
  | Some l =>
    ∃ content w2,
      container l w1 = Some (content, w2)
      ∧ (a, None, w')
        = assembled pageURL (withExcerpt md content)
                    ((fun i => (l, i)) <$> dom.FirstElementChild content)
                    (dom.InnerHTML html_Render content)
                    (strings.TrimSpace (dom.TextContent content)) w2
  end.
Proof.
  intros Hs Hf (w0' & md' & ac' & w1' & Hs' & _ & Hf' & H)%ParseDocument_ok.
  assert (w0' = w0) as -> by congruence.
  rewrite Hf in Hf'. by injection Hf' as <- <- <-.
Qed.

Lemma withExcerpt_index md content k :
  k ≠ "excerpt" → index (withExcerpt md content) k = index md k.
Proof. intros Hk. unfold index. by rewrite withExcerpt_other. Qed.

Lemma withExcerpt_getDate md content k :
  k ≠ "excerpt" → getDate (withExcerpt md content) k = getDate md k.
Proof. intros Hk. unfold getDate. by rewrite withExcerpt_other. Qed.

Lemma withExcerpt_given md content :
  index md "excerpt" ≠ "" → withExcerpt md content = md.
Proof.
  intros Hne. unfold withExcerpt.
  destruct (String.eqb_spec (index md "excerpt") ""); done.
Qed.

(** X5: the site name, the image and the favicon of the article are the
    values of the metadata record [getArticleMetadata] returned, as they
    are, and the publication time is read from its field [datePublished]:
    neither the content found nor the excerpt fallback changes them. *)
Theorem metadata_fields_copied doc pageURL w w0 md ac w1 a w' :
  started doc pageURL w = Some w0 →
  fetched w0 = (md, ac, w1) →
  ParseDocument doc pageURL w = Some ((a, None), w') →
  SiteName a = index md "siteName"
  ∧ Image a = index md "image"
  ∧ Favicon a = index md "favicon"
  ∧ PublishedTime a = fst (getDate md "datePublished").
Proof.
  intros Hs Hf H. pose proof (ParseDocument_at _ _ _ _ _ _ _ _ _ Hs Hf H) as Ha.
  destruct ac as [l|].
  - destruct Ha as (content & w2 & _ & Ha). injection Ha as -> _.
    cbn [SiteName Image Favicon PublishedTime].
    by rewrite !withExcerpt_index, withExcerpt_getDate.
  - by injection Ha as -> _.
Qed.

(** X8: the byline of the metadata record comes first; the byline the
    parser holds when the helpers are done is used only when the record
    has none. *)
Theorem metadata_byline_first doc pageURL w w0 md ac w1 a w' :
  started doc pageURL w = Some w0 →
  fetched w0 = (md, ac, w1) →
  ParseDocument doc pageURL w = Some ((a, None), w') →
  (index md "byline" ≠ "" →
   Byline a = strings.ToValidUTF8 (index md "byline") "")
  ∧ (index md "byline" = "" →
     Byline a = strings.ToValidUTF8 (articleByline (parser w')) "").
Proof.
  intros Hs Hf H. pose proof (ParseDocument_at _ _ _ _ _ _ _ _ _ Hs Hf H) as Ha.
  assert (Hb : ∃ x, parser w' = parser x
                    ∧ Byline a = strings.ToValidUTF8 (finalByline md x) "").
  { destruct ac as [l|].
    - destruct Ha as (content & w2 & _ & Ha). injection Ha as -> ->.
      exists w2. split; [done|]. cbn [Byline]. unfold finalByline.
      by rewrite withExcerpt_index.
    - injection Ha as -> ->. by exists w1. }
  destruct Hb as (x & Hp & ->). unfold finalByline. rewrite Hp.
  split; intros Hne.
  - by destruct (String.eqb_spec (index md "byline") "").
  - by rewrite Hne.
Qed.

(** A call that succeeds returns the parser the helpers left, and the
    article assembled from some metadata record. *)
Lemma ParseDocument_parser doc pageURL w a w' :
  ParseDocument doc pageURL w = Some ((a, None), w') →
  ∃ md node html text x,
    parser w' = parser x
    ∧ a = fst (fst (assembled pageURL md node html text x)).
Proof.
  intros (md & node & html & text & x & H)%ParseDocument_assembled.
  exists md, node, html, text, x. by injection H as -> ->.
Qed.

Lemma oneLine_blank s : strings.AllSpace s → oneLine s = "".
Proof. intros Hs. unfold oneLine. by rewrite TrimSpace_AllSpace. Qed.

(** X6: an excerpt in the metadata record comes first: the paragraphs of
    the content are not looked at, even when the excerpt of the record is
    nothing but white space, and the article then has no excerpt. *)
Theorem metadata_excerpt_first doc pageURL w w0 md ac w1 a w' :
  started doc pageURL w = Some w0 →
  fetched w0 = (md, ac, w1) →
  ParseDocument doc pageURL w = Some ((a, None), w') →
  index md "excerpt" ≠ "" →
  Excerpt a = strings.ToValidUTF8 (oneLine (index md "excerpt")) ""
  ∧ (strings.AllSpace (index md "excerpt") → Excerpt a = "").
Proof.
  intros Hs Hf H Hne.
  pose proof (ParseDocument_at _ _ _ _ _ _ _ _ _ Hs Hf H) as Ha.
  assert (He : Excerpt a = strings.ToValidUTF8 (oneLine (index md "excerpt")) "").
  { destruct ac as [l|].
    - destruct Ha as (content & w2 & _ & Ha). injection Ha as -> _.
      cbn [Excerpt]. by rewrite withExcerpt_given.
    - by injection Ha as -> _. }
  split; [done|]. intros Hsp. by rewrite He, oneLine_blank.
Qed.

(** X7: without an excerpt in the metadata record, the article has no
    excerpt when no content was found, when the content holds no
    paragraph, and when the text of its first paragraph is nothing but
    white space. *)
Theorem no_excerpt_without_text doc pageURL w w0 md ac w1 a w' :
  started doc pageURL w = Some w0 →
  fetched w0 = (md, ac, w1) →
  ParseDocument doc pageURL w = Some ((a, None), w') →
  index md "excerpt" = "" →
  (∀ l content p0 ps,
      ac = Some l → heap w' !! l = Some content →
      dom.GetElementsByTagName content "p" = p0 :: ps →
      strings.AllSpace (dom.TextContent p0)) →
  Excerpt a = "".
Proof.
  intros Hs Hf H He Hp.
  pose proof (ParseDocument_at _ _ _ _ _ _ _ _ _ Hs Hf H) as Ha.
  destruct ac as [l|].
  - destruct Ha as (content & w2 & Hc%container_heap & Ha).
    injection Ha as -> ->. cbn [Excerpt].
    destruct (dom.GetElementsByTagName content "p") as [|p0 ps] eqn:Ep.
    + unfold withExcerpt. rewrite He, Ep. cbn [String.eqb]. by rewrite He.
    + rewrite (withExcerpt_first _ _ _ _ He Ep).
      rewrite (TrimSpace_AllSpace (dom.TextContent p0)); [done|].
      by apply (Hp l content p0 ps).
  - injection Ha as -> _. cbn [Excerpt]. by rewrite He.
Qed.

(** X9: the excerpt of an article is on one line: it holds no line feed,
    carriage return, tab, vertical tab or form feed. *)
Theorem excerpt_on_one_line doc pageURL w a e w' :
  ParseDocument doc pageURL w = Some ((a, e), w') →
  strings.unbroken (Excerpt a) = true.
Proof.
  destruct e as [e|].
  - by intros (n & -> & _)%ParseDocument_error.
  - intros (md & node & html & text & x & _ & ->)%ParseDocument_parser.
    apply oneLine_unbroken.
Qed.

(** X10: the text and the markup of an article neither start nor end with
    white space: trimming them again changes nothing. *)
Theorem text_is_trimmed doc pageURL w a e w' :
  ParseDocument doc pageURL w = Some ((a, e), w') →
  strings.trimmed (TextContent a)
  ∧ strings.trimmed (Content a)
  ∧ strings.TrimSpace (TextContent a) = TextContent a
  ∧ strings.TrimSpace (Content a) = Content a.
Proof.
  intros H.
  assert (Ht : strings.trimmed (TextContent a) ∧ strings.trimmed (Content a)).
  { destruct e as [e|].
    - apply ParseDocument_error in H as (n & -> & _). split; by left.
    - apply ParseDocument_ok in H as (w0 & md & [l|] & w1 & _ & _ & _ & H).
      + destruct H as (content & w2 & _ & H). injection H as -> _.
        cbn [TextContent Content]. split; [apply TrimSpace_trimmed|].
        unfold dom.InnerHTML. destruct (dom.renderAll _ _); [|by left].
        apply TrimSpace_trimmed.
      + injection H as -> _. split; by left. }
  destruct Ht as [Ht Hc]. split_and!; [done|done|..]; by apply TrimSpace_fixed.
Qed.

Lemma firstElement_spec l i :
  match dom.firstElement l i with
  | Some j =>
    ∃ k c, j = (i + k)%nat ∧ l !! k = Some c
           ∧ html.Type_ c = html.ElementNode
           ∧ Forall (fun c' => html.Type_ c' ≠ html.ElementNode) (take k l)
  | None => Forall (fun c' => html.Type_ c' ≠ html.ElementNode) l
  end.
Proof.
  revert i. induction l as [|c l IH]; intros i; [by constructor|].
  cbn [dom.firstElement].
  destruct (html.Type_ c) eqn:Ety; cbn [html.NodeType_eqb].
  4:{ exists 0%nat, c. split_and!; [lia|done|done|constructor]. }
  all: specialize (IH (S i)); destruct (dom.firstElement l (S i)) as [j|].
  all: try (destruct IH as (k & c' & -> & Hk & Hc' & Hall);
            exists (S k), c'; split_and!; [lia|done|done|];
            cbn [take]; constructor; [by rewrite Ety|done]).
  all: constructor; [by rewrite Ety|done].
Qed.

(** X11: [Node] points to the first child of the container that is an
    element, in the tree whose markup is [Content] and whose text is
    [TextContent]; it is nil when the container has no element among its
    children.  The container is in memory after the call. *)
Theorem node_is_first_element doc pageURL w w0 md ac w1 a w' :
  started doc pageURL w = Some w0 →
  fetched w0 = (md, Some ac, w1) →
  ParseDocument doc pageURL w = Some ((a, None), w') →
  ∃ content,
    heap w' !! ac = Some content
    ∧ Content a = dom.InnerHTML html_Render content
    ∧ TextContent a = strings.TrimSpace (dom.TextContent content)
    ∧ match Node a with
      | Some (l, i) =>
        l = ac
        ∧ ∃ c, html.Children content !! i = Some c
               ∧ html.Type_ c = html.ElementNode
               ∧ Forall (fun c' => html.Type_ c' ≠ html.ElementNode)
                        (take i (html.Children content))
      | None =>
        Forall (fun c' => html.Type_ c' ≠ html.ElementNode)
               (html.Children content)
      end.
Proof.
  intros Hs Hf H.
  destruct (ParseDocument_at _ _ _ _ _ _ _ _ _ Hs Hf H)
    as (content & w2 & Hc%container_heap & Ha).
  injection Ha as -> ->. exists content. split_and!; [done|done|done|].
  cbn [Node]. unfold dom.FirstElementChild.
  pose proof (firstElement_spec (html.Children content) 0) as Hfe.
  destruct (dom.firstElement (html.Children content) 0) as [j|]; [|done].
  destruct Hfe as (k & c & -> & Hk & Hty & Hall). cbn. split; [done|].
  by exists c.
Qed.

(** X12: a publication date that no layout accepts does not fail the
    call: the article has no publication time, and the line that reports
    the date is on standard output. *)
Theorem unparsed_date_reported doc pageURL w w0 md ac w1 a w' dateStr :
  started doc pageURL w = Some w0 →
  fetched w0 = (md, ac, w1) →
  ParseDocument doc pageURL w = Some ((a, None), w') →
  md !! "datePublished" = Some dateStr →
  dateStr ≠ "" →
  Forall (fun l => time_Parse l dateStr = None) formats →
  PublishedTime a = None ∧ failedToParse dateStr ∈ stdout w'.
Proof.
  intros Hs Hf H Hd Hne Hall.
  assert (Hg : getDate md "datePublished" = (None, [failedToParse dateStr])).
  { unfold getDate. rewrite Hd. destruct dateStr as [|c s]; [done|].
    cbn [String.length Nat.ltb Nat.leb]. unfold getParsedDate.
    pose proof (tryFormats_spec formats (String c s)) as Ht.
    destruct (tryFormats formats (String c s)) as [[t|] out].
    - destruct Ht as (_ & pre & layout & post & Hfm & Hp & _).
      rewrite Hfm in Hall. apply Forall_app in Hall as [_ Hall].
      apply Forall_cons in Hall as [Hl _]. congruence.
    - destruct Ht as [_ ->]. reflexivity. }
  pose proof (ParseDocument_at _ _ _ _ _ _ _ _ _ Hs Hf H) as Ha.
  assert (Hout : PublishedTime a = fst (getDate md "datePublished")
                 ∧ ∃ x rest, stdout w'
                   = (stdout x ++ snd (getDate md "datePublished") ++ rest)%list).
  { destruct ac as [l|].
    - destruct Ha as (content & w2 & _ & Ha). injection Ha as -> ->.
      cbn [PublishedTime]. rewrite withExcerpt_getDate by done.
      split; [done|]. by eexists _, _.
    - injection Ha as -> ->. split; [done|]. by eexists _, _. }
  destruct Hout as (-> & x & rest & ->). rewrite Hg. split; [done|].
  cbn [snd]. set_solver.
Qed.

(** X13: invalid bytes in the title do not cost the title: a run of bytes
    that start no encoding, between valid text, is replaced by the page
    URL (by nothing when there is none), and the text around it is
    kept. *)
Theorem title_is_spliced doc pageURL w a w' pre c bad post :
  ParseDocument doc pageURL w = Some ((a, None), w') →
  articleTitle (parser w') = pre +:+ String c bad +:+ post →
  utf8.Valid pre →
  bytes.all utf8.startsNothing (String c bad) = true →
  utf8.Valid post →
  Title a = pre +:+ replacementTitle pageURL +:+ post.
Proof.
  intros (md & node & html & text & x & Hp & ->)%ParseDocument_parser Ht.
  cbn [assembled fst Title]. rewrite <- Hp, Ht. by apply ToValidUTF8_splice.
Qed.

End assembly_facts.

(** ** The excerpt, word by word *)

Section excerpt_facts.
Context {Time URL Reader parseAttempt : Type}.
Context {L : Libraries Time URL Reader parseAttempt}.
Context {I : Internals URL parseAttempt}.

Implicit Types (w x : @World URL parseAttempt) (md : gmap string string).

(** The text the excerpt is made from: the excerpt of the metadata record,
    or, when it has none, the trimmed text of the first paragraph of the
    content, if there is one. *)
Lemma Excerpt_source doc pageURL w w0 md ac w1 a w' :
  started doc pageURL w = Some w0 →
  fetched w0 = (md, ac, w1) →
  ParseDocument doc pageURL w = Some ((a, None), w') →
  ∃ src,
    Excerpt a = strings.ToValidUTF8 (oneLine src) ""
    ∧ ((index md "excerpt" ≠ "" ∧ src = index md "excerpt")
       ∨ (index md "excerpt" = "" ∧ src = ""
          ∧ (ac = None
             ∨ ∃ l content,
                 ac = Some l ∧ heap w' !! l = Some content
                 ∧ dom.GetElementsByTagName content "p" = []))
       ∨ (index md "excerpt" = ""
          ∧ ∃ l content p0 ps,
              ac = Some l ∧ heap w' !! l = Some content
              ∧ dom.GetElementsByTagName content "p" = p0 :: ps
              ∧ src = strings.TrimSpace (dom.TextContent p0))).
Proof.
  intros Hs Hf H.
  pose proof (ParseDocument_at _ _ _ _ _ _ _ _ _ Hs Hf H) as Ha.
  destruct ac as [l|].
  - destruct Ha as (content & w2 & Hc%container_heap & Ha).
    injection Ha as -> ->. cbn [Excerpt].
    eexists. split; [reflexivity|].
    destruct (String.eqb_spec (index md "excerpt") "") as [He|Hne].
    + destruct (dom.GetElementsByTagName content "p") as [|p0 ps] eqn:Ep.
      * right; left. split_and!; [done| |right; by exists l, content].
        unfold withExcerpt. by rewrite He, Ep.
      * right; right. split; [done|]. exists l, content, p0, ps.
        split_and!; try done. by apply withExcerpt_first with ps.
    + left. by rewrite withExcerpt_given.
  - injection Ha as -> _. eexists. split; [reflexivity|].
    destruct (String.eqb_spec (index md "excerpt") "") as [He|Hne].
    + right; left. split_and!; [done|done|by left].
    + by left.
Qed.

Lemma words_Forall ws :
  forallb strings.word ws = true ↔ Forall (fun f => strings.word f = true) ws.
Proof.
  induction ws as [|f ws IH]; cbn; [by split; [constructor|]|].
  rewrite andb_true_iff, IH. split.
  - intros [??]. by constructor.
  - by intros [??]%Forall_cons.
Qed.

Lemma Join_nonempty ws :
  ws ≠ [] → Forall (fun f => strings.word f = true) ws →
  strings.Join ws " " ≠ "".
Proof.
  intros Hne Hws. destruct ws as [|f ws]; [done|].
  apply Forall_cons in Hws as [[Hf _]%word_Solid _].
  destruct f as [|c f]; [done|]. destruct ws; [done|].
  change (strings.Join (String c f :: s :: ws) " ")
    with (String c f +:+ " " +:+ strings.Join (s :: ws) " ").
  by rewrite app_cons.
Qed.

Lemma Excerpt_words ws :
  Forall (fun f => strings.word f = true) ws →
  strings.ToValidUTF8 (oneLine (strings.Join ws " ")) "" = strings.Join ws " ".
Proof.
  intros Hws. rewrite oneLine_words by done.
  by apply ToValidUTF8_id, Join_Valid.
Qed.

(** X14: an excerpt that is words (well-encoded runes, none of them white
    space) separated by single spaces is returned as it is, whether it
    comes from the metadata record or is the text of the first paragraph
    of the content. *)
Theorem clean_excerpt_unchanged doc pageURL w w0 md ac w1 a w' ws :
  started doc pageURL w = Some w0 →
  fetched w0 = (md, ac, w1) →
  ParseDocument doc pageURL w = Some ((a, None), w') →
  forallb strings.word ws = true →
  (ws ≠ [] → index md "excerpt" = strings.Join ws " " →
   Excerpt a = index md "excerpt")
  ∧ (∀ l content p0 ps,
        index md "excerpt" = "" →
        ac = Some l → heap w' !! l = Some content →
        dom.GetElementsByTagName content "p" = p0 :: ps →
        dom.TextContent p0 = strings.Join ws " " →
        Excerpt a = dom.TextContent p0).
Proof.
  intros Hs Hf H Hws%words_Forall.
  destruct (Excerpt_source _ _ _ _ _ _ _ _ _ Hs Hf H) as (src & -> & Hsrc).
  split.
  - intros Hne He. pose proof (Join_nonempty ws Hne Hws) as Hj.
    destruct Hsrc as [[_ ->]|[[He' _]|[He' _]]]; [|congruence..].
    rewrite He. by apply Excerpt_words.
  - intros l content p0 ps He Hac Hh Hp Ht.
    destruct Hsrc as [[Hne _]|[(_ & _ & [Hn|Hn])|(_ & Hn)]]; [done|congruence|..].
    + destruct Hn as (l' & content' & Hac' & Hh' & Hp'). congruence.
    + destruct Hn as (l' & content' & p0' & ps' & Hac' & Hh' & Hp' & ->).
      assert (p0' = p0) as -> by congruence.
      rewrite Ht, (TrimSpace_fixed _ (Join_trimmed ws Hws)).
      by apply Excerpt_words.
Qed.

(** X15: when the text the excerpt is made from is valid UTF-8, the
    excerpt is words separated by single spaces: it neither starts nor ends
    with white space, and putting it on one line again changes nothing. *)
Theorem valid_excerpt_is_words doc pageURL w w0 md ac w1 a w' :
  started doc pageURL w = Some w0 →
  fetched w0 = (md, ac, w1) →
  ParseDocument doc pageURL w = Some ((a, None), w') →
  utf8.ValidString (index md "excerpt") = true →
  (∀ l content p0 ps,
      ac = Some l → heap w' !! l = Some content →
      dom.GetElementsByTagName content "p" = p0 :: ps →
      utf8.ValidString (dom.TextContent p0) = true) →
  ∃ ws, forallb strings.word ws = true
        ∧ Excerpt a = strings.Join ws " "
        ∧ strings.trimmed (Excerpt a)
        ∧ oneLine (Excerpt a) = Excerpt a.
Proof.
  intros Hs Hf H Hv%ValidString_Valid Hp.
  destruct (Excerpt_source _ _ _ _ _ _ _ _ _ Hs Hf H) as (src & He & Hsrc).
  assert (Hvs : utf8.Valid src).
  { destruct Hsrc as [[_ ->]|[(_ & -> & _)|(_ & Hn)]]; [done|constructor|].
    destruct Hn as (l & content & p0 & ps & Hac & Hh & Hg & ->).
    apply TrimSpace_Valid, ValidString_Valid. by apply (Hp l content p0 ps). }
  destruct (oneLine_Valid src Hvs) as (ws & Hws & Hone).
  exists ws. rewrite He, Hone, ToValidUTF8_id by (by apply Join_Valid).
  split_and!; [by apply words_Forall|done|by apply Join_trimmed
              |by apply oneLine_words].
Qed.

End excerpt_facts.

(** ** The concrete setting *)

Section scenario_facts.
Import Scenario.

Lemma runeCount_nonneg n s : (0 ≤ utf8.runeCount n s)%Z.
Proof.
  revert s. induction n as [|n IH]; intros s; [done|].
  destruct s as [|c t]; [done|].
  change (utf8.runeCount (S n) (String c t)) with
    (1 + utf8.runeCount n
           (bytes.drop (snd (utf8.DecodeRuneInString (String c t))) (String c t)))%Z.
  specialize (IH (bytes.drop (snd (utf8.DecodeRuneInString (String c t))) (String c t))).
  lia.
Qed.

(** The rune count is zero on the empty string only. *)
Lemma RuneCountInString_zero s : utf8.RuneCountInString s = 0%Z ↔ s = "".
Proof.
  split; [|by intros ->]. destruct s as [|c t]; [done|].
  unfold utf8.RuneCountInString. cbn [String.length].
  change (utf8.runeCount (S (String.length t)) (String c t)) with
    (1 + utf8.runeCount (String.length t)
           (bytes.drop (snd (utf8.DecodeRuneInString (String c t))) (String c t)))%Z.
  pose proof (runeCount_nonneg (String.length t)
    (bytes.drop (snd (utf8.DecodeRuneInString (String c t))) (String c t))).
  lia.
Qed.

Lemma confined_refl (arg : option loc) (w : World) : confined arg w w.
Proof. by split_and!. Qed.

(** The stand-ins keep to the working document and to what they create. *)
Lemma well_behaved md : WellBehaved (I := internals md).
Proof.
  split; cbn; try (intros; apply confined_refl).
  - intros [l|] w; [|apply confined_refl]. split_and!; [done|..].
    + cbn. by rewrite dom_alter_L.
    + intros l' _ _ Hl. cbn. apply lookup_alter_ne. congruence.
  - intros w. unfold childrenMoved.
    destruct (ps_doc w) as [d|] eqn:Ed; [|apply confined_refl].
    destruct (heap w !! d) as [[ty atom data ns attr [|c ch]]|] eqn:Eh;
      try apply confined_refl.
    split_and!; [done|..]; cbn.
    + rewrite !dom_insert_L. set_solver.
    + intros l Hl Hd _. rewrite lookup_insert_ne.
      * apply lookup_insert_ne. congruence.
      * intros <-. by apply is_fresh in Hl.
  - intros w ac. unfold childrenMoved.
    destruct (ps_doc w) as [d|] eqn:Ed; [|done].
    destruct (heap w !! d) as [[ty atom data ns attr [|c ch]]|] eqn:Eh;
      try done.
    cbn. intros [= <-]. split.
    + rewrite dom_insert_L. set_solver.
    + intros Hin. by apply is_fresh in Hin.
Qed.

End scenario_facts.

(** ** The claims, run *)

Section runs.
Import Scenario.

(** C1 as stated fails: a container that holds only an image has markup
    but no text. *)
Lemma empty_text_with_content :
  ∃ a w', run noMetadata None 0 page2 = Some ((a, None), w')
          ∧ Length a = 0%Z ∧ Content a ≠ "".
Proof.
  exists (article (run noMetadata None 0 page2)), (after (run noMetadata None 0 page2)).
  split_and!; [vm_compute; reflexivity..|]. vm_compute. discriminate.
Qed.

(** C1, amended, on a page whose container holds white space only. *)
Lemma length_zero_iff_no_text_witness :
  ∃ a w', run noMetadata None 0 page4 = Some ((a, None), w')
          ∧ Content a = ""
          ∧ Length a = utf8.RuneCountInString (TextContent a)
          ∧ (Length a = 0%Z ↔ TextContent a = "")
          ∧ Length a = 0%Z.
Proof.
  pose (r := run noMetadata None 0 page4).
  assert (Hrun : r = Some ((article r, None), after r)) by (vm_compute; reflexivity).
  destruct (length_zero_iff_no_text (I := internals noMetadata)
              0%nat None (world 0 page4) (article r) None (after r)
              RuneCountInString_zero Hrun) as (H1 & H2 & H3).
  exists (article r), (after r). split_and!; [done|vm_compute; reflexivity|done|done|].
  apply H3; [apply Render_rendersMarkup| |vm_compute; reflexivity].
  intros l content Hl.
  apply (map_Forall_lookup_1 (fun _ c =>
           html.built c = true
           ∧ is_Some (dom.renderAll html.Render (html.Children c)))
           (heap (after r)) l content); [|exact Hl].
  apply (bool_decide_unpack _). vm_compute. exact I.
Defined.

(** C2 on a page from which the stand-ins remove a script and move the
    content. *)
Lemma original_untouched_witness :
  ∃ r w' c,
    run noMetadata None 0 page1 = Some (r, w')
    ∧ ps_doc w' = Some c
    ∧ (c ∉ dom (heap (world 0 page1)))
    ∧ heap w' !! 0%nat = Some page1
    ∧ ∀ l, l ∈ dom (heap (world 0 page1)) →
           heap w' !! l = heap (world 0 page1) !! l.
Proof.
  apply (original_untouched (WB := well_behaved noMetadata)
           0%nat None (world 0 page1) page1).
  vm_compute; reflexivity.
Defined.

(** C3 on a page of three elements, under the limits 3 and 2. *)
Lemma size_limit_witness :
  (∀ a e w', run dated None 3 page1 ≠ Some ((a, Some e), w'))
  ∧ ∃ w', run dated None 2 page1
          = Some ((zeroArticle, Some (Errorf_tooLarge 3)), w').
Proof.
  split.
  - apply (size_limit (I := internals dated) 0%nat None (world 3 page1) page1);
      [vm_compute; reflexivity|]. right. vm_compute. discriminate.
  - eexists.
    apply (size_limit (I := internals dated) 0%nat None (world 2 page1) page1);
      [vm_compute; reflexivity|]. vm_compute. split; reflexivity.
Defined.

(** C4 on a record with both dates: the second one is lost. *)
Lemma modified_time_not_populated_witness :
  ∃ a w', run dated None 0 page1 = Some ((a, None), w')
          ∧ fst (getParsedDate "2021-03-05") = Some (mkDate 2021 3 5)
          ∧ PublishedTime a = Some (mkDate 2021 3 4)
          ∧ ModifiedTime a = None.
Proof.
  exists (article (run dated None 0 page1)), (after (run dated None 0 page1)).
  split_and!; [vm_compute; reflexivity..|].
  apply (modified_time_not_populated (I := internals dated)
           0%nat None (world 0 page1) _ (after (run dated None 0 page1))).
  - intros j x. vm_compute. reflexivity.
  - vm_compute; reflexivity.
Defined.

(** C5 as stated fails: the white space inside the paragraph is
    collapsed. *)
Lemma excerpt_is_not_the_trimmed_text :
  ∃ w0 ac w1 content w2 p0 ps a w',
    started 0%nat None (world 0 page1) = Some w0
    ∧ overLimit w0 = Some None
    ∧ fetched (I := internals noMetadata) w0 = (noMetadata, Some ac, w1)
    ∧ container (I := internals noMetadata) ac w1 = Some (content, w2)
    ∧ index noMetadata "excerpt" = ""
    ∧ dom.GetElementsByTagName content "p" = p0 :: ps
    ∧ run noMetadata None 0 page1 = Some ((a, None), w')
    ∧ Excerpt a ≠ strings.TrimSpace (dom.TextContent p0).
Proof.
  pose (w0 := default (world 0 page3) (started 0%nat None (world 0 page1))).
  pose (f := fetched (I := internals noMetadata) w0).
  pose (c := default (page3, w0) (container (I := internals noMetadata) 2%nat f.2)).
  exists w0, 2%nat, f.2, c.1, c.2, (p hello), [],
    (article (run noMetadata None 0 page1)), (after (run noMetadata None 0 page1)).
  split_and!; [vm_compute; reflexivity..|]. vm_compute. discriminate.
Qed.

(** C5, amended, on the page of the counterexample. *)
Lemma excerpt_from_first_paragraph_witness :
  ∃ a w', run noMetadata None 0 page1 = Some ((a, None), w')
          ∧ Excerpt a = "Hello, brave new world.".
Proof.
  pose (w0 := default (world 0 page3) (started 0%nat None (world 0 page1))).
  pose (f := fetched (I := internals noMetadata) w0).
  pose (c := default (page3, w0) (container (I := internals noMetadata) 2%nat f.2)).
  destruct (excerpt_from_first_paragraph (I := internals noMetadata)
              0%nat None (world 0 page1) w0 noMetadata 2%nat f.2 c.1 c.2
              (p hello) [])
    as (a & w' & Hrun & He); [vm_compute; reflexivity..|].
  exists a, w'. split; [exact Hrun|]. rewrite He. vm_compute. reflexivity.
Defined.


(** C8 on a record whose texts are not valid UTF-8: two invalid bytes in
    the title, a byline that starts with a byte that wants a second one,
    and an excerpt with a sequence cut short. *)
Lemma encoding_repaired_witness :
  ∃ a w', run garbled (Some "http://x/") 0 page1 = Some ((a, None), w')
          ∧ utf8.ValidString (index garbled "title") = false
          ∧ utf8.ValidString (index garbled "byline") = false
          ∧ utf8.ValidString (index garbled "excerpt") = false
          ∧ Title a = "Ahttp://x/B"
          ∧ Byline a = "("
          ∧ Excerpt a = "a b"
          ∧ utf8.ValidString (Title a) = true
          ∧ utf8.ValidString (Byline a) = true
          ∧ utf8.ValidString (Excerpt a) = true.
Proof.
  pose (w0 := default (world 0 page3)
                (started 0%nat (Some "http://x/") (world 0 page1))).
  pose (f := fetched (I := internals garbled) w0).
  assert (Hfetched : f = (f.1.1, f.1.2, f.2)) by (by destruct f as [[??]?]).
  destruct (encoding_repaired (I := internals garbled) 0%nat (Some "http://x/")
              (world 0 page1) w0 f.1.1 f.1.2 f.2)
    as (a & w' & Hrun & _ & _ & _ & Hvb & Hve & Hvt & _);
    [vm_compute; reflexivity|vm_compute; reflexivity|exact Hfetched| |].
  { intros l Hl. assert (l = 2%nat) as -> by (vm_compute in Hl; congruence).
    vm_compute. by eexists. }
  pose (r := run garbled (Some "http://x/") 0 page1).
  assert (Hr : r = Some ((article r, None), after r)) by (vm_compute; reflexivity).
  assert (Ha : a = article r ∧ w' = after r).
  { change (run garbled (Some "http://x/") 0 page1
            = Some (article r, None, after r)) in Hr.
    unfold run in Hr. rewrite Hrun in Hr. injection Hr as Ha Hw. by split. }
  destruct Ha as [Ha Hw].
  exists a, w'. split; [exact Hrun|].
  split_and!; [vm_compute; reflexivity..
              |rewrite Ha; vm_compute; reflexivity
              |rewrite Ha; vm_compute; reflexivity
              |rewrite Ha; vm_compute; reflexivity
              |apply Hvt|exact Hvb|exact Hve].
  vm_compute. reflexivity.
Defined.


(** C10 on a reader that fails. *)
Lemma error_with_zero_article_witness :
  ∃ a e w',
    Parse (I := internals noMetadata) broken None (world 0 page3)
    = Some ((a, Some e), w')
    ∧ a = zeroArticle
    ∧ ((∃ err, e = Errorf_parse err) ∨ (∃ n, e = Errorf_tooLarge n)).
Proof.
  pose (r := Parse (I := internals noMetadata) broken None (world 0 page3)).
  assert (Hrun : r = Some ((article r,
                            Some (errorString "failed to parse input: unexpected EOF")),
                           after r))
    by (vm_compute; reflexivity).
  exists (article r), (errorString "failed to parse input: unexpected EOF"), (after r).
  split; [exact Hrun|].
  apply (error_with_zero_article (I := internals noMetadata)
           broken 0%nat None (world 0 page3) _ _ (after r)).
  left. exact Hrun.
Defined.

(** [getParsedDate] with the stand-in for [time.Parse]. *)
Example getParsedDate_run :
  getParsedDate "2021-03-04" = (Some (mkDate 2021 3 4), [])
  ∧ getParsedDate "soon" = (None, [failedToParse "soon"]).
Proof. split; vm_compute; reflexivity. Qed.

(** The size error comes with the zero article too. *)
Example too_large_run :
  fst <$> run dated None 2 page1
  = Some (zeroArticle, Some (errorString "documents too large: 3 elements")).
Proof. vm_compute. reflexivity. Qed.

(** A run with nothing to repair or to fall back on. *)
Example page1_run :
  article (run noMetadata (Some "http://x/") 0 page1)
  = {| Title := ""; Byline := ""; Node := Some (2%nat, 0%nat);
       Content := dom.InnerHTML html.Render
                    (html.elem "div" [] (skipn 1 (html.Children page1)));
       TextContent := strings.TrimSpace
                        (dom.TextContent
                           (html.elem "div" [] (skipn 1 (html.Children page1))));
       Length := 26;
       Excerpt := "Hello, brave new world.";
       SiteName := ""; Image := ""; Favicon := "";
       PublishedTime := None; ModifiedTime := None |}.
Proof. vm_compute. reflexivity. Qed.

End runs.

(** ** Further properties, run *)

Section more_runs.
Import Scenario.

(** X1 on a parser that an earlier call has used. *)
Lemma leftover_state_ignored_witness :
  ParseDocument (I := internals dated) 0%nat (Some "http://x/")
                (with_parser (world 0 page1) (usedParser 0))
  = run dated (Some "http://x/") 0 page1.
Proof.
  apply (leftover_state_ignored (I := internals dated) 0%nat (Some "http://x/")
           (world 0 page1) (usedParser 0)); reflexivity.
Defined.

(** X2 on a parser that is set not to read JSON-LD, with a [getJSONLD]
    that would return a title. *)
Lemma jsonld_skipped_when_disabled_witness :
  let w := with_parser (world 0 page1) plainParser in
  let g := fun x : World => (({[ "title" := "From JSON-LD" ]}, None), x) in
  ParseDocument (I := withJSONLD (I := internals dated) g) 0%nat None w
  = ParseDocument (I := internals dated) 0%nat None w.
Proof.
  intros w g.
  pose (w0 := default w (started 0%nat None w)).
  apply (jsonld_skipped_when_disabled (I := internals dated) 0%nat None w w0 g);
    vm_compute; reflexivity.
Defined.

(** X3 with a [getJSONLD] that fails. *)
Lemma jsonld_error_discarded_witness :
  let g := fun x : World => ((∅, Some (errorString "invalid JSON")), x) in
  ParseDocument (I := withJSONLD (I := internals dated) g) 0%nat None
                (world 0 page1)
  = run dated None 0 page1.
Proof.
  intros g.
  apply (jsonld_error_discarded (I := internals dated) 0%nat None
           (world 0 page1) g).
  intros x. split; reflexivity.
Defined.

(** X5 and X8 on a record that describes the page. *)
Lemma metadata_fields_copied_witness :
  ∃ a w', run described None 0 page1 = Some ((a, None), w')
          ∧ SiteName a = "The Site"
          ∧ Image a = "http://x/i.png"
          ∧ Favicon a = ""
          ∧ PublishedTime a = Some (mkDate 2021 3 4).
Proof.
  pose (r := run described None 0 page1).
  pose (w0 := default (world 0 page3) (started 0%nat None (world 0 page1))).
  pose (f := fetched (I := internals described) w0).
  assert (Hrun : r = Some ((article r, None), after r)) by (vm_compute; reflexivity).
  assert (Hfetched : f = (f.1.1, f.1.2, f.2)) by (by destruct f as [[??]?]).
  destruct (metadata_fields_copied (I := internals described) 0%nat None
              (world 0 page1) w0 f.1.1 f.1.2 f.2 (article r) (after r))
    as (Hs & Hi & Hf & Hp); [vm_compute; reflexivity|exact Hfetched|exact Hrun|].
  exists (article r), (after r). split; [exact Hrun|].
  rewrite Hs, Hi, Hf, Hp. vm_compute. by split_and!.
Defined.

Lemma metadata_byline_first_witness :
  ∃ a w', run described None 0 page1 = Some ((a, None), w')
          ∧ Byline a = "A. Writer".
Proof.
  pose (r := run described None 0 page1).
  pose (w0 := default (world 0 page3) (started 0%nat None (world 0 page1))).
  pose (f := fetched (I := internals described) w0).
  assert (Hrun : r = Some ((article r, None), after r)) by (vm_compute; reflexivity).
  assert (Hfetched : f = (f.1.1, f.1.2, f.2)) by (by destruct f as [[??]?]).
  destruct (metadata_byline_first (I := internals described) 0%nat None
              (world 0 page1) w0 f.1.1 f.1.2 f.2 (article r) (after r))
    as [Hb _]; [vm_compute; reflexivity|exact Hfetched|exact Hrun|].
  exists (article r), (after r). split; [exact Hrun|].
  rewrite Hb; [vm_compute; reflexivity|]. vm_compute. discriminate.
Defined.

(** X6 on a record whose excerpt is white space, for a page with a
    paragraph. *)
Lemma metadata_excerpt_first_witness :
  ∃ a w', run blank None 0 page1 = Some ((a, None), w')
          ∧ Excerpt a = "".
Proof.
  pose (r := run blank None 0 page1).
  pose (w0 := default (world 0 page3) (started 0%nat None (world 0 page1))).
  pose (f := fetched (I := internals blank) w0).
  assert (Hrun : r = Some ((article r, None), after r)) by (vm_compute; reflexivity).
  assert (Hfetched : f = (f.1.1, f.1.2, f.2)) by (by destruct f as [[??]?]).
  destruct (metadata_excerpt_first (I := internals blank) 0%nat None
              (world 0 page1) w0 f.1.1 f.1.2 f.2 (article r) (after r))
    as [_ He]; [vm_compute; reflexivity|exact Hfetched|exact Hrun| |].
  { vm_compute. discriminate. }
  exists (article r), (after r). split; [exact Hrun|].
  apply He. apply (indexFunc_None 3 _ 0); [vm_compute; lia|vm_compute; reflexivity].
Defined.

(** X7 on a page whose content holds an image and no paragraph. *)
Lemma no_excerpt_without_text_witness :
  ∃ a w', run noMetadata None 0 page2 = Some ((a, None), w')
          ∧ Content a ≠ "" ∧ Excerpt a = "".
Proof.
  pose (r := run noMetadata None 0 page2).
  pose (w0 := default (world 0 page3) (started 0%nat None (world 0 page2))).
  pose (f := fetched (I := internals noMetadata) w0).
  assert (Hrun : r = Some ((article r, None), after r)) by (vm_compute; reflexivity).
  exists (article r), (after r). split_and!; [exact Hrun|vm_compute; discriminate|].
  assert (Hfetched : f = (f.1.1, f.1.2, f.2)) by (by destruct f as [[??]?]).
  apply (no_excerpt_without_text (I := internals noMetadata) 0%nat None
           (world 0 page2) w0 f.1.1 f.1.2 f.2 (article r) (after r));
    [vm_compute; reflexivity|exact Hfetched|exact Hrun|vm_compute; reflexivity|].
  intros l content p0 ps Hl Hh Hp.
  assert (l = 2%nat) as -> by (vm_compute in Hl; congruence).
  vm_compute in Hh. injection Hh as <-. vm_compute in Hp. discriminate.
Defined.

(** X9 and X10 on a page whose paragraph holds a line break and starts and
    ends with white space. *)
Lemma excerpt_on_one_line_witness :
  ∃ a w', run noMetadata None 0 page1 = Some ((a, None), w')
          ∧ strings.unbroken (dom.TextContent (p hello)) = false
          ∧ strings.unbroken (Excerpt a) = true.
Proof.
  pose (r := run noMetadata None 0 page1).
  assert (Hrun : r = Some ((article r, None), after r)) by (vm_compute; reflexivity).
  exists (article r), (after r). split_and!; [exact Hrun|vm_compute; reflexivity|].
  apply (excerpt_on_one_line (I := internals noMetadata) 0%nat None
           (world 0 page1) (article r) None (after r) Hrun).
Defined.

Lemma text_is_trimmed_witness :
  ∃ a w', run noMetadata None 0 page1 = Some ((a, None), w')
          ∧ strings.trimmed (TextContent a)
          ∧ strings.trimmed (Content a)
          ∧ strings.TrimSpace (TextContent a) = TextContent a
          ∧ strings.TrimSpace (Content a) = Content a.
Proof.
  pose (r := run noMetadata None 0 page1).
  assert (Hrun : r = Some ((article r, None), after r)) by (vm_compute; reflexivity).
  exists (article r), (after r). split; [exact Hrun|].
  apply (text_is_trimmed (I := internals noMetadata) 0%nat None
           (world 0 page1) (article r) None (after r) Hrun).
Defined.

(** X11 on a page whose paragraph comes after a text and a comment. *)
Lemma node_is_first_element_witness :
  ∃ a w' content,
    run noMetadata None 0 page5 = Some ((a, None), w')
    ∧ heap w' !! 2%nat = Some content
    ∧ Content a = dom.InnerHTML html.Render content
    ∧ Node a = Some (2%nat, 2%nat)
    ∧ html.Children content !! 2%nat = Some (p "body").
Proof.
  pose (r := run noMetadata None 0 page5).
  pose (w0 := default (world 0 page3) (started 0%nat None (world 0 page5))).
  pose (f := fetched (I := internals noMetadata) w0).
  assert (Hrun : r = Some ((article r, None), after r)) by (vm_compute; reflexivity).
  destruct (node_is_first_element (I := internals noMetadata) 0%nat None
              (world 0 page5) w0 f.1.1 2%nat f.2 (article r) (after r))
    as (content & Hh & Hc & _ & _); [vm_compute; reflexivity..|exact Hrun|].
  exists (article r), (after r), content.
  split_and!; [exact Hrun|exact Hh|exact Hc|vm_compute; reflexivity|].
  vm_compute in Hh. injection Hh as <-. reflexivity.
Defined.

(** X12 on a record whose date is a word. *)
Lemma unparsed_date_reported_witness :
  ∃ a w', run undatable None 0 page1 = Some ((a, None), w')
          ∧ PublishedTime a = None
          ∧ failedToParse "yesterday" ∈ stdout w'.
Proof.
  pose (r := run undatable None 0 page1).
  pose (w0 := default (world 0 page3) (started 0%nat None (world 0 page1))).
  pose (f := fetched (I := internals undatable) w0).
  assert (Hrun : r = Some ((article r, None), after r)) by (vm_compute; reflexivity).
  exists (article r), (after r). split; [exact Hrun|].
  assert (Hfetched : f = (f.1.1, f.1.2, f.2)) by (by destruct f as [[??]?]).
  apply (unparsed_date_reported (I := internals undatable) 0%nat None
           (world 0 page1) w0 f.1.1 f.1.2 f.2 (article r) (after r)
           "yesterday");
    [vm_compute; reflexivity|exact Hfetched|exact Hrun|vm_compute; reflexivity
    |done|].
  assert (E : tryFormats formats "yesterday" = (None, [failedToParse "yesterday"]))
    by (vm_compute; reflexivity).
  pose proof (tryFormats_spec formats "yesterday") as H. rewrite E in H.
  exact (proj1 H).
Defined.

(** X13 on a title with two invalid bytes between two letters. *)
Lemma title_is_spliced_witness :
  ∃ a w', run garbled (Some "http://x/") 0 page1 = Some ((a, None), w')
          ∧ Title a = "Ahttp://x/B".
Proof.
  pose (r := run garbled (Some "http://x/") 0 page1).
  assert (Hrun : r = Some ((article r, None), after r)) by (vm_compute; reflexivity).
  exists (article r), (after r). split; [exact Hrun|].
  apply (title_is_spliced (I := internals garbled) 0%nat (Some "http://x/")
           (world 0 page1) (article r) (after r)
           "A" (ascii_of_N 0xFF) (bytes.of_list [0xFE%N]) "B" Hrun).
  - vm_compute. reflexivity.
  - apply ValidString_Valid. reflexivity.
  - reflexivity.
  - apply ValidString_Valid. reflexivity.
Defined.

(** X14 on a record whose excerpt is three words, one of them with a
    letter of two bytes. *)
Lemma clean_excerpt_unchanged_witness :
  ∃ a w', run tidy None 0 page1 = Some ((a, None), w')
          ∧ Excerpt a = cafe +:+ " au lait".
Proof.
  pose (r := run tidy None 0 page1).
  pose (w0 := default (world 0 page3) (started 0%nat None (world 0 page1))).
  pose (f := fetched (I := internals tidy) w0).
  assert (Hrun : r = Some ((article r, None), after r)) by (vm_compute; reflexivity).
  assert (Hfetched : f = (f.1.1, f.1.2, f.2)) by (by destruct f as [[??]?]).
  destruct (clean_excerpt_unchanged (I := internals tidy) 0%nat None
              (world 0 page1) w0 f.1.1 f.1.2 f.2 (article r) (after r)
              [cafe; "au"; "lait"])
    as [He _]; [vm_compute; reflexivity|exact Hfetched|exact Hrun
               |vm_compute; reflexivity|].
  exists (article r), (after r). split; [exact Hrun|].
  rewrite He; [vm_compute; reflexivity|done|vm_compute; reflexivity].
Defined.

(** X15 on a page whose paragraph holds runs of white space and a line
    break. *)
Lemma valid_excerpt_is_words_witness :
  ∃ a w' ws,
    run noMetadata None 0 page1 = Some ((a, None), w')
    ∧ forallb strings.word ws = true
    ∧ Excerpt a = strings.Join ws " "
    ∧ strings.trimmed (Excerpt a)
    ∧ oneLine (Excerpt a) = Excerpt a.
Proof.
  pose (r := run noMetadata None 0 page1).
  pose (w0 := default (world 0 page3) (started 0%nat None (world 0 page1))).
  pose (f := fetched (I := internals noMetadata) w0).
  assert (Hrun : r = Some ((article r, None), after r)) by (vm_compute; reflexivity).
  assert (Hfetched : f = (f.1.1, f.1.2, f.2)) by (by destruct f as [[??]?]).
  destruct (valid_excerpt_is_words (I := internals noMetadata) 0%nat None
              (world 0 page1) w0 f.1.1 f.1.2 f.2 (article r) (after r))
    as (ws & Hws); [vm_compute; reflexivity|exact Hfetched|exact Hrun
                   |vm_compute; reflexivity| |].
  - intros l content p0 ps Hl Hh Hp.
    assert (l = 2%nat) as -> by (vm_compute in Hl; congruence).
    vm_compute in Hh. injection Hh as <-. vm_compute in Hp.
    injection Hp as <- _. vm_compute. reflexivity.
  - exists (article r), (after r), ws. split; [exact Hrun|exact Hws].
Defined.

End more_runs.

(** ** The library models, run *)

(** The letter e with an acute accent, the euro sign, an emoji; then an
    overlong encoding, a surrogate, a value past the last code point, and a
    sequence cut short: all four are encoding errors. *)
Example DecodeRuneInString_ex :
  map (fun l => utf8.DecodeRuneInString (bytes.of_list l))
      [[0xC3; 0xA9]; [0xE2; 0x82; 0xAC; 0x21]; [0xF0; 0x9F; 0x98; 0x80];
       [0xC0; 0x80]; [0xED; 0xA0; 0x80]; [0xF4; 0x90; 0x80; 0x80];
       [0xE2; 0x82]]%N
  = [(0xE9, 2%nat); (0x20AC, 3%nat); (0x1F600, 4%nat);
     (utf8.RuneError, 1%nat); (utf8.RuneError, 1%nat);
     (utf8.RuneError, 1%nat); (utf8.RuneError, 1%nat)]%N.
Proof. reflexivity. Qed.

Example DecodeLastRuneInString_ex :
  map (fun l => utf8.DecodeLastRuneInString (bytes.of_list l))
      [[0x61; 0xC3; 0xA9]; [0x61; 0xE2; 0x82; 0xAC]; [0x61; 0x82; 0xAC];
       [0x61]]%N
  = [(0xE9, 2%nat); (0x20AC, 3%nat); (utf8.RuneError, 1%nat); (0x61, 1%nat)]%N.
Proof. reflexivity. Qed.

Example RuneCountInString_ex :
  utf8.RuneCountInString (bytes.of_list [0x61; 0xC3; 0xA9; 0xFF; 0xE2; 0x82; 0xAC]%N)
  = 4%Z.
Proof. reflexivity. Qed.

Example Join_Fields_ex :
  strings.Join (strings.Fields (bytes.of_list [0x20; 0x61; 0xC2; 0xA0; 0x09; 0x62; 0x0A]%N)) " "
  = "a b".
Proof. reflexivity. Qed.

Example TrimSpace_ex :
  strings.TrimSpace ("  a  b" +:+ bytes.nl +:+ " ") = "a  b".
Proof. reflexivity. Qed.

Example Fields_ex :
  strings.Fields (" a  b" +:+ bytes.nl +:+ "c ") = ["a"; "b"; "c"].
Proof. reflexivity. Qed.

Example ToValid_ex :
  strings.ToValidUTF8 (bytes.of_list [0x61; 0xFF; 0xFE; 0x62; 0xC3; 0xA9; 0xC3]%N) "?"
  = bytes.of_list [0x61; 0x3F; 0x62; 0xC3; 0xA9; 0x3F]%N.
Proof. reflexivity. Qed.

Example TrimSpace_nbsp :
  strings.TrimSpace (bytes.of_list [0xC2; 0xA0; 0x61; 0xE2; 0x80; 0x83; 0xE3; 0x80; 0x80]%N) = "a".
Proof. reflexivity. Qed.

Example Render_ex :
  html.Render (html.elem "div" [html.mkAttr "" "id" "a&b"]
                 [html.elem "img" [] []; html.text "x<y"])
  = Some ("<div id=" +:+ bytes.dquote +:+ "a&amp;b" +:+ bytes.dquote
          +:+ "><img/>x&lt;y</div>").
Proof. reflexivity. Qed.

Example GetElements_ex :
  length (dom.GetElementsByTagName
            (html.elem "div" [] [html.elem "p" [] [html.elem "b" [] []]; html.text "t"]) "*")
  = 2%nat.
Proof. reflexivity. Qed.
